(** * rce.js: command correlation, console classifier and pollers

    A shallow embedding of the parts of the library that correlate console
    commands with log output ([ServerManager.command], the [CommandHandler]
    registry), classify console lines ([ConsoleMessagesHandler.handle],
    [getKill]) and reconcile polled snapshots ([Helper.comparePopulation],
    [ServerManager.updateBroadcasters]).

    JavaScript strings are modelled as [string] (sequences of 8-bit code
    units), numbers that the code only uses as integers as [N] or [Z],
    objects as records, arrays as lists, [Map]s as [gmap]s or, where the
    iteration order matters, as lists kept in insertion order.  Calls of the
    logger and of [ServerUtils.error] only report to the logging sink and
    are left out; the listeners that [emit] runs are not part of the
    library and are not modelled. *)

From stdpp Require Import gmap strings list.
From Stdlib Require Import ZArith NArith Ascii String DecimalString.

Open Scope string_scope.

(** ** JavaScript string primitives used by the sources *)

Module JS.

(** Truthiness of a string value: only the empty string is falsy. *)
Definition truthy (s : string) : bool :=
  match s with
  | EmptyString => false
  | String _ _ => true
  end.

(** Truthiness of a possibly [undefined]/[null] string. *)
Definition truthy_opt (o : option string) : bool :=
  match o with
  | Some s => truthy s
  | None => false
  end.

Definition code (c : ascii) : N := N_of_ascii c.

(** White space and line terminators among the code units below 256, as
    stripped by [String.prototype.trim] and skipped by [Number] and
    [parseInt]: U+0009 to U+000D, the space and the no-break space. *)
Definition isWhiteSpace (c : ascii) : bool :=
  let n := code c in
  ((9 <=? n) && (n <=? 13))%N || (n =? 32)%N || (n =? 160)%N.

Definition isDigit (c : ascii) : bool :=
  let n := code c in ((48 <=? n) && (n <=? 57))%N.

Definition digitValue (c : ascii) : Z := (Z.of_N (code c) - 48)%Z.

Fixpoint trimStart (s : string) : string :=
  match s with
  | EmptyString => EmptyString
  | String c s' => if isWhiteSpace c then trimStart s' else s
  end.

Fixpoint trimEnd (s : string) : string :=
  match s with
  | EmptyString => EmptyString
  | String c s' =>
      match trimEnd s' with
      | EmptyString => if isWhiteSpace c then EmptyString else String c EmptyString
      | r => String c r
      end
  end.

(** [s.trim()] *)
Definition trim (s : string) : string := trimEnd (trimStart s).

Definition lowerChar (c : ascii) : ascii :=
  let n := code c in
  if ((65 <=? n) && (n <=? 90))%N then ascii_of_N (n + 32)
  else if ((192 <=? n) && (n <=? 222) && negb (n =? 215))%N then ascii_of_N (n + 32)
  else c.

(** [s.toLowerCase()] on code units below 256: the letters A-Z and the
    capital letters of U+00C0 to U+00DE. *)
Fixpoint toLowerCase (s : string) : string :=
  match s with
  | EmptyString => EmptyString
  | String c s' => String (lowerChar c) (toLowerCase s')
  end.

(** [s.startsWith(p)] *)
Definition startsWith (s p : string) : bool := String.prefix p s.

(** [s.includes(sub)] *)
Fixpoint includes (s sub : string) : bool :=
  if String.prefix sub s then true
  else match s with
       | EmptyString => false
       | String _ s' => includes s' sub
       end.

Fixpoint rev_acc (acc s : string) : string :=
  match s with
  | EmptyString => acc
  | String c s' => rev_acc (String c acc) s'
  end.

Definition rev (s : string) : string := rev_acc EmptyString s.

(** [s.split(sep)] for a non-empty separator: [skip] counts the code units
    of a separator occurrence that are still to be dropped, [acc] holds the
    current piece in reverse. *)
Fixpoint split_go (sep : string) (skip : nat) (acc : string) (s : string)
  : list string :=
  match s with
  | EmptyString => [rev acc]
  | String c s' =>
      match skip with
      | S k => split_go sep k acc s'
      | O =>
          if String.prefix sep s
          then rev acc :: split_go sep (String.length sep - 1) EmptyString s'
          else split_go sep 0 (String c acc) s'
      end
  end.

Definition split (s sep : string) : list string := split_go sep 0 EmptyString s.

(** A JavaScript number that the code obtains from [parseInt]: an integer
    or [NaN].  Values are kept exact (no rounding to a double). *)
Inductive number :=
| Num (z : Z)
| NaN.

Fixpoint spanDigits (acc : Z) (seen : bool) (s : string) : Z * bool * string :=
  match s with
  | EmptyString => (acc, seen, s)
  | String c s' =>
      if isDigit c then spanDigits (10 * acc + digitValue c)%Z true s'
      else (acc, seen, s)
  end.

Definition hexValue (c : ascii) : option Z :=
  let n := code c in
  if isDigit c then Some (Z.of_N n - 48)%Z
  else if ((97 <=? n) && (n <=? 102))%N then Some (Z.of_N n - 87)%Z
  else if ((65 <=? n) && (n <=? 70))%N then Some (Z.of_N n - 55)%Z
  else None.

Fixpoint spanHex (acc : Z) (seen : bool) (s : string) : Z * bool * string :=
  match s with
  | EmptyString => (acc, seen, s)
  | String c s' =>
      match hexValue c with
      | Some d => spanHex (16 * acc + d)%Z true s'
      | None => (acc, seen, s)
      end
  end.

Definition stripSign (s : string) : bool * string :=
  match s with
  | String "-" s' => (true, s')
  | String "+" s' => (false, s')
  | _ => (false, s)
  end.

Definition signed (neg : bool) (z : Z) : Z := if neg then (- z)%Z else z.

(** [parseInt(s, 10)]: leading white space, an optional sign, then the
    longest run of decimal digits; [NaN] when there is none. *)
Definition parseInt10 (s : string) : number :=
  let '(neg, s1) := stripSign (trimStart s) in
  let '(v, seen, _) := spanDigits 0 false s1 in
  if seen then Num (signed neg v) else NaN.

(** [parseInt(s)]: as above, with a [0x]/[0X] prefix selecting radix 16. *)
Definition parseInt (s : string) : number :=
  let '(neg, s1) := stripSign (trimStart s) in
  match s1 with
  | String "0" (String x s2) =>
      if (Ascii.eqb x "x" || Ascii.eqb x "X")%bool then
        let '(v, seen, _) := spanHex 0 false s2 in
        if seen then Num (signed neg v) else NaN
      else
        let '(v, seen, _) := spanDigits 0 false s1 in
        if seen then Num (signed neg v) else NaN
  | _ =>
      let '(v, seen, _) := spanDigits 0 false s1 in
      if seen then Num (signed neg v) else NaN
  end.

(** Digits of a fraction: the accumulated mantissa and the number of
    fraction digits read. *)
Fixpoint spanFraction (acc : Z) (count : Z) (s : string) : Z * Z * string :=
  match s with
  | EmptyString => (acc, count, s)
  | String c s' =>
      if isDigit c then spanFraction (10 * acc + digitValue c)%Z (count + 1)%Z s'
      else (acc, count, s)
  end.

Fixpoint spanRadix (radix : Z) (acc : Z) (seen : bool) (s : string)
  : Z * bool * string :=
  match s with
  | EmptyString => (acc, seen, s)
  | String c s' =>
      match hexValue c with
      | Some d =>
          if (d <? radix)%Z then spanRadix radix (radix * acc + d)%Z true s'
          else (acc, seen, s)
      | None => (acc, seen, s)
      end
  end.

(** Whether the decimal value [m * 10^k] (with [0 <= m]) is non-zero as a
    double: it rounds to zero exactly when it is at most [2^-1075]. *)
Definition roundsToNonZero (m k : Z) : bool :=
  ((0 <? m) && ((0 <=? k) || (10 ^ (- k) <? m * 2 ^ 1075)))%Z.

(** The exponent part of a decimal literal; [None] when malformed. *)
Definition exponentPart (s : string) : option Z :=
  match s with
  | EmptyString => Some 0%Z
  | String c s1 =>
      if (Ascii.eqb c "e" || Ascii.eqb c "E")%bool then
        let '(neg, s2) := stripSign s1 in
        match spanDigits 0 false s2 with
        | (v, true, EmptyString) => Some (signed neg v)
        | _ => None
        end
      else None
  end.

(** The unsigned decimal forms [d+], [d+.d*], [.d+], each with an optional
    exponent: the mantissa and the power of ten, [None] when malformed. *)
Definition unsignedDecimal (s : string) : option (Z * Z) :=
  let '(m1, seen1, r1) := spanDigits 0 false s in
  let '(m, f, seen2, r2) :=
    match r1 with
    | String "." r =>
        let '(m2, f, r') := spanFraction m1 0 r in (m2, f, (0 <? f)%Z, r')
    | _ => (m1, 0%Z, false, r1)
    end in
  if (seen1 || seen2)%bool then
    match exponentPart r2 with
    | Some e => Some (m, (e - f)%Z)
    | None => None
    end
  else None.

Definition radixLiteral (radix : Z) (s : string) : bool :=
  match spanRadix radix 0 false s with
  | (v, true, EmptyString) => (0 <? v)%Z
  | _ => false
  end.

(** Truthiness of [Number(s)]: [s] is trimmed and read as a numeric
    literal; the result is falsy for [NaN] and for zero (the empty string
    converts to zero). *)
Definition NumberTruthy (s : string) : bool :=
  let t := trim s in
  match t with
  | EmptyString => false
  | String "0" (String "x" r) | String "0" (String "X" r) => radixLiteral 16 r
  | String "0" (String "o" r) | String "0" (String "O" r) => radixLiteral 8 r
  | String "0" (String "b" r) | String "0" (String "B" r) => radixLiteral 2 r
  | _ =>
      let '(_, u) := stripSign t in
      if String.eqb u "Infinity" then true
      else match unsignedDecimal u with
           | Some (m, k) => roundsToNonZero m k
           | None => false
           end
  end.

End JS.

(** ** Helper *)

Module Helper.

Record Population := { joined : list string; left : list string }.

(** [Helper.comparePopulation]: the two [Set]s are built from the lists and
    only queried; [filter] builds new arrays. *)
Definition comparePopulation (oldList newList : list string) : Population :=
  let oldSet : gset string := list_to_set oldList in
  let newSet : gset string := list_to_set newList in
  {| joined := filter (fun ign => ign ∉ oldSet) newList;
     left := filter (fun ign => ign ∉ newSet) oldList |}.

(** The same call with the arrays held in a heap, to tell which arrays it
    writes: the arguments are two references (possibly the same one),
    [new Set] and [has] only read, and each [filter] allocates the array it
    returns. *)
Definition alloc (h : gmap nat (list string)) (l : list string)
  : gmap nat (list string) * nat :=
  let a := fresh (dom h) in (<[a := l]> h, a).

Definition comparePopulationOn (h : gmap nat (list string)) (oldList newList : nat)
  : option (gmap nat (list string) * (nat * nat)) :=
  old ← h !! oldList;
  new ← h !! newList;
  let oldSet : gset string := list_to_set old in
  let newSet : gset string := list_to_set new in
  let '(h1, joined) := alloc h (filter (fun ign => ign ∉ oldSet) new) in
  let '(h2, left) := alloc h1 (filter (fun ign => ign ∉ newSet) old) in
  Some (h2, (joined, left)).

End Helper.


(** ** Constants and interfaces *)

Module Constants.

(** Modelled from the spec: the [PlayerKillType] enumeration of the
    constants module, which is not part of the sources.  The spec lists the
    categories player, NPC and animal/other; the classifier itself only
    names [Npc] and [Player]. *)
Inductive PlayerKillType :=
| Player
| Npc
| Other.

(** An entry of the static [playerKillData] table. *)
Record KillEntry := {
  entry_id : string;
  entry_name : string;
  entry_type : PlayerKillType;
}.

(** The compiled patterns of [RegularExpressions].  The constants module is
    not part of the sources, so the classifier takes the patterns as a
    table of matchers: [s.match(re)] is [None] for [null] and otherwise the
    match array, the whole match at index 0 followed by the groups (the
    groups the classifier reads are strings, as its calls of [trim] and
    [split] on them require). *)
Record RegularExpressions := {
  Log : string -> option (list string);
  CommandExecuting : string -> option (list string);
  VendingMachineName : string -> option (list string);
  QuickChat : string -> option (list string);
  CustomZoneCreated : string -> option (list string);
  CustomZoneRemoved : string -> option (list string);
  PlayerRoleAdd : string -> option (list string);
  PlayerRoleRemove : string -> option (list string);
  ItemSpawn : string -> option (list string);
  NoteEdit : string -> option (list string);
  TeamCreate : string -> option (list string);
  TeamJoin : string -> option (list string);
  TeamInvite : string -> option (list string);
  TeamLeave : string -> option (list string);
  TeamInviteCancel : string -> option (list string);
  TeamPromoted : string -> option (list string);
  KitSpawn : string -> option (list string);
  KitGive : string -> option (list string);
  SpecialEventSet : string -> option (list string);
}.

(** [m[i]] on a match array. *)
Definition group (m : list string) (i : nat) : string := nth i m EmptyString.

(** The resolved participant of a kill. *)
Record KillData := {
  id : string;
  name : string;
  type : PlayerKillType;
}.

(** A radio broadcast read from the scan output.  [coordinates] keeps the
    three captured texts that the source hands to [parseFloat]: each stands
    for the number [parseFloat] reads from it, which no statement looks
    into. *)
Record Broadcast := {
  frequency : N;
  coordinates : list string;
  range : N;
}.

(** The payloads emitted on [manager.events], one constructor per
    [RCEEvent] member used by the modelled code. *)
Inductive RCEEvent :=
| Message (message : string)
| ExecutingCommand (command : string)
| VendingMachineNameEvent (ign oldName newName : string)
| QuickChatEvent (type : option string) (ign message : string)
| PlayerSuicide (ign : string)
| PlayerRespawned (ign platform : string)
| CustomZoneCreatedEvent (zone : string)
| CustomZoneRemovedEvent (zone : string)
| PlayerRoleAddEvent (admin : option string) (ign role : string)
| PlayerRoleRemoveEvent (admin : option string) (ign role : string)
| ItemSpawnEvent (ign item : string) (quantity : JS.number)
| NoteEditEvent (ign oldContent newContent : string)
| TeamCreateEvent (id : JS.number) (owner : string)
| TeamJoinEvent (id : JS.number) (owner ign : string)
| TeamInviteEvent (id : JS.number) (owner ign : string)
| TeamLeaveEvent (id : JS.number) (owner ign : string)
| TeamInviteCancelEvent (id : JS.number) (owner ign : string)
| TeamPromotedEvent (id : JS.number) (oldOwner newOwner : string)
| KitSpawnEvent (ign kit : string)
| KitGiveEvent (ign admin kit : string)
| SpecialEventSetEvent (event : string)
| EventStart (event : string) (special : bool)
| PlayerKill (victim killer : KillData)
| FrequencyLost (frequency : N)
| FrequencyGained (frequency : N) (coordinates : list string) (range : N).

(** One call of [manager.events.emit]: every payload carries the server
    object, referred to here by its identifier. *)
Record Emitted := {
  server : string;
  payload : RCEEvent;
}.

End Constants.

Import Constants.

(** ** Servers *)

(** [RustServer], restricted to the fields the modelled code reads or
    writes (the interval handles, intents and the caller's state bag are
    left out). *)
Record RustServer := {
  identifier : string;
  serverId : list N;
  region : string;
  status : string;
  flags : list string;
  players : list string;
  frequencies : list N;
  silent : bool;
}.

Definition set_flags (s : RustServer) (f : list string) : RustServer :=
  {| identifier := identifier s; serverId := serverId s; region := region s;
     status := status s; flags := f; players := players s;
     frequencies := frequencies s; silent := silent s |}.

Definition set_frequencies (s : RustServer) (f : list N) : RustServer :=
  {| identifier := identifier s; serverId := serverId s; region := region s;
     status := status s; flags := flags s; players := players s;
     frequencies := f; silent := silent s |}.

(** [CommandResponse]: [ok] with an optional [response], or not [ok] with
    an [error]. *)
Record CommandResponse := {
  ok : bool;
  response : option string;
  error : option string;
}.

(** ** CommandHandler *)

Module CommandHandler.

(** [CommandRequest].  [resolve] is the promise the record settles,
    [timeout] the handle of its pending timer. *)
Record CommandRequest := {
  cr_identifier : string;
  cr_command : string;
  cr_timestamp : option string;
  cr_timeout : option nat;
  cr_resolve : nat;
}.

Definition set_timestamp (r : CommandRequest) (t : option string) : CommandRequest :=
  {| cr_identifier := cr_identifier r; cr_command := cr_command r;
     cr_timestamp := t; cr_timeout := cr_timeout r; cr_resolve := cr_resolve r |}.

Definition set_timeout (r : CommandRequest) (h : option nat) : CommandRequest :=
  {| cr_identifier := cr_identifier r; cr_command := cr_command r;
     cr_timestamp := cr_timestamp r; cr_timeout := h; cr_resolve := cr_resolve r |}.

(** The registry holds its records in insertion order. *)
Definition Registry := list CommandRequest.

Definition hasKey (ident cmd : string) (r : CommandRequest) : bool :=
  String.eqb (cr_identifier r) ident && String.eqb (cr_command r) cmd.

(** Modelled from the spec: [CommandHandler.get], which is not part of the
    sources.  Exact lookup by session and command text. *)
Definition get (reg : Registry) (ident cmd : string) : option CommandRequest :=
  List.find (hasKey ident cmd) reg.

(** Modelled from the spec: [CommandHandler.add].  Registers a new in-flight
    command; does nothing if one with the same session and text exists. *)
Definition add (reg : Registry) (r : CommandRequest) : Registry :=
  match get reg (cr_identifier r) (cr_command r) with
  | Some _ => reg
  | None => (reg ++ [r])%list
  end.

(** Modelled from the spec: [CommandHandler.getQueued].  The in-flight
    command of the session whose stored timestamp equals the observed
    one, or none. *)
Definition getQueued (reg : Registry) (ident timestamp : string)
  : option CommandRequest :=
  List.find
    (fun r => String.eqb (cr_identifier r) ident &&
              match cr_timestamp r with
              | Some t => String.eqb t timestamp
              | None => false
              end)
    reg.

(** Modelled from the spec: [CommandHandler.remove].  Idempotent removal of
    the record's entry; the callers pass the result of [get], which may be
    [undefined], and nothing is removed then. *)
Definition remove (reg : Registry) (o : option CommandRequest) : Registry :=
  match o with
  | Some r =>
      List.filter (fun r' => negb (hasKey (cr_identifier r) (cr_command r) r')) reg
  | None => reg
  end.

(** A write to a field of a record that sits in the registry: the record
    is shared, so the registry sees the new field. *)
Definition store (reg : Registry) (r : CommandRequest) : Registry :=
  List.map
    (fun r' => if hasKey (cr_identifier r) (cr_command r) r' then r else r')
    reg.

End CommandHandler.

Import CommandHandler.

(** ** The manager's state *)

(** What a pending [setTimeout] will run: the only timers of the modelled
    code are the command timeouts, closed over the session, the command
    text and the promise's [resolve]. *)
Inductive TimerCallback :=
| CommandTimeout (ident cmd : string) (resolve : nat).

Record Timer := {
  tid : nat;
  due : N;
  callback : TimerCallback;
}.

(** The state shared by the classifier, the dispatcher and the pollers:
    the access token, the [_servers] map, the [CommandHandler] registry, the
    pending timers with the clock (in milliseconds), the promises handed out
    by [command] (a promise is pending until it appears in [settled]) and
    the events emitted so far, oldest first. *)
Record World := {
  accessToken : option string;
  servers : gmap string RustServer;
  commands : Registry;
  timers : list Timer;
  nextTimer : nat;
  settled : gmap nat CommandResponse;
  nextPromise : nat;
  now : N;
  emitted : list Emitted;
}.

Definition set_servers (w : World) (m : gmap string RustServer) : World :=
  {| accessToken := accessToken w; servers := m; commands := commands w;
     timers := timers w; nextTimer := nextTimer w; settled := settled w;
     nextPromise := nextPromise w; now := now w; emitted := emitted w |}.

Definition set_commands (w : World) (c : Registry) : World :=
  {| accessToken := accessToken w; servers := servers w; commands := c;
     timers := timers w; nextTimer := nextTimer w; settled := settled w;
     nextPromise := nextPromise w; now := now w; emitted := emitted w |}.

Definition set_timers (w : World) (t : list Timer) : World :=
  {| accessToken := accessToken w; servers := servers w; commands := commands w;
     timers := t; nextTimer := nextTimer w; settled := settled w;
     nextPromise := nextPromise w; now := now w; emitted := emitted w |}.

Definition set_nextTimer (w : World) (n : nat) : World :=
  {| accessToken := accessToken w; servers := servers w; commands := commands w;
     timers := timers w; nextTimer := n; settled := settled w;
     nextPromise := nextPromise w; now := now w; emitted := emitted w |}.

Definition set_settled (w : World) (s : gmap nat CommandResponse) : World :=
  {| accessToken := accessToken w; servers := servers w; commands := commands w;
     timers := timers w; nextTimer := nextTimer w; settled := s;
     nextPromise := nextPromise w; now := now w; emitted := emitted w |}.

Definition set_nextPromise (w : World) (n : nat) : World :=
  {| accessToken := accessToken w; servers := servers w; commands := commands w;
     timers := timers w; nextTimer := nextTimer w; settled := settled w;
     nextPromise := n; now := now w; emitted := emitted w |}.

Definition set_now (w : World) (t : N) : World :=
  {| accessToken := accessToken w; servers := servers w; commands := commands w;
     timers := timers w; nextTimer := nextTimer w; settled := settled w;
     nextPromise := nextPromise w; now := t; emitted := emitted w |}.

Definition set_emitted (w : World) (e : list Emitted) : World :=
  {| accessToken := accessToken w; servers := servers w; commands := commands w;
     timers := timers w; nextTimer := nextTimer w; settled := settled w;
     nextPromise := nextPromise w; now := now w; emitted := e |}.

(** [manager.events.emit(kind, { server, ... })] *)
Definition emit (w : World) (s : RustServer) (e : RCEEvent) : World :=
  set_emitted w (emitted w ++ [{| server := identifier s; payload := e |}])%list.

(** Calling a promise's [resolve]: only the first call of a promise settles
    it, later calls are ignored. *)
Definition resolve (w : World) (p : nat) (v : CommandResponse) : World :=
  match settled w !! p with
  | Some _ => w
  | None => set_settled w (<[p := v]> (settled w))
  end.

(** [setTimeout(cb, delay)]: returns the state with the timer armed and the
    timer's handle. *)
Definition setTimeout (w : World) (cb : TimerCallback) (delay : N) : World * nat :=
  let h := nextTimer w in
  (set_nextTimer
     (set_timers w (timers w ++ [{| tid := h; due := (now w + delay)%N; callback := cb |}])%list)
     (S h),
   h).

(** [clearTimeout(h)]; an [undefined] handle clears nothing. *)
Definition clearTimeout (w : World) (h : option nat) : World :=
  match h with
  | Some n => set_timers w (List.filter (fun t => negb (Nat.eqb (tid t) n)) (timers w))
  | None => w
  end.

(** [ServerManager.update]: stores the server under its identifier. *)
Definition update (w : World) (s : RustServer) : World :=
  set_servers w (<[identifier s := s]> (servers w)).

(** What a command's promise currently holds, [None] while pending. *)
Definition outcome (w : World) (p : nat) : option CommandResponse := settled w !! p.

(** ** ConsoleMessagesHandler *)

Module ConsoleMessagesHandler.

(** An entry of [EVENTS]: the key searched for in the line and the
    options of the event it starts. *)
Record EventOptions := {
  ev_key : string;
  ev_name : string;
  ev_special : bool;
}.

(** The [EVENTS] table, in the order [Object.entries] enumerates it. *)
Definition EVENTS : list EventOptions :=
  [ {| ev_key := "event_airdrop"; ev_name := "Airdrop"; ev_special := false |};
    {| ev_key := "event_cargoship"; ev_name := "Cargo Ship"; ev_special := false |};
    {| ev_key := "event_cargoheli"; ev_name := "Chinook"; ev_special := false |};
    {| ev_key := "event_helicopter"; ev_name := "Patrol Helicopter"; ev_special := false |};
    {| ev_key := "event_halloween"; ev_name := "Halloween"; ev_special := true |};
    {| ev_key := "event_xmas"; ev_name := "Christmas"; ev_special := true |};
    {| ev_key := "event_easter"; ev_name := "Easter"; ev_special := true |} ].

(** The line feed on which a batch is split. *)
Definition LF : string := String (ascii_of_nat 10) EmptyString.

(** The two-character text backslash-n on which note contents are cut. *)
Definition BackslashN : string := String (ascii_of_nat 92) "n".

(** How the per-line callback of [forEach] ends its command-start part:
    it returns early, or it goes on with the rest of the callback. *)
Inductive Flow :=
| Returned (w : World) (currentCommand : option string)
| Continues (w : World).

Section Classifier.

Variable playerKillData : list KillEntry.
Variable RE : RegularExpressions.

(** [ConsoleMessagesHandler.getKill] *)
Definition getKill (ign : string) : KillData :=
  match List.find (fun e => String.eqb (entry_id e) (JS.toLowerCase ign)) playerKillData with
  | Some data => {| id := ign; name := entry_name data; type := entry_type data |}
  | None =>
      if JS.NumberTruthy ign
      then {| id := ign; name := "Scientist"; type := Npc |}
      else {| id := ign; name := ign; type := Player |}
  end.

(** The body shared by both response branches: resolve the command with the
    line, clear its timeout, remove it from the registry. *)
Definition respond (w : World) (command : CommandRequest) (log : string) : World :=
  let w1 := resolve w (cr_resolve command)
              {| ok := true; response := Some log; error := None |} in
  let w2 := clearTimeout w1 (cr_timeout command) in
  set_commands w2 (CommandHandler.remove (commands w2) (Some command)).

(** [// EVENT: COMMAND_EXECUTING] *)
Definition commandExecuting (w : World) (s : RustServer)
    (date log : string) : Flow :=
  match CommandExecuting RE log with
  | Some m =>
      let cmd := group m 1 in
      let w1 := emit w s (ExecutingCommand cmd) in
      match CommandHandler.get (commands w1) (identifier s) cmd with
      | Some command =>
          if negb (JS.truthy_opt (cr_timestamp command)) then
            let command' := set_timestamp command (Some date) in
            let reg := CommandHandler.store (commands w1) command' in
            Returned (set_commands w1 (CommandHandler.add reg command')) (Some cmd)
          else Continues w1
      | None => Continues w1
      end
  | None => Continues w
  end.

(** [// Check for Command Response] *)
Definition commandResponse (w : World) (s : RustServer)
    (currentCommand : option string) (date log : string)
  : World * option string :=
  let viaCurrent :=
    match currentCommand with
    | Some cur =>
        if JS.truthy cur then
          match CommandHandler.get (commands w) (identifier s) cur with
          | Some command => (respond w command log, None)
          | None => (w, currentCommand)
          end
        else (w, currentCommand)
    | None => (w, currentCommand)
    end in
  match CommandHandler.getQueued (commands w) (identifier s) date with
  | Some command =>
      if negb (JS.startsWith log "[ SAVE ]")
      then (respond w command log, currentCommand)
      else viaCurrent
  | None => viaCurrent
  end.

(** [if (m) emit(...)] for a pattern's match array. *)
Definition onMatch (m : option (list string)) (k : list string -> World -> World)
    (w : World) : World :=
  match m with
  | Some g => k g w
  | None => w
  end.

(** The [types] object of the quick-chat branch. *)
Definition quickChatType (tag : string) : option string :=
  if String.eqb tag "[CHAT TEAM]" then Some "team"
  else if String.eqb tag "[CHAT SERVER]" then Some "server"
  else if String.eqb tag "[CHAT LOCAL]" then Some "local"
  else None.

Definition roleAdmin (a : string) : option string :=
  if String.eqb a "SERVER" then None else Some a.

(** [// EVENT: EVENT_START]: every entry of [EVENTS] is tried. *)
Definition eventStart (s : RustServer) (log : string) (w : World) : World :=
  if JS.startsWith log "[event]" then
    fold_left
      (fun w' e =>
         if JS.includes log (ev_key e)
         then emit w' s (EventStart (ev_name e) (ev_special e))
         else w')
      EVENTS w
  else w.

(** [// EVENT: PLAYER_KILL] *)
Definition playerKill (s : RustServer) (log : string) (w : World) : World :=
  if JS.includes log " was killed by " then
    let parts := List.map JS.trim (JS.split log " was killed by ") in
    let victim := nth 0 parts EmptyString in
    let killer := nth 1 parts EmptyString in
    let victimData := getKill victim in
    let killerData := getKill killer in
    emit w s (PlayerKill victimData killerData)
  else w.

(** The pattern-driven events of one line, from
    [// EVENT: VENDING_MACHINE_NAME] to [// EVENT: SPECIAL_EVENT_SET], in
    source order. *)
Definition patternEvents (s : RustServer) (log : string) (w : World) : World :=
  let w := onMatch (VendingMachineName RE log)
             (fun m w => emit w s (VendingMachineNameEvent (group m 1) (group m 2) (group m 3))) w in
  let w := onMatch (QuickChat RE log)
             (fun m w => emit w s (QuickChatEvent (quickChatType (group m 1)) (group m 3) (group m 4))) w in
  let w := if JS.includes log "was suicide by Suicide"
           then emit w s (PlayerSuicide (hd EmptyString (JS.split log " was suicide by Suicide")))
           else w in
  let w := if JS.includes log "has entered the game"
           then emit w s (PlayerRespawned (hd EmptyString (JS.split log " ["))
                            (if JS.includes log "[xboxone]" then "XBL" else "PS"))
           else w in
  let w := onMatch (CustomZoneCreated RE log)
             (fun m w => emit w s (CustomZoneCreatedEvent (group m 1))) w in
  let w := onMatch (CustomZoneRemoved RE log)
             (fun m w => emit w s (CustomZoneRemovedEvent (group m 1))) w in
  let w := if JS.includes log "Added"
           then onMatch (PlayerRoleAdd RE log)
                  (fun m w => emit w s (PlayerRoleAddEvent (roleAdmin (group m 1)) (group m 2) (group m 3))) w
           else w in
  let w := if JS.includes log "Removed"
           then onMatch (PlayerRoleRemove RE log)
                  (fun m w => emit w s (PlayerRoleRemoveEvent (roleAdmin (group m 1)) (group m 2) (group m 3))) w
           else w in
  let w := onMatch (ItemSpawn RE log)
             (fun m w => emit w s (ItemSpawnEvent (group m 1) (group m 3) (JS.parseInt (group m 2)))) w in
  let w := onMatch (NoteEdit RE log)
             (fun m w =>
                let oldContent := hd EmptyString (JS.split (JS.trim (group m 2)) BackslashN) in
                let newContent := hd EmptyString (JS.split (JS.trim (group m 3)) BackslashN) in
                if (0 <? String.length newContent)%nat && negb (String.eqb oldContent newContent)
                then emit w s (NoteEditEvent (group m 1) oldContent newContent)
                else w) w in
  let w := onMatch (TeamCreate RE log)
             (fun m w => emit w s (TeamCreateEvent (JS.parseInt (group m 2)) (group m 1))) w in
  let w := onMatch (TeamJoin RE log)
             (fun m w => emit w s (TeamJoinEvent (JS.parseInt (group m 3)) (group m 2) (group m 1))) w in
  let w := onMatch (TeamInvite RE log)
             (fun m w => emit w s (TeamInviteEvent (JS.parseInt (group m 3)) (group m 1) (group m 2))) w in
  let w := onMatch (TeamLeave RE log)
             (fun m w => emit w s (TeamLeaveEvent (JS.parseInt (group m 3)) (group m 2) (group m 1))) w in
  let w := onMatch (TeamInviteCancel RE log)
             (fun m w => emit w s (TeamInviteCancelEvent (JS.parseInt (group m 3)) (group m 2) (group m 1))) w in
  let w := onMatch (TeamPromoted RE log)
             (fun m w => emit w s (TeamPromotedEvent (JS.parseInt (group m 3)) (group m 1) (group m 2))) w in
  let w := onMatch (KitSpawn RE log)
             (fun m w => emit w s (KitSpawnEvent (group m 1) (group m 2))) w in
  let w := onMatch (KitGive RE log)
             (fun m w => emit w s (KitGiveEvent (group m 2) (group m 1) (group m 3))) w in
  let w := onMatch (SpecialEventSet RE log)
             (fun m w => emit w s (SpecialEventSetEvent (group m 1))) w in
  w.

(** The domain events of one line: the pattern-driven ones, then
    [// EVENT: EVENT_START], then [// EVENT: PLAYER_KILL]. *)
Definition domainEvents (s : RustServer) (log : string) (w : World) : World :=
  playerKill s log (eventStart s log (patternEvents s log w)).

(** The callback of [messageArray.forEach]: the state is the world and the
    [currentCommand] variable of the enclosing call. *)
Definition handleLine (s : RustServer) (st : World * option string)
    (data : string) : World * option string :=
  let '(w, currentCommand) := st in
  match Log RE data with
  | None => st
  | Some logMatch =>
      let date := group logMatch 1 in
      let content := group logMatch 2 in
      let log := JS.trim content in
      if negb (JS.truthy log) then st
      else
        let w1 := emit w s (Message log) in
        match commandExecuting w1 s date log with
        | Returned w2 cur => (w2, cur)
        | Continues w2 =>
            let '(w3, cur) := commandResponse w2 s currentCommand date log in
            (domainEvents s log w3, cur)
        end
  end.

(** The lines of a batch: [message?.split("\n").filter(e => e !== "") || []]. *)
Definition messageArray (message : option string) : list string :=
  match message with
  | Some m => List.filter JS.truthy (JS.split m LF)
  | None => []
  end.

(** [ConsoleMessagesHandler.handle].  The server object handed in is the one
    kept in the manager, so the result returns it next to the state. *)
Definition handle (w : World) (message : option string) (s : RustServer)
  : World * RustServer :=
  if negb (bool_decide ("INIT_LOGS" ∈ flags s)) then
    let s' := set_flags s (flags s ++ ["INIT_LOGS"])%list in
    (update w s', s')
  else
    (fst (fold_left (handleLine s) (messageArray message) (w, None)), s).

End Classifier.

End ConsoleMessagesHandler.

(** ** ServerManager *)

Module ServerManager.

(** What [await fetchWithRetry(...)] delivers: an exception or a response
    with its status line. *)
Inductive FetchOutcome :=
| FetchThrew (message : string)
| FetchResponse (status : N) (statusText : string).

(** What [await response.json()] delivers: an exception, or a body of which
    the code reads [data?.data?.sendConsoleMessage?.ok]. *)
Inductive JsonOutcome :=
| JsonThrew (message : string)
| JsonData (sendConsoleMessageOk : bool).

(** [response.ok]: the status is in the range 200-299. *)
Definition responseOk (status : N) : bool := ((200 <=? status) && (status <=? 299))%N.

Definition decimal (n : N) : string := NilZero.string_of_uint (N.to_uint n).

Definition failure (reason : string) : CommandResponse :=
  {| ok := false; response := None; error := Some reason |}.

(** [{ ok: true, response: undefined }] *)
Definition emptySuccess : CommandResponse :=
  {| ok := true; response := None; error := None |}.

(** How a call of [command] stands when it first yields: it has returned a
    result, or its promise waits for the request. *)
Inductive Dispatch :=
| Done (r : CommandResponse)
| Awaiting (p : nat).

(** The checks at the head of [command]. *)
Definition refused (w : World) (ident : string) : option CommandResponse :=
  if negb (JS.truthy_opt (accessToken w)) then Some (failure "No Access Token")
  else match servers w !! ident with
       | None => Some (failure "Invalid Server")
       | Some s =>
           if negb (String.eqb (status s) "RUNNING")
           then Some (failure "Server Not Running")
           else None
       end.

(** [command(identifier, command, true)] up to its first [await]: the
    checks, then the promise is created and the record is registered before
    the request is sent. *)
Definition command_start (w : World) (ident cmd : string) : World * Dispatch :=
  match refused w ident with
  | Some r => (w, Done r)
  | None =>
      let p := nextPromise w in
      let w1 := set_nextPromise w (S p) in
      let record := {| cr_identifier := ident; cr_command := cmd;
                       cr_timestamp := None; cr_timeout := None;
                       cr_resolve := p |} in
      (set_commands w1 (CommandHandler.add (commands w1) record), Awaiting p)
  end.

(** [CommandHandler.remove(CommandHandler.get(identifier, command))] *)
Definition removeInFlight (w : World) (ident cmd : string) : World :=
  set_commands w
    (CommandHandler.remove (commands w) (CommandHandler.get (commands w) ident cmd)).

(** [command] from the settled request to [await response.json()].  The
    boolean tells whether the call goes on to read the body; after an
    exception the [catch] block has run and the call is over. *)
Definition command_onFetch (w : World) (ident cmd : string) (p : nat)
    (o : FetchOutcome) : World * bool :=
  match o with
  | FetchThrew message => (resolve (removeInFlight w ident cmd) p (failure message), false)
  | FetchResponse status statusText =>
      if negb (responseOk status) then
        (resolve (removeInFlight w ident cmd) p
           (failure ("HTTP " ++ decimal status ++ " " ++ statusText)),
         true)
      else (w, true)
  end.

(** [command] from the parsed body to its end.  The timer handle is written
    into the record found in the registry. *)
Definition command_onJson (w : World) (ident cmd : string) (p : nat)
    (j : JsonOutcome) : World :=
  match j with
  | JsonThrew message => resolve (removeInFlight w ident cmd) p (failure message)
  | JsonData sent =>
      let w1 := if negb sent
                then resolve (removeInFlight w ident cmd) p (failure "AioRpcError")
                else w in
      match CommandHandler.get (commands w1) ident cmd with
      | Some c =>
          let '(w2, h) := setTimeout w1 (CommandTimeout ident cmd p) 3000 in
          set_commands w2 (CommandHandler.store (commands w2) (set_timeout c (Some h)))
      | None => w1
      end
  end.

(** The request of one call settling with nothing else running between its
    two continuations. *)
Definition command_settle (w : World) (ident cmd : string) (p : nat)
    (o : FetchOutcome) (j : JsonOutcome) : World :=
  let '(w1, goesOn) := command_onFetch w ident cmd p o in
  if goesOn then command_onJson w1 ident cmd p j else w1.

(** [command(identifier, command)] without a response, once the checks have
    passed: the result only depends on the request. *)
Definition command_bare (o : FetchOutcome) : CommandResponse :=
  match o with
  | FetchThrew message => failure message
  | FetchResponse status statusText =>
      if negb (responseOk status)
      then failure ("HTTP " ++ decimal status ++ " " ++ statusText)
      else emptySuccess
  end.

(** The body of a timer's callback. *)
Definition runCallback (w : World) (cb : TimerCallback) : World :=
  match cb with
  | CommandTimeout ident cmd p => resolve (removeInFlight w ident cmd) p emptySuccess
  end.

Definition runTimer (w : World) (t : Timer) : World := runCallback w (callback t).

(** Timers fire by due time, and in the order they were armed when due at
    the same time. *)
Fixpoint insertByDue (t : Timer) (l : list Timer) : list Timer :=
  match l with
  | [] => [t]
  | x :: l' => if (due t <=? due x)%N then t :: l else x :: insertByDue t l'
  end.

Definition sortByDue (l : list Timer) : list Timer := foldr insertByDue [] l.

Definition isDue (t : N) (x : Timer) : bool := (due x <=? t)%N.

(** Letting [d] milliseconds pass with no other input: the timers that fall
    due fire in order and leave the pending set. *)
Definition advance (w : World) (d : N) : World :=
  let t := (now w + d)%N in
  let fired := sortByDue (List.filter (isDue t) (timers w)) in
  let w1 := set_timers w (List.filter (fun x => negb (isDue t x)) (timers w)) in
  set_now (fold_left runTimer fired w1) t.

(** *** The radio poller *)

Definition isCoordinateChar (c : ascii) : bool :=
  (JS.isDigit c || Ascii.eqb c "." || Ascii.eqb c "-")%bool.

(** The longest prefix whose characters satisfy [p], and the rest. *)
Fixpoint span (p : ascii -> bool) (s : string) : string * string :=
  match s with
  | EmptyString => (EmptyString, EmptyString)
  | String c s' =>
      if p c then let '(a, r) := span p s' in (String c a, r)
      else (EmptyString, s)
  end.

Fixpoint dropPrefix (lit s : string) : option string :=
  match lit with
  | EmptyString => Some s
  | String c lit' =>
      match s with
      | String c' s' => if Ascii.eqb c c' then dropPrefix lit' s' else None
      | EmptyString => None
      end
  end.

(** A non-empty run of characters of the class [p]. *)
Definition some (p : ascii -> bool) (s : string) : option (string * string) :=
  match span p s with
  | (EmptyString, _) => None
  | (a, r) => Some (a, r)
  end.

(** One match of
    [/\[(\d+) MHz\] Position: \(([\d.-]+), ([\d.-]+), ([\d.-]+)\), Range: (\d+)/]
    at the start of [s]: the five groups and the rest of the text.  Each
    class is followed by a character outside it, so the greedy runs are the
    only way to match. *)
Definition matchBroadcast (s : string)
  : option (string * string * string * string * string * string) :=
  r0 ← dropPrefix "[" s;
  '(g1, r1) ← some JS.isDigit r0;
  r2 ← dropPrefix " MHz] Position: (" r1;
  '(g2, r3) ← some isCoordinateChar r2;
  r4 ← dropPrefix ", " r3;
  '(g3, r5) ← some isCoordinateChar r4;
  r6 ← dropPrefix ", " r5;
  '(g4, r7) ← some isCoordinateChar r6;
  r8 ← dropPrefix "), Range: " r7;
  '(g5, r9) ← some JS.isDigit r8;
  Some (g1, g2, g3, g4, g5, r9).

(** [parseInt] on a run of decimal digits, read exactly.  The source gets
    a double: the two agree while the value is at most 2^53
    ([safeInteger] below); the statements about scanned numbers ask for
    that. *)
Fixpoint digitsToN (acc : N) (s : string) : N :=
  match s with
  | EmptyString => acc
  | String c s' => digitsToN (10 * acc + (JS.code c - 48))%N s'
  end.

(** The [while ((match = regex.exec(...)) !== null)] loop: [skip] counts the
    characters of the last match that are still to be passed over. *)
Fixpoint scanBroadcasts (skip : nat) (s : string) : list Broadcast :=
  match s with
  | EmptyString => []
  | String _ s' =>
      match skip with
      | S k => scanBroadcasts k s'
      | O =>
          match matchBroadcast s with
          | Some (g1, g2, g3, g4, g5, rest) =>
              {| frequency := digitsToN 0 g1;
                 coordinates := [g2; g3; g4];
                 range := digitsToN 0 g5 |}
              :: scanBroadcasts (String.length s - String.length rest - 1) s'
          | None => scanBroadcasts 0 s'
          end
      end
  end.

Definition parseBroadcasts (response : string) : list Broadcast :=
  scanBroadcasts 0 response.

(** The callback of [server.frequencies.forEach]: the loop walks the array
    it started on while [server.frequencies] is replaced by filtered
    copies.  [parseInt(b.frequency)] is applied to a number that is already
    an integer and returns it as long as the number prints as plain digits,
    which a scanned frequency of at most 2^53 does ([safeScan] below). *)
Definition lostStep (broadcasts : list Broadcast) (st : World * RustServer)
    (freq : N) : World * RustServer :=
  let '(w, s) := st in
  if existsb (fun b => N.eqb (frequency b) freq) broadcasts then st
  else (emit w s (FrequencyLost freq),
        set_frequencies s (filter (fun f => f <> freq) (frequencies s))).

(** The callback of [broadcasts.forEach]. *)
Definition gainedStep (st : World * RustServer) (b : Broadcast)
  : World * RustServer :=
  let '(w, s) := st in
  if bool_decide (frequency b ∈ frequencies s) then st
  else
    let s1 := set_frequencies s (frequencies s ++ [frequency b])%list in
    let w1 :=
      if N.eqb (frequency b) 4765 then emit w s1 (EventStart "Small Oil Rig" false)
      else if N.eqb (frequency b) 4768 then emit w s1 (EventStart "Oil Rig" false)
      else w in
    (emit w1 s1 (FrequencyGained (frequency b) (coordinates b) (range b)), s1).

(** [updateBroadcasters] up to [await this.command(...)]. *)
Definition updateBroadcasters_start (w : World) (ident : string)
  : World * option (RustServer * Dispatch) :=
  match servers w !! ident with
  | None => (w, None)
  | Some s =>
      let '(w1, d) := command_start w (identifier s) "rf.listboardcaster" in
      (w1, Some (s, d))
  end.

(** [updateBroadcasters] from the command's result on; [s] is the server
    object fetched before the wait. *)
Definition updateBroadcasters_resume (w : World) (s : RustServer)
    (broadcasters : CommandResponse) : World * RustServer :=
  if JS.truthy_opt (response broadcasters) then
    let broadcasts := parseBroadcasts (default EmptyString (response broadcasters)) in
    let st1 := fold_left (lostStep broadcasts) (frequencies s) (w, s) in
    let '(w2, s2) := fold_left gainedStep broadcasts st1 in
    (update w2 s2, s2)
  else (w, s).

End ServerManager.

(** ** A concrete configuration *)

(** The pattern table and the kill table ship in the constants module; to
    run the classifier on concrete batches this module fixes a small
    instance of both, together with a running server. *)
Module Sample.

(** The text before and after the first occurrence of [sep], if any. *)
Fixpoint cut (sep : string) (acc : string) (s : string) : option (string * string) :=
  if String.prefix sep s
  then Some (JS.rev acc, String.substring (String.length sep)
                           (String.length s - String.length sep) s)
  else match s with
       | EmptyString => None
       | String c s' => cut sep (String c acc) s'
       end.

(** Lines of the shape [<timestamp>:LOG:DEFAULT: <content>]. *)
Definition logPattern (data : string) : option (list string) :=
  match cut ":LOG:DEFAULT: " EmptyString data with
  | Some (date, String c content) => Some [data; date; String c content]
  | _ => None
  end.

(** Lines containing [Executing console system command '<text>']. *)
Definition executingPattern (log : string) : option (list string) :=
  match cut "Executing console system command '" EmptyString log with
  | Some (_, r) =>
      match cut "'" EmptyString r with
      | Some (String c cmd, _) => Some [log; String c cmd]
      | _ => None
      end
  | None => None
  end.

Definition never (_ : string) : option (list string) := None.

Definition patterns : RegularExpressions :=
  {| Log := logPattern; CommandExecuting := executingPattern;
     VendingMachineName := never; QuickChat := never;
     CustomZoneCreated := never; CustomZoneRemoved := never;
     PlayerRoleAdd := never; PlayerRoleRemove := never; ItemSpawn := never;
     NoteEdit := never; TeamCreate := never; TeamJoin := never;
     TeamInvite := never; TeamLeave := never; TeamInviteCancel := never;
     TeamPromoted := never; KitSpawn := never; KitGive := never;
     SpecialEventSet := never |}.

Definition killTable : list KillEntry :=
  [ {| entry_id := "thirst"; entry_name := "Thirst"; entry_type := Other |};
    {| entry_id := "bear"; entry_name := "Bear"; entry_type := Other |} ].

Definition server1 : RustServer :=
  {| identifier := "server1"; serverId := [1387554; 7654321]%N; region := "US";
     status := "RUNNING"; flags := ["INIT_LOGS"]; players := [];
     frequencies := [4765%N]; silent := false |}.

(** The same server as [add] creates it, before any batch arrived. *)
Definition fresh1 : RustServer := set_flags (set_frequencies server1 []) [].

Definition world1 : World :=
  {| accessToken := Some "token"; servers := {[ "server1" := server1 ]};
     commands := []; timers := []; nextTimer := 0;
     settled := ∅; nextPromise := 0; now := 0; emitted := [] |}.

Definition line (date content : string) : string :=
  date ++ ":LOG:DEFAULT: " ++ content.

(** [world1] after [command("server1", "Users", true)] was dispatched and
    its request was acknowledged: the record is registered, its timeout is
    armed, promise 0 is pending. *)
Definition inflight1 : World :=
  ServerManager.command_settle
    (ServerManager.command_start world1 "server1" "Users").1
    "server1" "Users" 0
    (ServerManager.FetchResponse 200 "OK") (ServerManager.JsonData true).

(** [inflight1] with a second command, ["status"], in flight as promise 1. *)
Definition inflight2 : World :=
  ServerManager.command_settle
    (ServerManager.command_start inflight1 "server1" "status").1
    "server1" "status" 1
    (ServerManager.FetchResponse 200 "OK") (ServerManager.JsonData true).

Definition executing (date cmd : string) : string :=
  line date ("Executing console system command '" ++ cmd ++ "'").

Definition batch (lines : list string) : option string :=
  Some (String.concat ConsoleMessagesHandler.LF lines).

End Sample.

(** ** Observations used in the statements *)

Import ConsoleMessagesHandler ServerManager.

(** The events emitted between two states. *)
Definition newEvents (w w' : World) : list Emitted :=
  drop (List.length (emitted w)) (emitted w').

(** The timed-event starts among some events: name and [special] flag. *)
Definition eventStartsOf (evs : list Emitted) : list (string * bool) :=
  omap (fun e => match payload e with
                 | EventStart n sp => Some (n, sp)
                 | _ => None
                 end) evs.

(** The player kills among some events: victim and killer. *)
Definition killsOf (evs : list Emitted) : list (KillData * KillData) :=
  omap (fun e => match payload e with
                 | PlayerKill v k => Some (v, k)
                 | _ => None
                 end) evs.

(** The entries of [EVENTS] whose key occurs in a line, as name and
    [special] flag. *)
Definition matchingEvents (log : string) : list (string * bool) :=
  List.map (fun e => (ev_name e, ev_special e))
    (List.filter (fun e => JS.includes log (ev_key e)) EVENTS).

(** The start event emitted for an entry. *)
Definition startEvent (s : RustServer) (e : string * bool) : Emitted :=
  {| server := identifier s; payload := EventStart e.1 e.2 |}.

(** Neither the registry, the timers nor the promises differ. *)
Definition unanswered (w w' : World) : Prop :=
  commands w' = commands w /\ timers w' = timers w /\ settled w' = settled w.

(** The table has no entry for an identifier. *)
Definition unlisted (playerKillData : list KillEntry) (ign : string) : Prop :=
  List.find (fun e => String.eqb (entry_id e) (JS.toLowerCase ign)) playerKillData = None.

(** Nothing but the event log differs between two states. *)
Definition sameBookkeeping (w w' : World) : Prop :=
  accessToken w' = accessToken w /\ servers w' = servers w /\
  commands w' = commands w /\ timers w' = timers w /\
  nextTimer w' = nextTimer w /\ settled w' = settled w /\
  nextPromise w' = nextPromise w /\ now w' = now w.

(** The events other than timed-event starts and kills. *)
Definition isPatternEvent (e : RCEEvent) : bool :=
  match e with
  | EventStart _ _ | PlayerKill _ _ => false
  | _ => true
  end.

(** Between [w] and [w'] only events were emitted, all of them accepted by
    [P]. *)
Definition appends (P : RCEEvent -> bool) (w w' : World) : Prop :=
  sameBookkeeping w w' /\
  exists evs, emitted w' = (emitted w ++ evs)%list /\
              forallb (fun e => P (payload e)) evs = true.

(** The effect of answering the in-flight command [c] with the line [log]
    between [w] and [w']: its promise holds the line (unless it was settled
    before), the timer it points to is no longer pending, and its entry has
    left the registry. *)
Definition answeredWith (w w' : World) (c : CommandRequest) (log : string) : Prop :=
  outcome w' (cr_resolve c)
    = Some (default {| ok := true; response := Some log; error := None |}
                    (outcome w (cr_resolve c))) /\
  (forall t, t ∈ timers w' -> cr_timeout c <> Some (tid t)) /\
  CommandHandler.get (commands w') (cr_identifier c) (cr_command c) = None.

(** Promise identifiers in use are below the allocation counter. *)
Definition promiseOf (cb : TimerCallback) : nat :=
  match cb with CommandTimeout _ _ p => p end.

Definition wellFormed (w : World) : Prop :=
  (forall t, t ∈ timers w -> promiseOf (callback t) < nextPromise w) /\
  (forall p v, settled w !! p = Some v -> p < nextPromise w) /\
  (forall r, r ∈ commands w -> cr_resolve r < nextPromise w).

(** The reason with which a request counts as failed: an exception of the
    request, a status outside 200-299, an exception while reading the body,
    or a body whose [ok] is not set. *)
Definition failureReason (o : FetchOutcome) (j : JsonOutcome) : option string :=
  match o with
  | FetchThrew message => Some message
  | FetchResponse status statusText =>
      if negb (responseOk status)
      then Some ("HTTP " ++ decimal status ++ " " ++ statusText)
      else match j with
           | JsonThrew message => Some message
           | JsonData false => Some "AioRpcError"
           | JsonData true => None
           end
  end.

(** ** fetchWithRetry *)

Module FetchWithRetry.

(** [[502, 503, 504].includes(response.status)] *)
Definition transient (status : N) : bool :=
  ((status =? 502) || (status =? 503) || (status =? 504))%N.

(** What one run of [fetchWithRetry] did: what it returned or threw, how
    many times it called [fetch], and for how long it slept in all. *)
Record Run := {
  result : FetchOutcome;
  calls : nat;
  slept : N;
}.

(** The loop of [fetchWithRetry] from the iteration [attempt] on.  The
    function [fetch] gives the outcome of each call of [fetch], by attempt
    number.  [remaining] is [retries - attempt], so the test
    [attempt >= retries] reads [remaining = 0]. *)
Fixpoint attemptFrom (fetch : nat -> FetchOutcome) (retryDelay : N)
    (remaining attempt : nat) (sleptSoFar : N) : Run :=
  let stop := {| result := fetch attempt; calls := S attempt; slept := sleptSoFar |} in
  match remaining with
  | O => stop
  | S remaining' =>
      let again :=
        attemptFrom fetch retryDelay remaining' (S attempt)
          (sleptSoFar + retryDelay * (N.of_nat attempt + 1))%N in
      match fetch attempt with
      | FetchResponse status _ =>
          if (responseOk status || negb (transient status))%bool then stop else again
      | FetchThrew _ => again
      end
  end.

(** [fetchWithRetry(input, init, retries, retryDelay)] *)
Definition fetchWithRetry (fetch : nat -> FetchOutcome) (retries : nat)
    (retryDelay : N) : Run :=
  attemptFrom fetch retryDelay retries 0 0.

(** The defaults: [retries = 2], [retryDelay = 1000]. *)
Definition fetchWithRetryDefault (fetch : nat -> FetchOutcome) : Run :=
  fetchWithRetry fetch 2 1000.

(** An outcome that ends the loop whatever the attempt: a response that is
    [ok] or whose status is none of 502, 503, 504. *)
Definition decisive (o : FetchOutcome) : bool :=
  match o with
  | FetchResponse status _ => (responseOk status || negb (transient status))%bool
  | FetchThrew _ => false
  end.

End FetchWithRetry.

(** ** ServerManager: the server map *)

Module Servers.

(** [opts.serverId]: a number or an array of numbers. *)
Inductive ServerIdOption :=
| Bare (sid : N)
| Listed (sids : list N).

(** [ServerOptions], restricted like [RustServer]. *)
Record ServerOptions := {
  opt_identifier : string;
  opt_serverId : ServerIdOption;
  opt_region : string;
  opt_silent : option bool;
}.

(** Truthiness of a possibly missing number: [undefined] and 0 are falsy. *)
Definition truthyNumber (o : option N) : bool :=
  match o with
  | Some n => negb (n =? 0)%N
  | None => false
  end.

(** [!Number(x) || x.toString().length !== 7] for the first server id.
    [decimal] is what [toString] prints for an id below 10^21; from there
    on [toString] turns to the exponent form. *)
Definition badLength (first : option N) : bool :=
  match first with
  | Some n => negb (negb (n =? 0)%N && (String.length (decimal n) =? 7)%nat)
  | None => true
  end.

(** The server ids after the first block of [add]: [None] when the id is
    refused for its length, otherwise [opts.serverId] as the block leaves
    it.  [fetchId] gives what [this.fetchId] resolves to for a server id. *)
Definition resolveServerId (fetchId : N -> option N) (sid : ServerIdOption)
  : option (list (option N)) :=
  let provided :=
    match sid with
    | Listed l => truthyNumber (l !! 1)
    | Bare _ => false
    end in
  if provided then
    match sid with
    | Listed l => Some (List.map Some l)
    | Bare n => Some [Some n]
    end
  else
    let first := match sid with
                 | Listed l => l !! 0
                 | Bare n => Some n
                 end in
    if badLength first then None
    else
      let resolved := fetchId (default 0%N first) in
      if truthyNumber resolved then Some [first; resolved] else Some [first].

(** [ServerManager.add] up to the registration of the server: [false] with
    the state untouched when the id, the resolved id or the status is
    refused, otherwise the fresh server stored under its identifier.
    [fetchStatus] gives what [this.fetchStatus] resolves to for a resolved
    id.  The interval handles and the calls that follow the registration
    (the socket, the ready event and the first polls) are left out. *)
Definition add (w : World) (opts : ServerOptions)
    (fetchId : N -> option N) (fetchStatus : N -> option string) : World * bool :=
  match resolveServerId fetchId (opt_serverId opts) with
  | None => (w, false)
  | Some ids =>
      let second := mjoin (ids !! 1) in
      if negb (truthyNumber second) then (w, false)
      else
        match fetchStatus (default 0%N second) with
        | None => (w, false)
        | Some st =>
            if negb (JS.truthy st) then (w, false)
            else if String.eqb st "SUSPENDED" then (w, false)
            else
              (set_servers w
                 (<[opt_identifier opts :=
                      {| identifier := opt_identifier opts;
                         serverId := omap (fun x => x) ids;
                         region := opt_region opts;
                         status := st;
                         flags := [];
                         players := [];
                         frequencies := [];
                         silent := default false (opt_silent opts) |}]>
                    (servers w)),
               true)
        end
  end.

(** [ServerManager.get] *)
Definition get (w : World) (ident : string) : option RustServer :=
  servers w !! ident.

(** [ServerManager.remove], on the server map (the intervals and the socket
    are not part of the state). *)
Definition remove (w : World) (s : RustServer) : World :=
  set_servers w (delete (identifier s) (servers w)).

(** [ServerManager.removeMany] *)
Definition removeMany (w : World) (identifiers : list string) : World :=
  fold_left
    (fun w' ident =>
       match get w' ident with
       | Some s => remove w' s
       | None => w'
       end)
    identifiers w.

(** Every server is stored under its own identifier. *)
Definition keyed (w : World) : Prop :=
  forall k s, servers w !! k = Some s -> identifier s = k.

End Servers.

(** ** ServerManager: the player and debris pollers *)

Module Pollers.

Definition set_players (s : RustServer) (p : list string) : RustServer :=
  {| identifier := identifier s; serverId := serverId s; region := region s;
     status := status s; flags := flags s; players := p;
     frequencies := frequencies s; silent := silent s |}.

(** The events of the player poller, each emitted with the server. *)
Inductive PlayerEvent :=
| PlayerJoined (ign : string)
| PlayerLeft (ign : string)
| PlayerListUpdated (players joined left : list string).

(** The double quote. *)
Definition DQ : ascii := ascii_of_nat 34.

(** The line terminators below 256, which [.] does not match. *)
Definition isLineTerminator (c : ascii) : bool :=
  (Ascii.eqb c (ascii_of_nat 10) || Ascii.eqb c (ascii_of_nat 13))%bool.

(** After an opening quote: the text up to the next quote and what follows
    it, provided no line terminator comes first (the lazy [.*?]). *)
Fixpoint closingQuote (s : string) : option (string * string) :=
  match s with
  | EmptyString => None
  | String c s' =>
      if Ascii.eqb c DQ then Some (EmptyString, s')
      else if isLineTerminator c then None
      else match closingQuote s' with
           | Some (inner, rest) => Some (String c inner, rest)
           | None => None
           end
  end.

(** The matches of the global pattern of a quoted text, left to right;
    [skip] counts the characters of the last match still to be passed. *)
Fixpoint scanQuoted (skip : nat) (s : string) : list string :=
  match s with
  | EmptyString => []
  | String c s' =>
      match skip with
      | S k => scanQuoted k s'
      | O =>
          if Ascii.eqb c DQ then
            match closingQuote s' with
            | Some (inner, _) =>
                String DQ (inner ++ String DQ EmptyString)
                :: scanQuoted (S (String.length inner)) s'
            | None => scanQuoted 0 s'
            end
          else scanQuoted 0 s'
      end
  end.

(** [text.match(pattern)] for the global pattern: [null] when nothing
    matches. *)
Definition matchQuoted (text : string) : option (list string) :=
  match scanQuoted 0 text with
  | [] => None
  | l => Some l
  end.

(** The [replace] that drops every double quote of a match. *)
Fixpoint removeQuotes (s : string) : string :=
  match s with
  | EmptyString => EmptyString
  | String c s' => if Ascii.eqb c DQ then removeQuotes s' else String c (removeQuotes s')
  end.

(** [updatePlayers] from the result of the [Users] command on.  [None]
    stands for the [TypeError] of calling [map] on [null], thrown when the
    response holds no quoted text; otherwise the state, the server and the
    events emitted, oldest first, each with the identifier of the server it
    carries. *)
Definition updatePlayers_resume (w : World) (s : RustServer)
    (result : CommandResponse)
  : option (World * RustServer * list (string * PlayerEvent)) :=
  if JS.truthy_opt (response result) then
    match matchQuoted (default EmptyString (response result)) with
    | None => None
    | Some quoted =>
        let playerlist := tail (List.map removeQuotes quoted) in
        let d := Helper.comparePopulation (players s) playerlist in
        let s' := set_players s playerlist in
        Some (update w s', s',
              (List.map (fun p => (identifier s, PlayerJoined p)) (Helper.joined d)
               ++ List.map (fun p => (identifier s, PlayerLeft p)) (Helper.left d)
               ++ [(identifier s,
                    PlayerListUpdated playerlist (Helper.joined d) (Helper.left d))])%list)
    end
  else Some (w, s, []).

(** A [setTimeout] of the debris poller: when it fires and which flag of
    which server it clears. *)
Record FlagTimer := {
  ft_due : N;
  ft_identifier : string;
  ft_flag : string;
}.

(** One of the two blocks of [fetchGibs]: when the response names the
    debris and the flag is not set, set the flag, arm its removal ten
    minutes later and emit the start of the event. *)
Definition findDebris (marker flag event : string) (text : string)
    (st : World * RustServer * list FlagTimer)
  : World * RustServer * list FlagTimer :=
  let '(w, s, armed) := st in
  if (JS.includes text marker && negb (bool_decide (flag ∈ flags s)))%bool then
    let s1 := set_flags s (flags s ++ [flag])%list in
    (emit w s1 (EventStart event false), s1,
     (armed ++ [{| ft_due := (now w + 60000 * 10)%N;
                   ft_identifier := identifier s; ft_flag := flag |}])%list)
  else st.

(** [fetchGibs] from the results of its two commands on: the state, the
    server and the timers armed. *)
Definition fetchGibs_resume (w : World) (s : RustServer)
    (bradley heli : CommandResponse) : World * RustServer * list FlagTimer :=
  if (negb (JS.truthy_opt (response bradley)) || negb (JS.truthy_opt (response heli)))%bool
  then (w, s, [])
  else
    let st1 := findDebris "servergibs_bradley" "BRADLEY" "Bradley APC Debris"
                 (default EmptyString (response bradley)) (w, s, []) in
    let '(w2, s2, armed) :=
      findDebris "servergibs_patrolhelicopter" "HELICOPTER" "Patrol Helicopter Debris"
        (default EmptyString (response heli)) st1 in
    (update w2 s2, s2, armed).

(** The callback of a debris timer: the server is looked up again and, if
    it is still there, stored without the flag. *)
Definition expireFlag (w : World) (ident flag : string) : World :=
  match Servers.get w ident with
  | Some s => update w (set_flags s (filter (fun f => f <> flag) (flags s)))
  | None => w
  end.

End Pollers.

(** ** Further observations *)

(** The content a raw line is processed with: the trimmed second group of
    the log pattern, when the line matches and the content is not blank. *)
Definition liveContent (RE : RegularExpressions) (data : string) : option string :=
  match Log RE data with
  | Some m => if JS.truthy (JS.trim (group m 2)) then Some (JS.trim (group m 2)) else None
  | None => None
  end.

(** The [Message] events among some events. *)
Definition messagesOf (evs : list Emitted) : list string :=
  omap (fun e => match payload e with
                 | Message m => Some m
                 | _ => None
                 end) evs.

Definition isNoMessage (e : RCEEvent) : bool :=
  match e with
  | Message _ => false
  | _ => true
  end.

(** A record of the registry is the record [r] as it was, or [r] with a
    timestamp written where it had none. *)
Definition stampOf (r r' : CommandRequest) : Prop :=
  cr_identifier r' = cr_identifier r /\ cr_command r' = cr_command r /\
  cr_resolve r' = cr_resolve r /\ cr_timeout r' = cr_timeout r /\
  (cr_timestamp r' = cr_timestamp r \/ JS.truthy_opt (cr_timestamp r) = false).

(** From [w] to [w'] nothing was registered, armed or allocated: the
    records are records of [w], stamped at most; the timers are timers of
    [w]; settled promises keep their value; the rest is as it was. *)
Definition onlyAnswers (w w' : World) : Prop :=
  (forall r', r' ∈ commands w' -> exists r, r ∈ commands w /\ stampOf r r') /\
  (forall t, t ∈ timers w' -> t ∈ timers w) /\
  (forall p v, settled w !! p = Some v -> settled w' !! p = Some v) /\
  accessToken w' = accessToken w /\ servers w' = servers w /\
  nextTimer w' = nextTimer w /\ nextPromise w' = nextPromise w /\ now w' = now w.

(** What an event of a radio-poller run says about the frequencies [stored]
    before the run and the broadcasts [scan] found in the response: a loss
    names a stored frequency no broadcast carries; a gain is a broadcast of
    the scan on a frequency that was not stored; a timed-event start comes
    with the gain of 4765 or of 4768. *)
Definition announces (s : RustServer) (stored : list N) (scan : list Broadcast)
    (e : Emitted) : Prop :=
  server e = identifier s /\
  match payload e with
  | FrequencyLost f => f ∈ stored /\ f ∉ List.map frequency scan
  | FrequencyGained f c rg =>
      (f ∉ stored) /\ Build_Broadcast f c rg ∈ scan
  | EventStart n sp =>
      sp = false /\
      ((n = "Small Oil Rig" /\ 4765%N ∈ List.map frequency scan /\ 4765%N ∉ stored) \/
       (n = "Oil Rig" /\ 4768%N ∈ List.map frequency scan /\ 4768%N ∉ stored))
  | _ => False
  end.

(** A non-empty run of characters of the class [p]. *)
Fixpoint allChars (p : ascii -> bool) (s : string) : bool :=
  match s with
  | EmptyString => true
  | String c s' => p c && allChars p s'
  end.

Definition run (p : ascii -> bool) (s : string) : bool :=
  match s with
  | EmptyString => false
  | String _ _ => allChars p s
  end.

(** Whether a text begins with a character of the class [p]. *)
Definition beginsWith (p : ascii -> bool) (s : string) : bool :=
  match s with
  | EmptyString => false
  | String c _ => p c
  end.

(** A line of the broadcaster list as the pattern of the poller reads it,
    from the five texts of its groups. *)
Definition broadcastLine (f x y z r : string) : string :=
  "[" ++ f ++ " MHz] Position: (" ++ x ++ ", " ++ y ++ ", " ++ z ++ "), Range: " ++ r.

(** A text without a double quote, and a text a quoted name may hold: no
    double quote and no line terminator. *)
Definition plain (s : string) : bool :=
  allChars (fun c => negb (Ascii.eqb c Pollers.DQ)) s.

Definition nameText (s : string) : bool :=
  allChars (fun c => negb (Ascii.eqb c Pollers.DQ) && negb (Pollers.isLineTerminator c)) s.

(** The text made of quoted names, each after some text of its own, and
    closed by [rest]. *)
Definition quotedText (items : list (string * string)) (rest : string) : string :=
  fold_right
    (fun it acc => it.1 ++ String Pollers.DQ (it.2 ++ String Pollers.DQ acc))
    rest items.

(** Answering [c] is all that happened to the bookkeeping between [w] and
    [w']: the registry is that of [w] without the entry of [c], the timers
    are those of [w] without the one [c] points to, and every promise but
    that of [c] holds what it held. *)
Definition onlyAnswered (w w' : World) (c : CommandRequest) : Prop :=
  commands w' = CommandHandler.remove (commands w) (Some c) /\
  timers w' = timers (clearTimeout w (cr_timeout c)) /\
  (forall p, p <> cr_resolve c -> outcome w' p = outcome w p).

(** ** Numbers within the exact range *)

(** An integer that a JavaScript number holds exactly and prints as plain
    digits. *)
Definition safeInteger (n : N) : bool := (n <=? 2 ^ 53)%N.

(** Every frequency and range found in the response is such an integer. *)
Definition safeScan (text : string) : bool :=
  forallb (fun b => safeInteger (frequency b) && safeInteger (range b))
    (parseBroadcasts text).

(** Every stored frequency of the server is such an integer. *)
Definition safeStored (s : RustServer) : bool :=
  forallb safeInteger (frequencies s).

(** The numbers of the broadcasts in the order of the scan. *)
Definition numbersOf (bs : list Broadcast) : list (N * N) :=
  List.map (fun b => (frequency b, range b)) bs.

(** ** What runs while a command is in flight *)

(** One move of the manager, as it may run between two steps of a call of
    [command], which awaits the request and then the body of the reply:
    time passes and the timers that are due fire; a command is dispatched;
    the request of a dispatch has settled, or the body of its reply has
    been read; a batch of console text is classified; or something runs
    that leaves the registry, the timers of the commands, the promises and
    the clock alone, as the runs of the pollers behind their commands and
    the operations of the server map do.  [replies] tells the promises whose calls may go on, [batches] the
    batches that may arrive. *)
Inductive move (playerKillData : list KillEntry) (RE : RegularExpressions)
    (replies : nat -> Prop) (batches : World -> World -> Prop)
  : World -> World -> Prop :=
| move_time w d :
    move playerKillData RE replies batches w (advance w d)
| move_dispatch w ident cmd :
    move playerKillData RE replies batches w (command_start w ident cmd).1
| move_fetched w ident cmd q o :
    replies q ->
    move playerKillData RE replies batches w (command_onFetch w ident cmd q o).1
| move_parsed w ident cmd q j :
    replies q ->
    move playerKillData RE replies batches w (command_onJson w ident cmd q j)
| move_batch w message s :
    batches w (handle playerKillData RE w message s).1 ->
    move playerKillData RE replies batches w (handle playerKillData RE w message s).1
| move_aside w w' :
    commands w' = commands w -> timers w' = timers w ->
    nextTimer w' = nextTimer w -> settled w' = settled w ->
    nextPromise w' = nextPromise w -> now w' = now w ->
    move playerKillData RE replies batches w w'.

(** Two records of the same call: the same session, text and promise. *)
Definition sameCall (y x : CommandRequest) : Prop :=
  cr_identifier x = cr_identifier y /\ cr_command x = cr_command y /\
  cr_resolve x = cr_resolve y.

(** Any number of moves, one after the other. *)
Definition moves (playerKillData : list KillEntry) (RE : RegularExpressions)
    (replies : nat -> Prop) (batches : World -> World -> Prop)
  : World -> World -> Prop :=
  rtc (move playerKillData RE replies batches).

(** The calls other than that of the promise [p]. *)
Definition others (p q : nat) : Prop := q <> p.

Definition anyReply (q : nat) : Prop := True.

Definition anyBatch (w w' : World) : Prop := True.

(** A batch that does not answer the command of the promise [p]: it
    neither resolves the promise nor clears a timeout that would. *)
Definition calmFor (p : nat) (w w' : World) : Prop :=
  outcome w' p = outcome w p /\
  forall t, t ∈ timers w -> promiseOf (callback t) = p -> t ∈ timers w'.

(** The records of the promise [p] are under the key of its call, and [p]
    has been handed out. *)
Definition keyedAt (ident cmd : string) (p : nat) (w : World) : Prop :=
  p < nextPromise w /\
  forall x, x ∈ commands w -> cr_resolve x = p -> hasKey ident cmd x = true.

(** The promise [p] has been handed out and no record of the registry
    resolves it. *)
Definition absentAt (p : nat) (w : World) : Prop :=
  p < nextPromise w /\ forall x, x ∈ commands w -> cr_resolve x <> p.

(** The promise [p] waits for the timer [own], the only one that resolves
    it: either it is pending, the timer is armed and not yet due; or the
    timer has fired when it was due, the promise holds the empty success
    and no record of the registry resolves it. *)
Definition awaitsTimeout (p : nat) (own : Timer) (w : World) : Prop :=
  (forall t, t ∈ timers w -> promiseOf (callback t) = p -> t = own) /\
  ((outcome w p = None /\ own ∈ timers w /\ (now w < due own)%N) \/
   (outcome w p = Some emptySuccess /\ (due own <= now w)%N /\
    forall x, x ∈ commands w -> cr_resolve x <> p)).

(** The step of a call of [command] at which its request is found to have
    failed: when the request has settled, for an exception or a status
    outside 200-299; else when the body has been read. *)
Definition failingMove (w : World) (ident cmd : string) (p : nat)
    (o : FetchOutcome) (j : JsonOutcome) : World :=
  match o with
  | FetchThrew _ => (command_onFetch w ident cmd p o).1
  | FetchResponse status _ =>
      if negb (responseOk status) then (command_onFetch w ident cmd p o).1
      else command_onJson w ident cmd p j
  end.

(** * Properties *)

(** ** Helper.comparePopulation *)

Lemma comparePopulation_joined (oldList newList : list string) :
  Helper.joined (Helper.comparePopulation oldList newList)
    = filter (fun ign => ign ∉ oldList) newList.
Proof.
  unfold Helper.comparePopulation; simpl.
  apply list_filter_iff; intros x. by rewrite elem_of_list_to_set.
Qed.

Lemma comparePopulation_left (oldList newList : list string) :
  Helper.left (Helper.comparePopulation oldList newList)
    = filter (fun ign => ign ∉ newList) oldList.
Proof.
  unfold Helper.comparePopulation; simpl.
  apply list_filter_iff; intros x. by rewrite elem_of_list_to_set.
Qed.

(** C4.  [comparePopulation] returns as [joined] the names of the new list
    that are not in the old one and as [left] the names of the old list that
    are not in the new one, each in the order of the list it is taken from
    (a sublist of it).  Run on arrays in a heap, the call returns two newly
    allocated arrays holding these lists and leaves every array that
    existed before, the two arguments among them, as it was. *)
Theorem comparePopulation_differences
    (oldList newList : list string)
    (h : gmap nat (list string)) (oldRef newRef : nat) :
  h !! oldRef = Some oldList ->
  h !! newRef = Some newList ->
  let r := Helper.comparePopulation oldList newList in
  Helper.joined r = filter (fun ign => ign ∉ oldList) newList /\
  Helper.left r = filter (fun ign => ign ∉ newList) oldList /\
  Helper.joined r `sublist_of` newList /\
  Helper.left r `sublist_of` oldList /\
  (forall ign, ign ∈ Helper.joined r <-> ign ∈ newList /\ ign ∉ oldList) /\
  (forall ign, ign ∈ Helper.left r <-> ign ∈ oldList /\ ign ∉ newList) /\
  exists h' joinedRef leftRef,
    Helper.comparePopulationOn h oldRef newRef = Some (h', (joinedRef, leftRef)) /\
    h' !! joinedRef = Some (Helper.joined r) /\
    h' !! leftRef = Some (Helper.left r) /\
    h !! joinedRef = None /\ h !! leftRef = None /\
    h' !! oldRef = Some oldList /\ h' !! newRef = Some newList /\
    (forall a, is_Some (h !! a) -> h' !! a = h !! a).
Proof.
  intros Ho Hn. cbv zeta.
  split; [apply comparePopulation_joined|].
  split; [apply comparePopulation_left|].
  rewrite comparePopulation_joined, comparePopulation_left.
  split; [apply sublist_filter|]. split; [apply sublist_filter|].
  split; [intros ign; rewrite list_elem_of_filter; tauto|].
  split; [intros ign; rewrite list_elem_of_filter; tauto|].
  rewrite <- comparePopulation_joined, <- comparePopulation_left.
  unfold Helper.comparePopulationOn, Helper.alloc. rewrite Ho, Hn. simpl.
  set (j := filter _ newList). set (l := filter _ oldList).
  set (a1 := fresh (dom h)). set (h1 := <[a1 := j]> h).
  set (a2 := fresh (dom h1)).
  assert (H1 : h !! a1 = None) by apply not_elem_of_dom, is_fresh.
  assert (H2 : h1 !! a2 = None) by apply not_elem_of_dom, is_fresh.
  assert (Hne : a2 <> a1).
  { intros E. rewrite E in H2. unfold h1 in H2. by rewrite lookup_insert_eq in H2. }
  assert (H3 : h !! a2 = None).
  { unfold h1 in H2. by rewrite lookup_insert_ne in H2. }
  assert (Hkeep : forall a, is_Some (h !! a) -> <[a2 := l]> h1 !! a = h !! a).
  { intros a [v Ha]. unfold h1.
    rewrite !lookup_insert_ne; [done | congruence | congruence]. }
  exists (<[a2 := l]> h1), a1, a2. split; [reflexivity|].
  split. { rewrite lookup_insert_ne by done. apply lookup_insert_eq. }
  split; [apply lookup_insert_eq|]. split; [exact H1|]. split; [exact H3|].
  split; [rewrite Hkeep; [exact Ho | by eexists]|].
  split; [rewrite Hkeep; [exact Hn | by eexists]|].
  exact Hkeep.
Qed.

Lemma comparePopulation_differences_witness :
  Helper.comparePopulation ["ana"; "bo"; "cy"] ["cy"; "dee"; "ana"; "eli"]
  = {| Helper.joined := ["dee"; "eli"]; Helper.left := ["bo"] |}.
Proof.
  assert (Ho : ({[ 0 := ["ana"; "bo"; "cy"]; 1 := ["cy"; "dee"; "ana"; "eli"] ]}
                  : gmap nat (list string)) !! 0 = Some ["ana"; "bo"; "cy"])
    by (vm_compute; reflexivity).
  assert (Hn : ({[ 0 := ["ana"; "bo"; "cy"]; 1 := ["cy"; "dee"; "ana"; "eli"] ]}
                  : gmap nat (list string)) !! 1 = Some ["cy"; "dee"; "ana"; "eli"])
    by (vm_compute; reflexivity).
  destruct (comparePopulation_differences
              ["ana"; "bo"; "cy"] ["cy"; "dee"; "ana"; "eli"] _ 0 1 Ho Hn)
    as (H1 & H2 & _).
  destruct (Helper.comparePopulation _ _) as [j l]. simpl in *.
  rewrite H1, H2. vm_compute. reflexivity.
Defined.

(** For lists without a common name, every new name joined and every old
    name left. *)
Lemma comparePopulation_disjoint (oldList newList : list string) :
  (forall ign, ign ∈ oldList -> ign ∉ newList) ->
  Helper.comparePopulation oldList newList
    = {| Helper.joined := newList; Helper.left := oldList |}.
Proof.
  intros Hdis.
  pose proof (comparePopulation_joined oldList newList) as Hj.
  pose proof (comparePopulation_left oldList newList) as Hl.
  destruct (Helper.comparePopulation oldList newList) as [j l]; simpl in *.
  subst j l. f_equal.
  - clear -Hdis. induction newList as [|x l IH]; [done|].
    rewrite filter_cons_True.
    + f_equal. apply IH. intros i Hi Hn. apply (Hdis i Hi). by right.
    + intros Hx. apply (Hdis x Hx). by left.
  - clear -Hdis. induction oldList as [|x l IH]; [done|].
    rewrite filter_cons_True.
    + f_equal. apply IH. intros i Hi. apply Hdis. by right.
    + apply Hdis. by left.
Qed.

(** ** The classifier: events only extend the log *)

Lemma sameBookkeeping_refl w : sameBookkeeping w w.
Proof. by repeat split. Qed.

Lemma sameBookkeeping_trans w1 w2 w3 :
  sameBookkeeping w1 w2 -> sameBookkeeping w2 w3 -> sameBookkeeping w1 w3.
Proof.
  unfold sameBookkeeping. intros (?&?&?&?&?&?&?&?) (?&?&?&?&?&?&?&?).
  repeat split; congruence.
Qed.

Lemma appends_refl P w : appends P w w.
Proof.
  split; [apply sameBookkeeping_refl|]. exists []. by rewrite app_nil_r.
Qed.

Lemma appends_trans P w1 w2 w3 :
  appends P w1 w2 -> appends P w2 w3 -> appends P w1 w3.
Proof.
  intros [Hb1 (e1 & He1 & Hp1)] [Hb2 (e2 & He2 & Hp2)].
  split; [by eapply sameBookkeeping_trans|].
  exists (e1 ++ e2)%list. split.
  - by rewrite He2, He1, app_assoc.
  - rewrite forallb_app, Hp1, Hp2. reflexivity.
Qed.

Lemma appends_emit (P : RCEEvent -> bool) w s e :
  P e = true -> appends P w (emit w s e).
Proof.
  intros HP. split; [by repeat split|].
  exists [{| server := identifier s; payload := e |}]. simpl. by rewrite HP.
Qed.

Lemma appends_onMatch P m k w :
  (forall g w0, appends P w0 (k g w0)) -> appends P w (onMatch m k w).
Proof. intros Hk. destruct m; simpl; [apply Hk | apply appends_refl]. Qed.

Lemma appends_weaken (P Q : RCEEvent -> bool) w w' :
  (forall e, P e = true -> Q e = true) -> appends P w w' -> appends Q w w'.
Proof.
  intros HPQ [Hb (evs & He & Hp)]. split; [done|]. exists evs. split; [done|].
  rewrite forallb_forall in *. intros x Hx. apply HPQ, Hp, Hx.
Qed.

Ltac appends_step :=
  match goal with
  | |- appends _ ?w ?w => apply appends_refl
  | |- appends _ ?w (emit ?w _ _) => apply appends_emit; reflexivity
  | |- appends _ ?w (emit ?w1 _ _) =>
      apply (appends_trans _ w w1); [| apply appends_emit; reflexivity]
  | |- appends _ ?w (onMatch _ _ ?w) =>
      apply appends_onMatch; intros; cbv zeta
  | |- appends _ ?w (onMatch _ _ ?w1) =>
      apply (appends_trans _ w w1); [| apply appends_onMatch; intros; cbv zeta]
  | |- appends _ _ (if ?c then _ else _) => destruct c
  end.

Section ClassifierFacts.

Variable playerKillData : list KillEntry.
Variable RE : RegularExpressions.

Lemma patternEvents_appends s log w :
  appends isPatternEvent w (patternEvents RE s log w).
Proof. unfold patternEvents. cbv zeta. repeat appends_step. Qed.

Lemma eventStart_loop s log (l : list EventOptions) w :
  let w' := fold_left
      (fun w' e =>
         if JS.includes log (ev_key e)
         then emit w' s (EventStart (ev_name e) (ev_special e))
         else w') l w in
  sameBookkeeping w w' /\
  emitted w' = (emitted w ++ List.map (startEvent s)
      (List.map (fun e => (ev_name e, ev_special e))
         (List.filter (fun e => JS.includes log (ev_key e)) l)))%list.
Proof.
  revert w. induction l as [|e l IH]; intros w; simpl.
  - split; [apply sameBookkeeping_refl | by rewrite app_nil_r].
  - destruct (JS.includes log (ev_key e)); simpl.
    + destruct (IH (emit w s (EventStart (ev_name e) (ev_special e)))) as [Hb He].
      split.
      * eapply sameBookkeeping_trans; [|exact Hb]. by repeat split.
      * rewrite He. simpl. by rewrite <- app_assoc.
    + apply IH.
Qed.

Lemma eventStart_emitted s log w :
  sameBookkeeping w (eventStart s log w) /\
  emitted (eventStart s log w)
    = (emitted w ++ List.map (startEvent s)
         (if JS.startsWith log "[event]" then matchingEvents log else []))%list.
Proof.
  unfold eventStart. destruct (JS.startsWith log "[event]").
  - apply eventStart_loop.
  - split; [apply sameBookkeeping_refl | by rewrite app_nil_r].
Qed.

Lemma playerKill_emitted s log w :
  sameBookkeeping w (playerKill playerKillData s log w) /\
  emitted (playerKill playerKillData s log w)
    = (emitted w ++
       if JS.includes log " was killed by " then
         let parts := List.map JS.trim (JS.split log " was killed by ") in
         [{| server := identifier s;
             payload := PlayerKill (getKill playerKillData (nth 0 parts EmptyString))
                                   (getKill playerKillData (nth 1 parts EmptyString)) |}]
       else [])%list.
Proof.
  unfold playerKill. destruct (JS.includes log " was killed by ").
  - split; [by repeat split | reflexivity].
  - split; [apply sameBookkeeping_refl | by rewrite app_nil_r].
Qed.

Lemma eventStartsOf_app a b :
  eventStartsOf (a ++ b) = (eventStartsOf a ++ eventStartsOf b)%list.
Proof. apply omap_app. Qed.

Lemma killsOf_app a b : killsOf (a ++ b) = (killsOf a ++ killsOf b)%list.
Proof. apply omap_app. Qed.

Lemma eventStartsOf_pattern evs :
  forallb (fun e => isPatternEvent (payload e)) evs = true -> eventStartsOf evs = [].
Proof.
  induction evs as [|e evs IH]; [done|]. simpl.
  intros [He Hr]%andb_prop. unfold eventStartsOf in *. simpl.
  rewrite (IH Hr). by destruct (payload e).
Qed.

Lemma killsOf_pattern evs :
  forallb (fun e => isPatternEvent (payload e)) evs = true -> killsOf evs = [].
Proof.
  induction evs as [|e evs IH]; [done|]. simpl.
  intros [He Hr]%andb_prop. unfold killsOf in *. simpl.
  rewrite (IH Hr). by destruct (payload e).
Qed.

Lemma eventStartsOf_starts s l : eventStartsOf (List.map (startEvent s) l) = l.
Proof.
  induction l as [|[n sp] l IH]; [done|].
  unfold eventStartsOf in *. simpl. f_equal. exact IH.
Qed.

Lemma killsOf_starts s l : killsOf (List.map (startEvent s) l) = [].
Proof. induction l as [|[n sp] l IH]; [done|]. unfold killsOf in *. simpl. exact IH. Qed.

(** The events of [domainEvents]: pattern events, then the starts of the
    matching [EVENTS] entries, then at most one kill. *)
Lemma domainEvents_emitted s log w :
  sameBookkeeping w (domainEvents playerKillData RE s log w) /\
  exists evs,
    forallb (fun e => isPatternEvent (payload e)) evs = true /\
    emitted (domainEvents playerKillData RE s log w)
    = (emitted w ++ evs ++
       List.map (startEvent s)
         (if JS.startsWith log "[event]" then matchingEvents log else []) ++
       if JS.includes log " was killed by " then
         let parts := List.map JS.trim (JS.split log " was killed by ") in
         [{| server := identifier s;
             payload := PlayerKill (getKill playerKillData (nth 0 parts EmptyString))
                                   (getKill playerKillData (nth 1 parts EmptyString)) |}]
       else [])%list.
Proof.
  unfold domainEvents.
  destruct (patternEvents_appends s log w) as [Hb1 (evs & He1 & Hp1)].
  destruct (eventStart_emitted s log (patternEvents RE s log w)) as [Hb2 He2].
  destruct (playerKill_emitted s log (eventStart s log (patternEvents RE s log w)))
    as [Hb3 He3].
  split.
  - eapply sameBookkeeping_trans; [exact Hb1|].
    eapply sameBookkeeping_trans; [exact Hb2 | exact Hb3].
  - exists evs. split; [exact Hp1|].
    rewrite He3, He2, He1. by rewrite <- !app_assoc.
Qed.

Lemma commandExecuting_continues w s date log w1 :
  commandExecuting RE w s date log = Continues w1 ->
  appends isPatternEvent w w1.
Proof.
  unfold commandExecuting. destruct (CommandExecuting RE log) as [m|].
  - destruct (CommandHandler.get _ _ _) as [c|].
    + destruct (negb _); [discriminate|].
      intros [= <-]. by apply appends_emit.
    + intros [= <-]. by apply appends_emit.
  - intros [= <-]. apply appends_refl.
Qed.

(** *** Answering a command *)

Lemma get_remove reg c :
  CommandHandler.get (CommandHandler.remove reg (Some c))
    (cr_identifier c) (cr_command c) = None.
Proof.
  unfold CommandHandler.get, CommandHandler.remove.
  induction reg as [|r reg IH]; [done|]. simpl.
  destruct (hasKey (cr_identifier c) (cr_command c) r) eqn:Hk; simpl.
  - exact IH.
  - by rewrite Hk.
Qed.

Lemma respond_answers w c log : answeredWith w (respond w c log) c log.
Proof.
  unfold answeredWith, respond, outcome.
  split; [|split].
  - unfold resolve. destruct (settled w !! cr_resolve c) as [v|] eqn:Hs.
    + destruct (cr_timeout c); simpl; by rewrite Hs.
    + destruct (cr_timeout c); simpl; by rewrite lookup_insert_eq.
  - intros t Ht Heq. simpl in Ht. rewrite Heq in Ht. simpl in Ht.
    apply list_elem_of_In, filter_In in Ht. destruct Ht as [_ Ht].
    by rewrite Nat.eqb_refl in Ht.
  - simpl. apply get_remove.
Qed.

Lemma respond_emitted w c log : emitted (respond w c log) = emitted w.
Proof.
  unfold respond, resolve.
  destruct (settled w !! cr_resolve c); destruct (cr_timeout c); reflexivity.
Qed.

Lemma commandResponse_emitted w s cur date log :
  emitted (commandResponse w s cur date log).1 = emitted w.
Proof.
  unfold commandResponse.
  destruct (CommandHandler.getQueued _ _ _) as [c|];
    [destruct (negb _); simpl; [apply respond_emitted|]|];
    (destruct cur as [x|]; [|reflexivity]);
    (destruct (JS.truthy x); [|reflexivity]);
    (destruct (CommandHandler.get _ _ _) as [c'|]; [|reflexivity]);
    apply respond_emitted.
Qed.

Lemma respond_onlyAnswered w c log : onlyAnswered w (respond w c log) c.
Proof.
  unfold onlyAnswered, respond, outcome. split; [|split].
  - cbn [commands set_commands]. f_equal.
    unfold resolve. destruct (settled w !! cr_resolve c); by destruct (cr_timeout c).
  - cbn [timers set_commands].
    unfold resolve. destruct (settled w !! cr_resolve c); by destruct (cr_timeout c).
  - intros p Hp. cbn [settled set_commands].
    assert (Hs : forall w0 h, settled (clearTimeout w0 h) = settled w0)
      by (intros w0 [h|]; reflexivity).
    rewrite Hs. unfold resolve. destruct (settled w !! cr_resolve c); [done|].
    cbn [settled set_settled]. by apply lookup_insert_ne.
Qed.

Lemma onlyAnswered_transport w0 w w3 w' c :
  sameBookkeeping w0 w -> sameBookkeeping w3 w' ->
  onlyAnswered w w3 c -> onlyAnswered w0 w' c.
Proof.
  unfold sameBookkeeping, onlyAnswered, outcome.
  intros (_&_&Hc0&Ht0&_&Hs0&_&_) (_&_&Hc&Ht&_&Hs&_&_) (Ha&Hb&Hd).
  rewrite Hs, Hc, Ht, <- Hs0, <- Hc0. split; [done|]. split; [|done].
  rewrite Hb. destruct (cr_timeout c); cbn [clearTimeout timers set_timers]; by rewrite Ht0.
Qed.

Lemma answeredWith_transport w0 w w3 w' c log :
  sameBookkeeping w0 w -> sameBookkeeping w3 w' ->
  answeredWith w w3 c log -> answeredWith w0 w' c log.
Proof.
  unfold sameBookkeeping, answeredWith, outcome.
  intros (_&_&_&_&_&Hs0&_&_) (_&_&Hc&Ht&_&Hs&_&_) (Ha&Hb&Hd).
  rewrite Hs, Hc, Ht, <- Hs0. done.
Qed.

Lemma unanswered_transport w0 w w' :
  sameBookkeeping w0 w -> sameBookkeeping w w' -> unanswered w0 w'.
Proof.
  unfold sameBookkeeping, unanswered.
  intros (_&_&Hc0&Ht0&_&Hs0&_&_) (_&_&Hc&Ht&_&Hs&_&_).
  repeat split; congruence.
Qed.

(** A line that parses, is not blank and does not end in the command-start
    branch goes through the response check and the domain events. *)
Lemma handleLine_continues s w cur data m w1 :
  Log RE data = Some m ->
  JS.truthy (JS.trim (group m 2)) = true ->
  commandExecuting RE (emit w s (Message (JS.trim (group m 2)))) s
    (group m 1) (JS.trim (group m 2)) = Continues w1 ->
  handleLine playerKillData RE s (w, cur) data
  = (domainEvents playerKillData RE s (JS.trim (group m 2))
       (commandResponse w1 s cur (group m 1) (JS.trim (group m 2))).1,
     (commandResponse w1 s cur (group m 1) (JS.trim (group m 2))).2).
Proof.
  intros Hm Ht Hc. unfold handleLine. rewrite Hm. cbv zeta.
  rewrite Ht. simpl negb. cbv iota. rewrite Hc.
  by destruct (commandResponse w1 s cur _ _).
Qed.

Lemma handleLine_newEvents s w cur data m w1 :
  Log RE data = Some m ->
  JS.truthy (JS.trim (group m 2)) = true ->
  commandExecuting RE (emit w s (Message (JS.trim (group m 2)))) s
    (group m 1) (JS.trim (group m 2)) = Continues w1 ->
  let log := JS.trim (group m 2) in
  exists evs,
    forallb (fun e => isPatternEvent (payload e)) evs = true /\
    newEvents w (handleLine playerKillData RE s (w, cur) data).1
    = (evs ++
       List.map (startEvent s)
         (if JS.startsWith log "[event]" then matchingEvents log else []) ++
       if JS.includes log " was killed by " then
         let parts := List.map JS.trim (JS.split log " was killed by ") in
         [{| server := identifier s;
             payload := PlayerKill (getKill playerKillData (nth 0 parts EmptyString))
                                   (getKill playerKillData (nth 1 parts EmptyString)) |}]
       else [])%list.
Proof.
  intros Hm Ht Hc log.
  rewrite (handleLine_continues s w cur data m w1 Hm Ht Hc). simpl fst.
  fold log in Hc |- *.
  destruct (commandExecuting_continues _ _ _ _ _ Hc) as [_ (e1 & He1 & Hp1)].
  pose proof (commandResponse_emitted w1 s cur (group m 1) log) as He2.
  destruct (domainEvents_emitted s log (commandResponse w1 s cur (group m 1) log).1)
    as [_ (e3 & Hp3 & He3)].
  exists ([{| server := identifier s; payload := Message log |}] ++ e1 ++ e3)%list.
  split.
  - rewrite !forallb_app, Hp1, Hp3. reflexivity.
  - unfold newEvents. rewrite He3, He2, He1. simpl emitted.
    rewrite <- !app_assoc. by rewrite drop_app_length.
Qed.

End ClassifierFacts.

(** ** getKill *)

(** C9.  [getKill] returns its argument unchanged in the [id] field,
    whatever the table and the string.  [Number("0")] is falsy, so the
    string ["0"], when the table does not list it, is classified as a
    player named ["0"] and not as an NPC. *)
Theorem getKill_keeps_id_and_zero_is_player
    (playerKillData : list KillEntry) (ign : string) :
  id (getKill playerKillData ign) = ign /\
  JS.NumberTruthy "0" = false /\
  (unlisted playerKillData "0" ->
   getKill playerKillData "0" = {| id := "0"; name := "0"; type := Player |}).
Proof.
  split; [|split].
  - unfold getKill. destruct (List.find _ _); [reflexivity|].
    by destruct (JS.NumberTruthy ign).
  - reflexivity.
  - unfold unlisted, getKill. intros H. change (JS.toLowerCase "0") with "0" in *.
    by rewrite H.
Qed.

Lemma getKill_keeps_id_and_zero_is_player_witness :
  id (getKill Sample.killTable "Bear") = "Bear" /\
  getKill Sample.killTable "0" = {| id := "0"; name := "0"; type := Player |}.
Proof.
  destruct (getKill_keeps_id_and_zero_is_player Sample.killTable "Bear")
    as (H1 & _ & H3).
  split; [exact H1 | apply H3; reflexivity].
Defined.

(** The order in which [getKill] decides. *)
Lemma getKill_order (playerKillData : list KillEntry) (ign : string) :
  (forall data,
     List.find (fun e => String.eqb (entry_id e) (JS.toLowerCase ign)) playerKillData
       = Some data ->
     getKill playerKillData ign
       = {| id := ign; name := entry_name data; type := entry_type data |}) /\
  (unlisted playerKillData ign -> JS.NumberTruthy ign = true ->
   getKill playerKillData ign = {| id := ign; name := "Scientist"; type := Npc |}) /\
  (unlisted playerKillData ign -> JS.NumberTruthy ign = false ->
   getKill playerKillData ign = {| id := ign; name := ign; type := Player |}).
Proof.
  unfold unlisted, getKill. split; [|split].
  - intros data H. by rewrite H.
  - intros H Hn. by rewrite H, Hn.
  - intros H Hn. by rewrite H, Hn.
Qed.

(** ** The classifier on one line *)

(** C7.  A live line whose content is "PlayerName was killed by 12345"
    (and which is not taken as the start of an in-flight command) emits
    exactly one player kill: the victim a player named by its identifier,
    the killer the generic NPC, provided the table lists neither
    identifier.  Each side is decided on its own: the table entry for the
    lower-cased identifier if there is one, else the NPC if [Number] of the
    identifier is truthy, else a player named by the identifier.  The table
    comes first and is asked in lower case: when it has an entry for "bear",
    the line "PlayerName was killed by BEAR" gives a killer with the name
    and the type of that entry and the identifier as it was written, and
    an entry for "12345" decides the killer of the first line before the
    rule for numbers does. *)
Theorem kill_line_is_classified
    (playerKillData : list KillEntry) (RE : RegularExpressions)
    (s : RustServer) (w : World) (cur : option string)
    (data : string) (m : list string) (w1 : World) :
  Log RE data = Some m ->
  JS.trim (group m 2) = "PlayerName was killed by 12345" ->
  commandExecuting RE (emit w s (Message "PlayerName was killed by 12345")) s
    (group m 1) "PlayerName was killed by 12345" = Continues w1 ->
  unlisted playerKillData "PlayerName" ->
  unlisted playerKillData "12345" ->
  killsOf (newEvents w (handleLine playerKillData RE s (w, cur) data).1)
  = [ ({| id := "PlayerName"; name := "PlayerName"; type := Player |},
       {| id := "12345"; name := "Scientist"; type := Npc |}) ] /\
  (forall data' m' w1' e,
     Log RE data' = Some m' ->
     JS.trim (group m' 2) = "PlayerName was killed by BEAR" ->
     commandExecuting RE (emit w s (Message "PlayerName was killed by BEAR")) s
       (group m' 1) "PlayerName was killed by BEAR" = Continues w1' ->
     List.find (fun e => String.eqb (entry_id e) "bear") playerKillData = Some e ->
     killsOf (newEvents w (handleLine playerKillData RE s (w, cur) data').1)
     = [ ({| id := "PlayerName"; name := "PlayerName"; type := Player |},
          {| id := "BEAR"; name := entry_name e; type := entry_type e |}) ]) /\
  (forall table e,
     List.find (fun e => String.eqb (entry_id e) "12345") table = Some e ->
     getKill table "12345"
     = {| id := "12345"; name := entry_name e; type := entry_type e |}) /\
  (forall victim killer,
     let v := getKill playerKillData victim in
     let k := getKill playerKillData killer in
     (forall e, List.find (fun e => String.eqb (entry_id e) (JS.toLowerCase victim))
                  playerKillData = Some e ->
                v = {| id := victim; name := entry_name e; type := entry_type e |}) /\
     (unlisted playerKillData victim ->
      v = if JS.NumberTruthy victim
          then {| id := victim; name := "Scientist"; type := Npc |}
          else {| id := victim; name := victim; type := Player |}) /\
     (forall e, List.find (fun e => String.eqb (entry_id e) (JS.toLowerCase killer))
                  playerKillData = Some e ->
                k = {| id := killer; name := entry_name e; type := entry_type e |}) /\
     (unlisted playerKillData killer ->
      k = if JS.NumberTruthy killer
          then {| id := killer; name := "Scientist"; type := Npc |}
          else {| id := killer; name := killer; type := Player |})).
Proof.
  intros Hm Hlog Hc Hv Hk. split; [|split; [|split]].
  - assert (Ht : JS.truthy (JS.trim (group m 2)) = true) by by rewrite Hlog.
    rewrite <- Hlog in Hc.
    destruct (handleLine_newEvents playerKillData RE s w cur data m w1 Hm Ht Hc)
      as (evs & Hp & He).
    rewrite He, Hlog. cbv zeta.
    change (JS.startsWith "PlayerName was killed by 12345" "[event]") with false.
    change (JS.includes "PlayerName was killed by 12345" " was killed by ") with true.
    change (List.map JS.trim (JS.split "PlayerName was killed by 12345" " was killed by "))
      with ["PlayerName"; "12345"].
    cbv iota. rewrite killsOf_app, (killsOf_pattern evs Hp). simpl.
    destruct (getKill_order playerKillData "PlayerName") as (_ & _ & Hplayer).
    destruct (getKill_order playerKillData "12345") as (_ & Hnpc & _).
    rewrite (Hplayer Hv eq_refl), (Hnpc Hk eq_refl). reflexivity.
  - intros data' m' w1' e Hm' Hlog' Hc' He.
    assert (Ht : JS.truthy (JS.trim (group m' 2)) = true) by by rewrite Hlog'.
    rewrite <- Hlog' in Hc'.
    destruct (handleLine_newEvents playerKillData RE s w cur data' m' w1' Hm' Ht Hc')
      as (evs & Hp & Hev).
    rewrite Hev, Hlog'. cbv zeta.
    change (JS.startsWith "PlayerName was killed by BEAR" "[event]") with false.
    change (JS.includes "PlayerName was killed by BEAR" " was killed by ") with true.
    change (List.map JS.trim (JS.split "PlayerName was killed by BEAR" " was killed by "))
      with ["PlayerName"; "BEAR"].
    cbv iota. rewrite killsOf_app, (killsOf_pattern evs Hp). simpl.
    destruct (getKill_order playerKillData "PlayerName") as (_ & _ & Hplayer).
    destruct (getKill_order playerKillData "BEAR") as (Hbear & _ & _).
    rewrite (Hplayer Hv eq_refl), (Hbear e He). reflexivity.
  - intros table e He. unfold getKill.
    change (JS.toLowerCase "12345") with "12345". by rewrite He.
  - intros victim killer. cbv zeta. unfold unlisted, getKill.
    repeat split.
    + intros e H. by rewrite H.
    + intros H. by rewrite H.
    + intros e H. by rewrite H.
    + intros H. by rewrite H.
Qed.

Lemma kill_line_is_classified_witness :
  killsOf (newEvents Sample.world1
             (handleLine Sample.killTable Sample.patterns Sample.server1
                (Sample.world1, None)
                (Sample.line "12:00:01" "PlayerName was killed by 12345")).1)
  = [ ({| id := "PlayerName"; name := "PlayerName"; type := Player |},
       {| id := "12345"; name := "Scientist"; type := Npc |}) ] /\
  killsOf (newEvents Sample.world1
             (handleLine Sample.killTable Sample.patterns Sample.server1
                (Sample.world1, None)
                (Sample.line "12:00:02" "PlayerName was killed by BEAR")).1)
  = [ ({| id := "PlayerName"; name := "PlayerName"; type := Player |},
       {| id := "BEAR"; name := "Bear"; type := Other |}) ].
Proof.
  pose proof (kill_line_is_classified Sample.killTable Sample.patterns
                Sample.server1 Sample.world1 None
                (Sample.line "12:00:01" "PlayerName was killed by 12345")
                [Sample.line "12:00:01" "PlayerName was killed by 12345";
                 "12:00:01"; "PlayerName was killed by 12345"]
                (emit Sample.world1 Sample.server1
                   (Message "PlayerName was killed by 12345"))
                eq_refl eq_refl eq_refl eq_refl eq_refl) as (H1 & H2 & _).
  split; [exact H1|].
  exact (H2 (Sample.line "12:00:02" "PlayerName was killed by BEAR")
            [Sample.line "12:00:02" "PlayerName was killed by BEAR";
             "12:00:02"; "PlayerName was killed by BEAR"]
            (emit Sample.world1 Sample.server1
               (Message "PlayerName was killed by BEAR"))
            {| entry_id := "bear"; entry_name := "Bear"; entry_type := Other |}
            eq_refl eq_refl eq_refl eq_refl).
Defined.

(** C8.  For a live line whose content begins with "[event]" (and which is
    not taken as the start of an in-flight command) the timed-event starts
    emitted are those of all entries of [EVENTS] whose key occurs in the
    line, in table order: the loop has no exit after a match.  Lines with
    no, one and two such entries exist. *)
Theorem event_line_fans_out
    (playerKillData : list KillEntry) (RE : RegularExpressions)
    (s : RustServer) (w : World) (cur : option string)
    (data : string) (m : list string) (w1 : World) :
  Log RE data = Some m ->
  JS.startsWith (JS.trim (group m 2)) "[event]" = true ->
  commandExecuting RE (emit w s (Message (JS.trim (group m 2)))) s
    (group m 1) (JS.trim (group m 2)) = Continues w1 ->
  eventStartsOf (newEvents w (handleLine playerKillData RE s (w, cur) data).1)
  = List.map (fun e => (ev_name e, ev_special e))
      (List.filter (fun e => JS.includes (JS.trim (group m 2)) (ev_key e)) EVENTS) /\
  matchingEvents "[event] nothing known" = [] /\
  matchingEvents "[event] event_airdrop" = [("Airdrop", false)] /\
  matchingEvents "[event] event_cargoheli event_helicopter"
  = [("Chinook", false); ("Patrol Helicopter", false)].
Proof.
  intros Hm Hs Hc. split; [|by repeat split].
  assert (Ht : JS.truthy (JS.trim (group m 2)) = true).
  { destruct (JS.trim (group m 2)); [discriminate Hs | reflexivity]. }
  destruct (handleLine_newEvents playerKillData RE s w cur data m w1 Hm Ht Hc)
    as (evs & Hp & He).
  rewrite He. cbv zeta. rewrite Hs.
  rewrite !eventStartsOf_app, (eventStartsOf_pattern evs Hp), eventStartsOf_starts.
  destruct (JS.includes _ " was killed by "); simpl; by rewrite app_nil_r.
Qed.

Lemma event_line_fans_out_witness :
  eventStartsOf (newEvents Sample.world1
     (handleLine Sample.killTable Sample.patterns Sample.server1
        (Sample.world1, None)
        (Sample.line "12:00:02" "[event] event_cargoheli event_helicopter")).1)
  = [("Chinook", false); ("Patrol Helicopter", false)].
Proof.
  refine (proj1 (event_line_fans_out Sample.killTable Sample.patterns
            Sample.server1 Sample.world1 None
            (Sample.line "12:00:02" "[event] event_cargoheli event_helicopter")
            [Sample.line "12:00:02" "[event] event_cargoheli event_helicopter";
             "12:00:02"; "[event] event_cargoheli event_helicopter"]
            (emit Sample.world1 Sample.server1
               (Message "[event] event_cargoheli event_helicopter"))
            _ _ _)); reflexivity.
Defined.

(** ** Command responses *)

Section ResponsePriority.

Variable playerKillData : list KillEntry.
Variable RE : RegularExpressions.

Lemma commandResponse_byTimestamp w s cur date log c :
  CommandHandler.getQueued (commands w) (identifier s) date = Some c ->
  JS.startsWith log "[ SAVE ]" = false ->
  commandResponse w s cur date log = (respond w c log, cur).
Proof. intros Hq Hs. unfold commandResponse. by rewrite Hq, Hs. Qed.

Lemma commandResponse_otherwise w s cur date log :
  CommandHandler.getQueued (commands w) (identifier s) date = None \/
  JS.startsWith log "[ SAVE ]" = true ->
  commandResponse w s cur date log
  = match cur with
    | Some x =>
        if JS.truthy x then
          match CommandHandler.get (commands w) (identifier s) x with
          | Some c => (respond w c log, None)
          | None => (w, cur)
          end
        else (w, cur)
    | None => (w, cur)
    end.
Proof.
  intros H. unfold commandResponse.
  destruct (CommandHandler.getQueued _ _ _) as [c|].
  - destruct H as [H|H]; [discriminate|]. by rewrite H.
  - reflexivity.
Qed.

End ResponsePriority.

(** C1 (as amended).  Take a live line that is not consumed as the start of
    an unstamped in-flight command.  If the registry holds a command of the
    session stamped with the line's timestamp and the line does not begin
    with "[ SAVE ]", that command is answered with the line's content: its
    promise is resolved with it, its timeout is cleared, it leaves the
    registry; that command and no other: the rest of the registry, the
    other timers and the other promises, the remembered command's among
    them, are as they were, and the open-command marker is untouched.
    Otherwise, if an open command is remembered from earlier in the batch
    and is still in the registry, that command and no other is answered
    with the line's content in the same way and the marker is cleared; if
    the remembered command is no longer in the registry, or nothing is
    remembered, nothing is answered and the marker stays as it was. *)
Theorem command_response_priority
    (playerKillData : list KillEntry) (RE : RegularExpressions)
    (s : RustServer) (w : World) (cur : option string)
    (data : string) (m : list string) (w1 : World) :
  Log RE data = Some m ->
  JS.truthy (JS.trim (group m 2)) = true ->
  commandExecuting RE (emit w s (Message (JS.trim (group m 2)))) s
    (group m 1) (JS.trim (group m 2)) = Continues w1 ->
  let date := group m 1 in
  let log := JS.trim (group m 2) in
  let r := handleLine playerKillData RE s (w, cur) data in
  let queued := CommandHandler.getQueued (commands w) (identifier s) date in
  (forall c, queued = Some c -> JS.startsWith log "[ SAVE ]" = false ->
     answeredWith w r.1 c log /\ onlyAnswered w r.1 c /\ r.2 = cur) /\
  (queued = None \/ JS.startsWith log "[ SAVE ]" = true ->
     (forall x c, cur = Some x -> JS.truthy x = true ->
        CommandHandler.get (commands w) (identifier s) x = Some c ->
        answeredWith w r.1 c log /\ onlyAnswered w r.1 c /\ r.2 = None) /\
     (forall x, cur = Some x -> JS.truthy x = true ->
        CommandHandler.get (commands w) (identifier s) x = None ->
        unanswered w r.1 /\ r.2 = cur) /\
     (JS.truthy_opt cur = false -> unanswered w r.1 /\ r.2 = cur)).
Proof.
  intros Hm Ht Hc date log r queued.
  assert (Hr : r = (domainEvents playerKillData RE s log
                      (commandResponse w1 s cur date log).1,
                    (commandResponse w1 s cur date log).2))
    by exact (handleLine_continues playerKillData RE s w cur data m w1 Hm Ht Hc).
  assert (Hw1 : sameBookkeeping w w1).
  { eapply sameBookkeeping_trans;
      [| exact (proj1 (commandExecuting_continues RE _ _ _ _ _ Hc))].
    by repeat split. }
  assert (Hreg : commands w1 = commands w) by (destruct Hw1; tauto).
  pose proof (fun w0 => proj1 (domainEvents_emitted playerKillData RE s log w0)) as Hd.
  rewrite Hr. simpl fst. simpl snd. unfold queued. rewrite <- Hreg.
  split.
  - intros c Hq Hs. rewrite (commandResponse_byTimestamp w1 s cur date log c Hq Hs).
    split; [|split; [|reflexivity]]; simpl fst.
    + eapply answeredWith_transport; [exact Hw1 | apply Hd | apply respond_answers].
    + eapply onlyAnswered_transport; [exact Hw1 | apply Hd | apply respond_onlyAnswered].
  - intros Hother. rewrite (commandResponse_otherwise w1 s cur date log Hother).
    split; [|split].
    + intros x c -> Hx Hg. rewrite Hx, Hg. split; [|split; [|reflexivity]]; simpl fst.
      * eapply answeredWith_transport; [exact Hw1 | apply Hd | apply respond_answers].
      * eapply onlyAnswered_transport;
          [exact Hw1 | apply Hd | apply respond_onlyAnswered].
    + intros x -> Hx Hg. rewrite Hx, Hg. split; [|reflexivity]. simpl fst.
      eapply unanswered_transport; [exact Hw1 | apply Hd].
    + intros Hf. destruct cur as [x|]; simpl in Hf; [rewrite Hf|];
        (split; [|reflexivity]); simpl fst;
        (eapply unanswered_transport; [exact Hw1 | apply Hd]).
Qed.

(** The theorem at work on the route by timestamp, with another command
    remembered: "Users" was stamped at 12:00:01 and "status" at 12:00:02,
    and "status" is the open command; a line of 12:00:01 answers "Users"
    and leaves "status" pending, registered and remembered. *)
Lemma command_response_priority_witness :
  let w := (fold_left (handleLine Sample.killTable Sample.patterns Sample.server1)
              [Sample.executing "12:00:01" "Users"; Sample.executing "12:00:02" "status"]
              (Sample.inflight2, None)).1 in
  let r := handleLine Sample.killTable Sample.patterns Sample.server1
             (w, Some "status") (Sample.line "12:00:01" "2 users") in
  outcome r.1 0 = Some {| ok := true; response := Some "2 users"; error := None |} /\
  outcome r.1 1 = None /\
  List.map cr_command (commands r.1) = ["status"] /\
  List.map tid (timers r.1) = [1] /\
  r.2 = Some "status".
Proof.
  intros w r.
  pose proof (command_response_priority Sample.killTable Sample.patterns
                Sample.server1 w (Some "status")
                (Sample.line "12:00:01" "2 users")
                [Sample.line "12:00:01" "2 users"; "12:00:01"; "2 users"]
                (emit w Sample.server1 (Message "2 users"))
                eq_refl eq_refl eq_refl) as H.
  cbv zeta in H. destruct H as [H _].
  destruct (H {| cr_identifier := "server1"; cr_command := "Users";
                 cr_timestamp := Some "12:00:01"; cr_timeout := Some 0;
                 cr_resolve := 0 |} eq_refl eq_refl)
    as ((Ha & _) & (Hc & Ht & Hp) & Hb).
  split; [exact Ha|]. split; [exact (Hp 1 ltac:(discriminate))|].
  unfold r. split; [rewrite Hc; vm_compute; reflexivity|].
  split; [rewrite Ht; vm_compute; reflexivity | exact Hb].
Defined.

(** C1 as stated fails in two ways.  First, after the usual exchange (the
    start marker of "Users" at 12:00:01, answered by the next line of the
    same timestamp) the open command is still remembered; the following
    line finds no command stamped 12:00:02, and yet "Users" is not resolved
    with that line and the marker is not cleared.  Second, with "Users"
    stamped 12:00:01, the start marker of "status" at 12:00:01 is a line of
    that timestamp that does not begin with "[ SAVE ]", and yet "Users"
    stays pending and registered. *)
Lemma command_response_priority_counterexample :
  let step := handleLine Sample.killTable Sample.patterns Sample.server1 in
  (let st := fold_left step
               [Sample.executing "12:00:01" "Users"; Sample.line "12:00:01" "2 users"]
               (Sample.inflight1, None) in
   let st' := step st (Sample.line "12:00:02" "id name ping") in
   st.2 = Some "Users" /\
   CommandHandler.getQueued (commands st.1) "server1" "12:00:02" = None /\
   st'.2 = Some "Users" /\
   outcome st'.1 0 = Some {| ok := true; response := Some "2 users"; error := None |}) /\
  (let st := step (Sample.inflight2, None) (Sample.executing "12:00:01" "Users") in
   let st' := step st (Sample.executing "12:00:01" "status") in
   (exists c, CommandHandler.getQueued (commands st.1) "server1" "12:00:01" = Some c /\
              cr_command c = "Users") /\
   JS.startsWith "Executing console system command 'status'" "[ SAVE ]" = false /\
   outcome st'.1 0 = None /\
   (exists c, CommandHandler.get (commands st'.1) "server1" "Users" = Some c)).
Proof.
  cbv zeta. split.
  - repeat split; vm_compute; reflexivity.
  - split; [|split; [|split]].
    + eexists. split; vm_compute; reflexivity.
    + reflexivity.
    + vm_compute; reflexivity.
    + eexists. vm_compute; reflexivity.
Qed.

(** ** The radio poller *)

Lemma lostStep_server broadcasts st freq :
  identifier (lostStep broadcasts st freq).2 = identifier st.2 /\
  (NoDup (frequencies st.2) -> NoDup (frequencies (lostStep broadcasts st freq).2)).
Proof.
  destruct st as [w s]. unfold lostStep.
  destruct (existsb _ broadcasts); simpl; [done|].
  split; [done|]. apply NoDup_filter.
Qed.

Lemma gainedStep_server st b :
  identifier (gainedStep st b).2 = identifier st.2 /\
  (NoDup (frequencies st.2) -> NoDup (frequencies (gainedStep st b).2)).
Proof.
  destruct st as [w s]. unfold gainedStep.
  case_bool_decide as Hin; simpl; [done|].
  split; [done|]. intros Hnd.
  apply NoDup_app. split; [exact Hnd|]. split; [|apply NoDup_singleton].
  intros x Hx Hx'. apply list_elem_of_singleton in Hx'. by subst x.
Qed.

Lemma fold_left_server {A} (f : World * RustServer -> A -> World * RustServer)
    (l : list A) (st : World * RustServer) :
  (forall st a, identifier (f st a).2 = identifier st.2 /\
                (NoDup (frequencies st.2) -> NoDup (frequencies (f st a).2))) ->
  identifier (fold_left f l st).2 = identifier st.2 /\
  (NoDup (frequencies st.2) -> NoDup (frequencies (fold_left f l st).2)).
Proof.
  intros Hf. revert st. induction l as [|a l IH]; intros st; simpl; [done|].
  destruct (IH (f st a)) as [Hi Hn]. destruct (Hf st a) as [Hi' Hn'].
  split; [congruence | auto].
Qed.

(** C10.  A run of the radio poller keeps the frequency list of the server
    free of duplicates: whatever the command returned, if the list had no
    duplicates before the run it has none afterwards; and when the run got a
    response, that server is the one stored in the manager. *)
Theorem radio_poller_keeps_frequencies_distinct
    (w : World) (s : RustServer) (broadcasters : CommandResponse) :
  NoDup (frequencies s) ->
  let r := updateBroadcasters_resume w s broadcasters in
  NoDup (frequencies r.2) /\
  (JS.truthy_opt (response broadcasters) = true ->
   servers r.1 !! identifier s = Some r.2).
Proof.
  intros Hnd. unfold updateBroadcasters_resume.
  destruct (JS.truthy_opt (response broadcasters)); [|by split].
  set (broadcasts := parseBroadcasts _).
  set (st1 := fold_left (lostStep broadcasts) (frequencies s) (w, s)).
  destruct (fold_left_server (lostStep broadcasts) (frequencies s) (w, s)
              (lostStep_server broadcasts)) as [Hi1 Hn1].
  destruct (fold_left_server gainedStep broadcasts st1 gainedStep_server)
    as [Hi2 Hn2].
  fold st1 in Hi1, Hn1.
  destruct (fold_left gainedStep broadcasts st1) as [w2 s2] eqn:Hst2.
  simpl in *. split; [auto|].
  intros _. rewrite <- Hi1, <- Hi2. apply lookup_insert_eq.
Qed.

Lemma radio_poller_keeps_frequencies_distinct_witness :
  NoDup (frequencies
    (updateBroadcasters_resume Sample.world1 Sample.server1
       {| ok := true;
          response := Some "[4768 MHz] Position: (1.5, -2.0, 3), Range: 100 [4768 MHz] Position: (0, 0, 0), Range: 5";
          error := None |}).2).
Proof.
  apply (radio_poller_keeps_frequencies_distinct Sample.world1 Sample.server1).
  simpl. apply NoDup_singleton.
Defined.

(** C6.  A run of the radio poller for a server whose stored frequencies
    are exactly 4765, on a response in which the scan finds one broadcast,
    at 4768 MHz, emits three events: frequency lost for 4765, the start of
    the timed event "Oil Rig", and frequency gained for 4768 with the
    coordinates and the range of the broadcast.  Afterwards the stored
    frequencies are exactly 4768. *)
Theorem radio_poller_swaps_4765_for_4768
    (w : World) (s : RustServer) (broadcasters : CommandResponse)
    (text : string) (b : Broadcast) :
  frequencies s = [4765%N] ->
  response broadcasters = Some text ->
  parseBroadcasts text = [b] ->
  frequency b = 4768%N ->
  let r := updateBroadcasters_resume w s broadcasters in
  newEvents w r.1
  = [ {| server := identifier s; payload := FrequencyLost 4765 |};
      {| server := identifier s; payload := EventStart "Oil Rig" false |};
      {| server := identifier s;
         payload := FrequencyGained 4768 (coordinates b) (range b) |} ] /\
  frequencies r.2 = [4768%N] /\
  servers r.1 !! identifier s = Some r.2.
Proof.
  intros Hf Hr Hp Hb. unfold updateBroadcasters_resume. rewrite Hr. simpl.
  assert (Ht : JS.truthy text = true).
  { destruct text; [discriminate Hp | reflexivity]. }
  rewrite Ht, Hp, Hf. destruct b as [f c rg]. simpl in Hb. subst f. simpl.
  rewrite Hf. simpl. unfold newEvents. simpl.
  rewrite <- !app_assoc, drop_app_length. simpl.
  repeat split. apply lookup_insert_eq.
Qed.

Lemma radio_poller_swaps_4765_for_4768_witness :
  let r := updateBroadcasters_resume Sample.world1 Sample.server1
             {| ok := true;
                response := Some "[4768 MHz] Position: (1.5, -2.0, 3), Range: 100";
                error := None |} in
  newEvents Sample.world1 r.1
  = [ {| server := "server1"; payload := FrequencyLost 4765 |};
      {| server := "server1"; payload := EventStart "Oil Rig" false |};
      {| server := "server1";
         payload := FrequencyGained 4768 ["1.5"; "-2.0"; "3"] 100 |} ] /\
  frequencies r.2 = [4768%N].
Proof.
  cbv zeta.
  destruct (radio_poller_swaps_4765_for_4768 Sample.world1 Sample.server1
              {| ok := true;
                 response := Some "[4768 MHz] Position: (1.5, -2.0, 3), Range: 100";
                 error := None |}
              "[4768 MHz] Position: (1.5, -2.0, 3), Range: 100"
              {| frequency := 4768; coordinates := ["1.5"; "-2.0"; "3"]; range := 100 |}
              eq_refl eq_refl eq_refl eq_refl) as (H1 & H2 & _).
  split; [exact H1 | exact H2].
Defined.

(** ** The registry *)

Lemma hasKey_true ident cmd r :
  hasKey ident cmd r = true <-> cr_identifier r = ident /\ cr_command r = cmd.
Proof.
  unfold hasKey. rewrite andb_true_iff, !String.eqb_eq. tauto.
Qed.

Lemma get_Some reg ident cmd r :
  CommandHandler.get reg ident cmd = Some r ->
  cr_identifier r = ident /\ cr_command r = cmd /\ r ∈ reg.
Proof.
  unfold CommandHandler.get. intros H. apply find_some in H.
  destruct H as [Hin Hk]. apply hasKey_true in Hk.
  destruct Hk. by rewrite list_elem_of_In.
Qed.

Lemma find_app_None {A} (f : A -> bool) (l k : list A) :
  List.find f l = None -> List.find f (l ++ k) = List.find f k.
Proof.
  induction l as [|x l IH]; simpl; [done|]. destruct (f x); [done | exact IH].
Qed.

Lemma get_add reg r :
  is_Some (CommandHandler.get (CommandHandler.add reg r)
             (cr_identifier r) (cr_command r)).
Proof.
  unfold CommandHandler.add.
  destruct (CommandHandler.get reg _ _) as [r0|] eqn:Hg.
  - rewrite Hg. by eexists.
  - unfold CommandHandler.get in *. rewrite (find_app_None _ _ _ Hg). simpl.
    assert (Hk : hasKey (cr_identifier r) (cr_command r) r = true)
      by by apply hasKey_true.
    rewrite Hk. by eexists.
Qed.

Lemma elem_of_add reg r x :
  x ∈ CommandHandler.add reg r -> x ∈ reg \/ x = r.
Proof.
  unfold CommandHandler.add. destruct (CommandHandler.get reg _ _); [tauto|].
  rewrite elem_of_app, list_elem_of_singleton. tauto.
Qed.

Lemma elem_of_remove reg o x :
  x ∈ CommandHandler.remove reg o ->
  x ∈ reg /\
  forall r, o = Some r -> hasKey (cr_identifier r) (cr_command r) x = false.
Proof.
  destruct o as [r|]; simpl.
  - rewrite list_elem_of_In, filter_In, <- list_elem_of_In.
    intros [Hin Hk]. split; [done|]. intros r' [= <-].
    by apply negb_true_iff.
  - intros Hin. split; [done|]. discriminate.
Qed.

Lemma find_filter_None {A} (f g : A -> bool) (l : list A) :
  List.find f l = None -> List.find f (List.filter g l) = None.
Proof.
  induction l as [|x l IH]; simpl; [done|].
  destruct (f x) eqn:Hf; [discriminate|]. intros H.
  destruct (g x); simpl; [rewrite Hf|]; auto.
Qed.

Lemma get_remove_None reg o ident cmd :
  CommandHandler.get reg ident cmd = None ->
  CommandHandler.get (CommandHandler.remove reg o) ident cmd = None.
Proof.
  destruct o as [r|]; simpl; [|done]. apply find_filter_None.
Qed.

Lemma get_store reg ident cmd r h :
  CommandHandler.get reg ident cmd = Some r ->
  CommandHandler.get (CommandHandler.store reg (set_timeout r h)) ident cmd
  = Some (set_timeout r h).
Proof.
  intros Hg. destruct (get_Some _ _ _ _ Hg) as (Hi & Hc & _).
  unfold CommandHandler.get, CommandHandler.store in *. simpl.
  rewrite Hi, Hc.
  assert (Hk' : hasKey ident cmd (set_timeout r h) = true)
    by (apply hasKey_true; by simpl).
  induction reg as [|x reg IH]; simpl in *; [discriminate|].
  destruct (hasKey ident cmd x) eqn:Hk; simpl.
  - by rewrite Hk'.
  - rewrite Hk. apply IH, Hg.
Qed.

(** ** Promises and timers *)

Lemma outcome_resolve w p v :
  outcome (resolve w p v) p = Some (default v (outcome w p)).
Proof.
  unfold outcome, resolve. destruct (settled w !! p) eqn:Hs; simpl.
  - exact Hs.
  - apply lookup_insert_eq.
Qed.

Lemma outcome_resolve_ne w p q v :
  p <> q -> outcome (resolve w q v) p = outcome w p.
Proof.
  intros Hne. unfold outcome, resolve. destruct (settled w !! q); simpl; [done|].
  by apply lookup_insert_ne.
Qed.

Lemma outcome_runTimer w t p :
  outcome (runTimer w t) p
  = match outcome w p with
    | Some v => Some v
    | None => if Nat.eqb (promiseOf (callback t)) p then Some emptySuccess else None
    end.
Proof.
  unfold runTimer. destruct (callback t) as [i c q]. simpl.
  destruct (Nat.eqb_spec q p) as [->|Hne].
  - rewrite outcome_resolve. unfold outcome. simpl. by destruct (settled w !! p).
  - rewrite outcome_resolve_ne by congruence. unfold outcome. simpl.
    by destruct (settled w !! p).
Qed.

Lemma outcome_fold_runTimer l w p :
  outcome (fold_left runTimer l w) p
  = match outcome w p with
    | Some v => Some v
    | None =>
        if existsb (fun t => Nat.eqb (promiseOf (callback t)) p) l
        then Some emptySuccess else None
    end.
Proof.
  revert w. induction l as [|t l IH]; intros w; simpl.
  - by destruct (outcome w p).
  - rewrite IH, outcome_runTimer. destruct (outcome w p); [done|].
    by destruct (Nat.eqb _ p).
Qed.

Lemma get_runTimer_None w t ident cmd :
  CommandHandler.get (commands w) ident cmd = None ->
  CommandHandler.get (commands (runTimer w t)) ident cmd = None.
Proof.
  intros Hg. unfold runTimer. destruct (callback t) as [i c q]. simpl.
  unfold resolve. destruct (settled _ !! q); simpl; by apply get_remove_None.
Qed.

Lemma get_removeInFlight w ident cmd :
  CommandHandler.get (commands (removeInFlight w ident cmd)) ident cmd = None.
Proof.
  unfold removeInFlight. simpl.
  destruct (CommandHandler.get (commands w) ident cmd) as [r|] eqn:Hg; simpl.
  - destruct (get_Some _ _ _ _ Hg) as (Hi & Hc & _).
    rewrite <- Hi, <- Hc. apply get_remove.
  - exact Hg.
Qed.

Lemma get_fold_runTimer_None l w ident cmd :
  CommandHandler.get (commands w) ident cmd = None ->
  CommandHandler.get (commands (fold_left runTimer l w)) ident cmd = None.
Proof.
  revert w. induction l as [|t l IH]; intros w Hg; simpl; [done|].
  by apply IH, get_runTimer_None.
Qed.

Lemma get_fold_runTimer l w ident cmd q t :
  In t l -> callback t = CommandTimeout ident cmd q ->
  CommandHandler.get (commands (fold_left runTimer l w)) ident cmd = None.
Proof.
  revert w. induction l as [|t' l IH]; intros w Hin Hcb; simpl; [done|].
  destruct Hin as [->|Hin]; [|by apply IH].
  apply get_fold_runTimer_None. unfold runTimer. rewrite Hcb. simpl.
  unfold resolve. destruct (settled _ !! _); simpl; apply get_removeInFlight.
Qed.

Lemma In_insertByDue x t l : In x (insertByDue t l) <-> x = t \/ In x l.
Proof.
  induction l as [|y l IH]; simpl; [intuition|].
  destruct (due t <=? due y)%N; simpl; [intuition|].
  rewrite IH. intuition.
Qed.

Lemma In_sortByDue x l : In x (sortByDue l) <-> In x l.
Proof.
  unfold sortByDue. induction l as [|y l IH]; simpl; [done|].
  rewrite In_insertByDue, IH. intuition.
Qed.

(** ** Dispatching a command *)

Lemma command_start_accepted w ident cmd :
  refused w ident = None ->
  command_start w ident cmd
  = (set_commands (set_nextPromise w (S (nextPromise w)))
       (CommandHandler.add (commands w)
          {| cr_identifier := ident; cr_command := cmd; cr_timestamp := None;
             cr_timeout := None; cr_resolve := nextPromise w |}),
     Awaiting (nextPromise w)).
Proof. intros H. unfold command_start. by rewrite H. Qed.

Lemma wellFormed_pending w : wellFormed w -> outcome w (nextPromise w) = None.
Proof.
  intros (_ & Hs & _). unfold outcome.
  destruct (settled w !! nextPromise w) as [v|] eqn:E; [|done].
  apply Hs in E. lia.
Qed.

Lemma elem_of_removeInFlight w ident cmd x :
  x ∈ commands (removeInFlight w ident cmd) ->
  x ∈ commands w /\ hasKey ident cmd x = false.
Proof.
  unfold removeInFlight. simpl. intros Hx.
  destruct (elem_of_remove _ _ _ Hx) as [Hin Hk]. split; [done|].
  destruct (CommandHandler.get (commands w) ident cmd) as [r|] eqn:Hg.
  - destruct (get_Some _ _ _ _ Hg) as (Hi & Hc & _).
    specialize (Hk r eq_refl). by rewrite Hi, Hc in Hk.
  - unfold CommandHandler.get in Hg.
    apply (find_none _ _ Hg). by apply list_elem_of_In.
Qed.

(** The step every failure path takes: drop the entry, resolve as failed. *)
Lemma fail_step w ident cmd p v :
  let w' := resolve (removeInFlight w ident cmd) p v in
  outcome w' p = Some (default v (outcome w p)) /\
  CommandHandler.get (commands w') ident cmd = None /\
  timers w' = timers w /\
  (forall x, x ∈ commands w' -> x ∈ commands w /\ hasKey ident cmd x = false).
Proof.
  cbv zeta. split; [|split; [|split]].
  - by rewrite outcome_resolve.
  - unfold resolve. destruct (settled _ !! p); simpl; apply get_removeInFlight.
  - unfold resolve. by destruct (settled _ !! p).
  - intros x. unfold resolve.
    destruct (settled _ !! p); simpl; apply elem_of_removeInFlight.
Qed.

Lemma command_settle_failure w ident cmd p o j reason :
  failureReason o j = Some reason ->
  outcome w p = None ->
  let w' := command_settle w ident cmd p o j in
  outcome w' p = Some (failure reason) /\
  CommandHandler.get (commands w') ident cmd = None /\
  timers w' = timers w /\
  (forall x, x ∈ commands w' -> x ∈ commands w /\ hasKey ident cmd x = false).
Proof.
  intros Hf Hp. cbv zeta. unfold command_settle, command_onFetch.
  destruct o as [message | status statusText]; simpl in Hf.
  - injection Hf as <-.
    destruct (fail_step w ident cmd p (failure message)) as (H1 & H2 & H3 & H4).
    rewrite Hp in H1. exact (conj H1 (conj H2 (conj H3 H4))).
  - destruct (negb (responseOk status)) eqn:Hok.
    + injection Hf as <-.
      set (v := failure ("HTTP " ++ decimal status ++ " " ++ statusText)).
      destruct (fail_step w ident cmd p v) as (H1 & H2 & H3 & H4).
      rewrite Hp in H1. simpl in H1.
      set (wa := resolve (removeInFlight w ident cmd) p v) in *.
      unfold command_onJson.
      destruct j as [message | []].
      * destruct (fail_step wa ident cmd p (failure message)) as (G1 & G2 & G3 & G4).
        rewrite H1 in G1. simpl in G1.
        split; [done|]. split; [done|]. split; [congruence|].
        intros x Hx. destruct (G4 x Hx) as [Hx' _]. by apply H4.
      * simpl negb. cbv iota. rewrite H2. exact (conj H1 (conj H2 (conj H3 H4))).
      * simpl negb. cbv iota.
        destruct (fail_step wa ident cmd p (failure "AioRpcError"))
          as (G1 & G2 & G3 & G4).
        rewrite G2. rewrite H1 in G1. simpl in G1.
        split; [done|]. split; [done|]. split; [congruence|].
        intros x Hx. destruct (G4 x Hx) as [Hx' _]. by apply H4.
    + unfold command_onJson. destruct j as [message | []].
      * injection Hf as <-.
        destruct (fail_step w ident cmd p (failure message)) as (H1 & H2 & H3 & H4).
        rewrite Hp in H1. exact (conj H1 (conj H2 (conj H3 H4))).
      * discriminate Hf.
      * injection Hf as <-. simpl negb. cbv iota.
        destruct (fail_step w ident cmd p (failure "AioRpcError"))
          as (H1 & H2 & H3 & H4).
        rewrite H2. rewrite Hp in H1. exact (conj H1 (conj H2 (conj H3 H4))).
Qed.

Lemma outcome_advance w d p :
  outcome (advance w d) p
  = match outcome w p with
    | Some v => Some v
    | None =>
        if existsb (fun t => Nat.eqb (promiseOf (callback t)) p)
             (sortByDue (List.filter (isDue (now w + d)) (timers w)))
        then Some emptySuccess else None
    end.
Proof. unfold advance. apply (outcome_fold_runTimer _ (set_timers w _) p). Qed.

(** A manager with no timer, no settled promise and no in-flight command
    is well-formed. *)
Lemma wellFormed_empty w :
  timers w = [] -> settled w = ∅ -> commands w = [] -> wellFormed w.
Proof.
  intros Ht Hs Hc. split; [|split].
  - intros t Hin. rewrite Ht in Hin. by apply elem_of_nil in Hin.
  - intros q v Hq. rewrite Hs in Hq. by rewrite lookup_empty in Hq.
  - intros r Hin. rewrite Hc in Hin. by apply elem_of_nil in Hin.
Qed.

(** The timer armed by an acknowledged dispatch. *)
Lemma command_settle_success w ident cmd p status statusText r :
  responseOk status = true ->
  CommandHandler.get (commands w) ident cmd = Some r ->
  let w' := command_settle w ident cmd p (FetchResponse status statusText)
              (JsonData true) in
  timers w' = (timers w ++ [{| tid := nextTimer w; due := (now w + 3000)%N;
                               callback := CommandTimeout ident cmd p |}])%list /\
  settled w' = settled w /\ now w' = now w /\
  CommandHandler.get (commands w') ident cmd
  = Some (set_timeout r (Some (nextTimer w))).
Proof.
  intros Hok Hg. cbv zeta. unfold command_settle, command_onFetch.
  rewrite Hok. simpl. rewrite Hg. simpl.
  repeat split. by apply get_store.
Qed.

(** From the acknowledgement on: whatever else is pending, the promise of
    an acknowledged command whose entry is registered stays pending for
    3000 ms and then holds the empty success, and the entry is gone. *)
Lemma acknowledged_command_times_out w ident cmd p status statusText r d :
  responseOk status = true ->
  CommandHandler.get (commands w) ident cmd = Some r ->
  outcome w p = None ->
  (forall t, t ∈ timers w -> promiseOf (callback t) <> p) ->
  let w2 := command_settle w ident cmd p (FetchResponse status statusText)
              (JsonData true) in
  is_Some (CommandHandler.get (commands w2) ident cmd) /\
  outcome w2 p = None /\
  ((d < 3000)%N -> outcome (advance w2 d) p = None) /\
  ((3000 <= d)%N ->
   outcome (advance w2 d) p = Some emptySuccess /\
   CommandHandler.get (commands (advance w2 d)) ident cmd = None).
Proof.
  intros Hok Hr Hp Hothers.
  destruct (command_settle_success w ident cmd p status statusText r Hok Hr)
    as (Ht & Hs & Hn & Hg).
  cbv zeta.
  set (w2 := command_settle w _ _ _ _ _) in *.
  set (own := {| tid := nextTimer w; due := (now w + 3000)%N;
                 callback := CommandTimeout ident cmd p |}) in *.
  assert (Hp2 : outcome w2 p = None) by (unfold outcome in *; by rewrite Hs).
  split; [by rewrite Hg|]. split; [exact Hp2|]. split.
  - intros Hd. rewrite outcome_advance, Hp2.
    destruct (existsb _ _) eqn:E; [|reflexivity]. exfalso.
    apply existsb_exists in E. destruct E as (t & Hin & Hq).
    apply In_sortByDue, filter_In in Hin. destruct Hin as [Hin Hdue].
    apply Nat.eqb_eq in Hq. rewrite Ht in Hin. apply in_app_or in Hin.
    destruct Hin as [Hin | [<- | []]].
    + apply list_elem_of_In in Hin. by apply (Hothers t).
    + unfold isDue, own in Hdue. cbn [due] in Hdue. apply N.leb_le in Hdue.
      rewrite Hn in Hdue. lia.
  - intros Hd.
    assert (Hin : In own (sortByDue (List.filter (isDue (now w2 + d)) (timers w2)))).
    { apply In_sortByDue, filter_In. split.
      - rewrite Ht. apply in_or_app. right. by left.
      - unfold isDue, own. cbn [due]. apply N.leb_le. rewrite Hn. lia. }
    split.
    + rewrite outcome_advance, Hp2.
      assert (E : existsb (fun t => Nat.eqb (promiseOf (callback t)) p)
                    (sortByDue (List.filter (isDue (now w2 + d)) (timers w2))) = true).
      { apply existsb_exists. exists own. split; [exact Hin|]. apply Nat.eqb_refl. }
      by rewrite E.
    + unfold advance. simpl.
      by apply (get_fold_runTimer _ _ ident cmd p own Hin).
Qed.

(** *** Time passing between the dispatch and its acknowledgement *)

Lemma find_filter_keep {A} (f g : A -> bool) (l : list A) :
  (forall x, f x = true -> g x = true) ->
  List.find f (List.filter g l) = List.find f l.
Proof.
  intros Hfg. induction l as [|x l IH]; simpl; [done|].
  destruct (f x) eqn:Hf.
  - rewrite (Hfg x Hf). simpl. by rewrite Hf.
  - destruct (g x); simpl; [rewrite Hf|]; exact IH.
Qed.

Lemma get_runTimer_other w t ident cmd :
  (forall q, callback t <> CommandTimeout ident cmd q) ->
  CommandHandler.get (commands (runTimer w t)) ident cmd
  = CommandHandler.get (commands w) ident cmd.
Proof.
  intros Hne. unfold runTimer. destruct (callback t) as [i c q]. simpl.
  assert (Hc : commands (resolve (removeInFlight w i c) q emptySuccess)
               = commands (removeInFlight w i c)).
  { unfold resolve. by destruct (settled _ !! q). }
  rewrite Hc. unfold removeInFlight. simpl.
  destruct (CommandHandler.get (commands w) i c) as [r0|] eqn:Hg; [|done].
  destruct (get_Some _ _ _ _ Hg) as (Hi & Hk & _). simpl.
  unfold CommandHandler.get. apply find_filter_keep.
  intros x Hx. apply hasKey_true in Hx. destruct Hx as [Hx1 Hx2].
  apply negb_true_iff. destruct (hasKey _ _ x) eqn:E; [|done].
  apply hasKey_true in E. destruct E as [E1 E2].
  exfalso. apply (Hne q). congruence.
Qed.

Lemma get_fold_runTimer_other l w ident cmd :
  (forall t q, In t l -> callback t <> CommandTimeout ident cmd q) ->
  CommandHandler.get (commands (fold_left runTimer l w)) ident cmd
  = CommandHandler.get (commands w) ident cmd.
Proof.
  revert w. induction l as [|t l IH]; intros w Hl; simpl; [done|].
  rewrite IH by (intros t' q Hin; apply Hl; by right).
  apply get_runTimer_other. intros q. apply Hl. by left.
Qed.

Lemma timers_fold_runTimer l w : timers (fold_left runTimer l w) = timers w.
Proof.
  revert w. induction l as [|t l IH]; intros w; simpl; [done|].
  rewrite IH. unfold runTimer. destruct (callback t) as [i c q]. simpl.
  unfold resolve. by destruct (settled _ !! q).
Qed.

Lemma timers_advance w d :
  timers (advance w d)
  = List.filter (fun x => negb (isDue (now w + d) x)) (timers w).
Proof. unfold advance. simpl. by rewrite timers_fold_runTimer. Qed.

(** The timeout behaves the same when [latency] ms pass between the
    dispatch and its acknowledgement, as long as no timeout of an earlier
    dispatch of the same text is pending for the session when the command
    is sent. *)
Lemma command_times_out_after_latency
    (w : World) (ident cmd : string) (status : N) (statusText : string)
    (latency d : N) :
  wellFormed w ->
  refused w ident = None ->
  responseOk status = true ->
  (forall t q, t ∈ timers w -> callback t <> CommandTimeout ident cmd q) ->
  let p := nextPromise w in
  let w1 := advance (command_start w ident cmd).1 latency in
  let w2 := command_settle w1 ident cmd p (FetchResponse status statusText)
              (JsonData true) in
  outcome w2 p = None /\
  ((d < 3000)%N -> outcome (advance w2 d) p = None) /\
  ((3000 <= d)%N ->
   outcome (advance w2 d) p = Some emptySuccess /\
   CommandHandler.get (commands (advance w2 d)) ident cmd = None).
Proof.
  intros Hwf Href Hok Hquiet p w1 w2. subst w1 w2.
  rewrite (command_start_accepted w ident cmd Href). simpl fst.
  set (record := {| cr_identifier := ident; cr_command := cmd;
                    cr_timestamp := None; cr_timeout := None;
                    cr_resolve := nextPromise w |}).
  set (w0 := set_commands _ _).
  destruct (get_add (commands w) record) as [r Hr].
  assert (Hothers : forall t, In t (timers w0) -> promiseOf (callback t) <> p).
  { intros t Hin. destruct Hwf as (Htm & _ & _).
    apply list_elem_of_In, Htm in Hin. unfold p. lia. }
  set (fired := sortByDue (List.filter (isDue (now w0 + latency)) (timers w0))).
  assert (Hfired : forall t, In t fired -> In t (timers w0)).
  { intros t Hin. apply In_sortByDue, filter_In in Hin. tauto. }
  assert (Hg : CommandHandler.get (commands (advance w0 latency)) ident cmd = Some r).
  { unfold advance. simpl. fold fired.
    rewrite get_fold_runTimer_other; [exact Hr|].
    intros t q Hin. apply Hquiet. apply list_elem_of_In. by apply Hfired. }
  assert (Hp : outcome (advance w0 latency) p = None).
  { rewrite outcome_advance. fold fired.
    replace (outcome w0 p) with (@None CommandResponse)
      by (symmetry; exact (wellFormed_pending w Hwf)).
    destruct (existsb _ fired) eqn:E; [|reflexivity]. exfalso.
    apply existsb_exists in E. destruct E as (t & Hin & Hq).
    apply Nat.eqb_eq in Hq. by apply (Hothers t (Hfired t Hin)). }
  assert (Hrest : forall t, t ∈ timers (advance w0 latency) ->
                            promiseOf (callback t) <> p).
  { intros t Hin. rewrite timers_advance in Hin.
    apply list_elem_of_In, filter_In in Hin. apply Hothers. tauto. }
  destruct (acknowledged_command_times_out (advance w0 latency) ident cmd p
              status statusText r d Hok Hg Hp Hrest) as (_ & H2 & H3 & H4).
  split; [exact H2|]. split; [exact H3 | exact H4].
Qed.

(** A reply that is processed when the registry has no entry for the
    session and command arms no timer: the state is left as it is. *)
Lemma command_settle_without_entry w ident cmd p status statusText :
  responseOk status = true ->
  CommandHandler.get (commands w) ident cmd = None ->
  command_settle w ident cmd p (FetchResponse status statusText) (JsonData true) = w.
Proof.
  intros Hok Hg. unfold command_settle, command_onFetch.
  rewrite Hok. simpl. by rewrite Hg.
Qed.

(** Two dispatches of the same text for one session share the registry
    entry.  Here the second is sent 2990 ms after the first was
    acknowledged and is itself acknowledged 20 ms later, after the first
    one's timeout has removed the entry: nothing is armed for the second
    promise, which stays pending however much time passes. *)
Lemma colliding_dispatch_stays_pending (d : N) :
  let w1 := (command_start (advance Sample.inflight1 2990) "server1" "Users").1 in
  let w2 := command_settle (advance w1 20) "server1" "Users" 1
              (FetchResponse 200 "OK") (JsonData true) in
  outcome w2 0 = Some emptySuccess /\ outcome (advance w2 d) 1 = None.
Proof.
  cbv zeta. split; [vm_compute; reflexivity|].
  rewrite outcome_advance.
  set (w2 := command_settle _ _ _ _ _ _).
  assert (Ht : timers w2 = []) by (vm_compute; reflexivity).
  assert (Hp : outcome w2 1 = None) by (vm_compute; reflexivity).
  by rewrite Hp, Ht.
Qed.

(** ** Well-formed states *)

(** Every operation of the model keeps promise identifiers below the
    allocation counter, so the states reached from an empty manager are
    well-formed. *)

Lemma wellFormed_fields w w' :
  timers w' = timers w -> settled w' = settled w -> commands w' = commands w ->
  nextPromise w' = nextPromise w -> wellFormed w -> wellFormed w'.
Proof. unfold wellFormed. intros -> -> -> ->. done. Qed.

Lemma wellFormed_sameBookkeeping w w' :
  sameBookkeeping w w' -> wellFormed w -> wellFormed w'.
Proof.
  intros (_ & _ & Hc & Ht & _ & Hs & Hn & _). by apply wellFormed_fields.
Qed.

Lemma wellFormed_resolve w p v :
  p < nextPromise w -> wellFormed w -> wellFormed (resolve w p v).
Proof.
  intros Hp (Ht & Hs & Hr). unfold resolve.
  destruct (settled w !! p) eqn:E; [done|].
  split; [exact Ht|]. split; [|exact Hr].
  intros q v' Hq. simpl in *. destruct (decide (p = q)) as [<-|Hne]; [done|].
  rewrite lookup_insert_ne in Hq by done. by eapply Hs.
Qed.

Lemma wellFormed_set_commands w reg :
  (forall r, r ∈ reg -> cr_resolve r < nextPromise w) ->
  wellFormed w -> wellFormed (set_commands w reg).
Proof. intros Hreg (Ht & Hs & _). by repeat split. Qed.

Lemma wellFormed_removeInFlight w ident cmd :
  wellFormed w -> wellFormed (removeInFlight w ident cmd).
Proof.
  intros Hwf. apply wellFormed_set_commands; [|done].
  intros r Hr. apply elem_of_remove in Hr. destruct Hwf as (_ & _ & Hreg).
  apply Hreg. tauto.
Qed.

Lemma wellFormed_clearTimeout w h :
  wellFormed w -> wellFormed (clearTimeout w h).
Proof.
  intros (Ht & Hs & Hr). destruct h as [n|]; [|done].
  split; [|by split]. intros t Hin. simpl in Hin.
  apply list_elem_of_In, filter_In in Hin. apply Ht, list_elem_of_In. tauto.
Qed.

Lemma elem_of_store reg r x :
  x ∈ CommandHandler.store reg r -> x ∈ reg \/ x = r.
Proof.
  unfold CommandHandler.store. rewrite list_elem_of_In, in_map_iff.
  intros (y & Hy & Hin). apply list_elem_of_In in Hin.
  destruct (hasKey _ _ y); subst; tauto.
Qed.

Lemma wellFormed_respond w c log :
  c ∈ commands w -> wellFormed w -> wellFormed (respond w c log).
Proof.
  intros Hc Hwf. unfold respond.
  assert (Hp : cr_resolve c < nextPromise w) by (destruct Hwf as (_ & _ & Hr); auto).
  set (w2 := clearTimeout _ _).
  assert (Hw2 : wellFormed w2)
    by (apply wellFormed_clearTimeout, wellFormed_resolve; done).
  apply wellFormed_set_commands; [|exact Hw2].
  intros r Hr. apply elem_of_remove in Hr. destruct Hw2 as (_ & _ & Hreg).
  apply Hreg. tauto.
Qed.

Lemma wellFormed_command_start w ident cmd :
  wellFormed w -> wellFormed (command_start w ident cmd).1.
Proof.
  intros Hwf. unfold command_start. destruct (refused w ident); [done|].
  destruct Hwf as (Ht & Hs & Hr). simpl. split; [|split]; simpl.
  - intros t Hin. apply Ht in Hin. lia.
  - intros p v Hp. apply Hs in Hp. lia.
  - intros r Hin. apply elem_of_add in Hin. destruct Hin as [Hin | ->].
    + apply Hr in Hin. lia.
    + simpl. lia.
Qed.

Lemma wellFormed_command_settle w ident cmd p o j :
  p < nextPromise w -> wellFormed w ->
  wellFormed (command_settle w ident cmd p o j).
Proof.
  intros Hp Hwf.
  assert (Hfail : forall w0 v, wellFormed w0 -> nextPromise w0 = nextPromise w ->
            wellFormed (resolve (removeInFlight w0 ident cmd) p v) /\
            nextPromise (resolve (removeInFlight w0 ident cmd) p v) = nextPromise w).
  { intros w0 v Hw0 Hn. split.
    - apply wellFormed_resolve; [simpl; lia | by apply wellFormed_removeInFlight].
    - unfold resolve. destruct (settled _ !! p); simpl; exact Hn. }
  assert (Hjson : forall w0, wellFormed w0 -> nextPromise w0 = nextPromise w ->
            wellFormed (command_onJson w0 ident cmd p j)).
  { intros w0 Hw0 Hn. unfold command_onJson. destruct j as [message | sent].
    - by apply Hfail.
    - set (w1 := if negb sent then _ else w0).
      assert (Hw1 : wellFormed w1 /\ nextPromise w1 = nextPromise w).
      { unfold w1. destruct sent; simpl; [by split | by apply Hfail]. }
      destruct Hw1 as [Hw1 Hn1].
      destruct (CommandHandler.get (commands w1) ident cmd) as [c|] eqn:Hg; [|done].
      destruct (get_Some _ _ _ _ Hg) as (_ & _ & Hc).
      destruct Hw1 as (Ht & Hs & Hr). simpl. split; [|split]; simpl.
      + intros t Hin. apply elem_of_app in Hin. destruct Hin as [Hin|Hin]; [auto|].
        apply list_elem_of_singleton in Hin. subst t. simpl. lia.
      + exact Hs.
      + intros r Hin. apply elem_of_store in Hin. destruct Hin as [Hin | ->]; [auto|].
        simpl. auto. }
  unfold command_settle, command_onFetch. destruct o as [message | status statusText].
  - by apply Hfail.
  - destruct (negb (responseOk status)).
    + destruct (Hfail w (failure ("HTTP " ++ decimal status ++ " " ++ statusText))
                  Hwf eq_refl) as [Hw1 Hn1].
      by apply Hjson.
    + by apply Hjson.
Qed.

Lemma wellFormed_runTimer w t :
  promiseOf (callback t) < nextPromise w -> wellFormed w ->
  wellFormed (runTimer w t) /\ nextPromise (runTimer w t) = nextPromise w.
Proof.
  intros Hp Hwf. unfold runTimer. destruct (callback t) as [i c q]. simpl in *.
  split.
  - apply wellFormed_resolve; [simpl; lia | by apply wellFormed_removeInFlight].
  - unfold resolve. by destruct (settled _ !! q).
Qed.

Lemma wellFormed_advance w d : wellFormed w -> wellFormed (advance w d).
Proof.
  intros Hwf. unfold advance.
  set (fired := sortByDue _).
  assert (Hfired : forall t, In t fired -> promiseOf (callback t) < nextPromise w).
  { intros t Hin. apply In_sortByDue, filter_In in Hin.
    destruct Hwf as (Ht & _ & _). apply Ht, list_elem_of_In. tauto. }
  set (w1 := set_timers w _).
  assert (Hw1 : wellFormed w1 /\ nextPromise w1 = nextPromise w).
  { split; [|done]. destruct Hwf as (Ht & Hs & Hr). split; [|by split].
    intros t Hin. simpl in Hin. apply list_elem_of_In, filter_In in Hin.
    apply Ht, list_elem_of_In. tauto. }
  clearbody w1 fired.
  assert (H : wellFormed (fold_left runTimer fired w1) /\
              nextPromise (fold_left runTimer fired w1) = nextPromise w).
  { revert w1 Hw1. induction fired as [|t l IH]; intros w1 [Hw1 Hn1]; simpl; [done|].
    apply IH.
    - intros t' Hin. apply Hfired. by right.
    - destruct (wellFormed_runTimer w1 t) as [Hw2 Hn2]; [|done|].
      + rewrite Hn1. apply Hfired. by left.
      + split; [done | congruence]. }
  destruct H as [H _]. revert H. by apply wellFormed_fields.
Qed.

Lemma getQueued_Some reg ident timestamp c :
  CommandHandler.getQueued reg ident timestamp = Some c -> c ∈ reg.
Proof.
  unfold CommandHandler.getQueued. intros H. apply find_some in H.
  apply list_elem_of_In. tauto.
Qed.

Section ClassifierKeepsWellFormed.

Variable playerKillData : list KillEntry.
Variable RE : RegularExpressions.

Lemma wellFormed_emit w s e : wellFormed w -> wellFormed (emit w s e).
Proof. by apply wellFormed_fields. Qed.

Lemma wellFormed_commandExecuting w s date log :
  wellFormed w ->
  match commandExecuting RE w s date log with
  | Returned w' _ => wellFormed w'
  | Continues w' => wellFormed w'
  end.
Proof.
  intros Hwf. unfold commandExecuting.
  destruct (CommandExecuting RE log) as [m|]; [|done].
  set (w1 := emit w s _).
  assert (Hw1 : wellFormed w1) by by apply wellFormed_emit.
  destruct (CommandHandler.get _ _ _) as [c|] eqn:Hg; [|done].
  destruct (negb _); [|done].
  destruct (get_Some _ _ _ _ Hg) as (_ & _ & Hc).
  apply wellFormed_set_commands; [|done].
  destruct Hw1 as (_ & _ & Hr).
  intros r Hin. apply elem_of_add in Hin.
  assert (Hc' : cr_resolve (set_timestamp c (Some date)) < nextPromise w1)
    by (simpl; auto).
  destruct Hin as [Hin | ->]; [|done].
  apply elem_of_store in Hin. destruct Hin as [Hin | ->]; auto.
Qed.

Lemma wellFormed_commandResponse w s cur date log :
  wellFormed w -> wellFormed (commandResponse w s cur date log).1.
Proof.
  intros Hwf. unfold commandResponse.
  assert (Hcur : wellFormed
            (match cur with
             | Some x =>
                 if JS.truthy x then
                   match CommandHandler.get (commands w) (identifier s) x with
                   | Some c => (respond w c log, None)
                   | None => (w, cur)
                   end
                 else (w, cur)
             | None => (w, cur)
             end).1).
  { destruct cur as [x|]; [|done]. destruct (JS.truthy x); [|done].
    destruct (CommandHandler.get _ _ x) as [c|] eqn:Hg; [|done].
    destruct (get_Some _ _ _ _ Hg) as (_ & _ & Hc). by apply wellFormed_respond. }
  destruct (CommandHandler.getQueued _ _ _) as [c|] eqn:Hq; [|exact Hcur].
  destruct (negb _); [|exact Hcur].
  apply wellFormed_respond; [|done]. by eapply getQueued_Some.
Qed.

Lemma wellFormed_handleLine s st data :
  wellFormed st.1 -> wellFormed (handleLine playerKillData RE s st data).1.
Proof.
  destruct st as [w cur]. simpl. intros Hwf. unfold handleLine.
  destruct (Log RE data) as [m|]; [|done]. cbv zeta.
  destruct (negb _); [done|].
  pose proof (wellFormed_commandExecuting (emit w s (Message (JS.trim (group m 2))))
                s (group m 1) (JS.trim (group m 2)) (wellFormed_emit _ _ _ Hwf)) as He.
  destruct (commandExecuting _ _ _ _ _) as [w2 c | w2]; [done|].
  pose proof (wellFormed_commandResponse w2 s cur (group m 1)
                (JS.trim (group m 2)) He) as Hr.
  destruct (commandResponse w2 s cur _ _) as [w3 c]. simpl in *.
  eapply wellFormed_sameBookkeeping; [|exact Hr].
  apply domainEvents_emitted.
Qed.

(** The classifier keeps the state well-formed. *)
Lemma wellFormed_handle w message s :
  wellFormed w -> wellFormed (handle playerKillData RE w message s).1.
Proof.
  intros Hwf. unfold handle. destruct (negb _); simpl.
  - revert Hwf. by apply wellFormed_fields.
  - generalize (messageArray message). intros l.
    assert (H : forall st, wellFormed st.1 ->
                  wellFormed (fold_left (handleLine playerKillData RE s) l st).1).
    { induction l as [|x l IH]; intros st Hst; simpl; [done|].
      apply IH. by apply wellFormed_handleLine. }
    by apply (H (w, None)).
Qed.

End ClassifierKeepsWellFormed.

(** The radio poller only emits events and stores the server. *)
Lemma updateBroadcasters_resume_bookkeeping w s broadcasters :
  let w' := (updateBroadcasters_resume w s broadcasters).1 in
  commands w' = commands w /\ timers w' = timers w /\
  settled w' = settled w /\ nextPromise w' = nextPromise w.
Proof.
  cbv zeta. unfold updateBroadcasters_resume.
  destruct (JS.truthy_opt _); [|done].
  set (broadcasts := parseBroadcasts _).
  assert (Hlost : forall l st,
            commands (fold_left (lostStep broadcasts) l st).1 = commands st.1 /\
            timers (fold_left (lostStep broadcasts) l st).1 = timers st.1 /\
            settled (fold_left (lostStep broadcasts) l st).1 = settled st.1 /\
            nextPromise (fold_left (lostStep broadcasts) l st).1 = nextPromise st.1).
  { induction l as [|f l IH]; intros st; simpl; [done|].
    destruct (IH (lostStep broadcasts st f)) as (H1 & H2 & H3 & H4).
    rewrite H1, H2, H3, H4. destruct st as [w0 s0]. unfold lostStep.
    by destruct (existsb _ broadcasts). }
  assert (Hgained : forall l st,
            commands (fold_left gainedStep l st).1 = commands st.1 /\
            timers (fold_left gainedStep l st).1 = timers st.1 /\
            settled (fold_left gainedStep l st).1 = settled st.1 /\
            nextPromise (fold_left gainedStep l st).1 = nextPromise st.1).
  { induction l as [|b l IH]; intros st; simpl; [done|].
    destruct (IH (gainedStep st b)) as (H1 & H2 & H3 & H4).
    rewrite H1, H2, H3, H4. destruct st as [w0 s0]. unfold gainedStep.
    case_bool_decide; [done|]. simpl.
    destruct (N.eqb (frequency b) 4765); [done|].
    by destruct (N.eqb (frequency b) 4768). }
  destruct (Hlost (frequencies s) (w, s)) as (L1 & L2 & L3 & L4).
  destruct (Hgained broadcasts (fold_left (lostStep broadcasts) (frequencies s) (w, s)))
    as (G1 & G2 & G3 & G4).
  destruct (fold_left gainedStep broadcasts _) as [w2 s2]. simpl in *.
  repeat split; congruence.
Qed.

Lemma wellFormed_updateBroadcasters_resume w s broadcasters :
  wellFormed w -> wellFormed (updateBroadcasters_resume w s broadcasters).1.
Proof.
  destruct (updateBroadcasters_resume_bookkeeping w s broadcasters)
    as (H1 & H2 & H3 & H4).
  by apply wellFormed_fields.
Qed.

(** * Further properties *)

(** ** fetchWithRetry *)

Import FetchWithRetry.

(** The sum [1 + 2 + ... + k]. *)
Lemma triangle_step (k : nat) :
  (N.of_nat k * (N.of_nat k + 1) / 2 + (N.of_nat k + 1)
   = N.of_nat (S k) * (N.of_nat (S k) + 1) / 2)%N.
Proof.
  rewrite Nat2N.inj_succ.
  replace (N.succ (N.of_nat k) * (N.succ (N.of_nat k) + 1))%N
    with (N.of_nat k * (N.of_nat k + 1) + (N.of_nat k + 1) * 2)%N by lia.
  rewrite N.div_add by lia. reflexivity.
Qed.

Lemma attemptFrom_stops fetch retryDelay remaining attempt sleptSoFar k :
  k <= remaining ->
  (forall i, i < k -> decisive (fetch (attempt + i)) = false) ->
  decisive (fetch (attempt + k)) = true \/ k = remaining ->
  exists extra,
    attemptFrom fetch retryDelay remaining attempt sleptSoFar
    = {| result := fetch (attempt + k); calls := S (attempt + k);
         slept := (sleptSoFar + retryDelay * extra)%N |} /\
    (extra + N.of_nat attempt * (N.of_nat attempt + 1) / 2
     = N.of_nat (attempt + k) * (N.of_nat (attempt + k) + 1) / 2)%N.
Proof.
  revert attempt sleptSoFar k.
  induction remaining as [|remaining IH]; intros attempt sleptSoFar k Hk Hbefore Hat.
  - assert (k = 0) by lia. subst k. rewrite Nat.add_0_r.
    exists 0%N. simpl. split; [by rewrite N.mul_0_r, N.add_0_r | reflexivity].
  - destruct k as [|k].
    + rewrite Nat.add_0_r in *. destruct Hat as [Hat | Hat]; [|discriminate].
      exists 0%N. split; [|reflexivity]. simpl. unfold decisive in Hat.
      destruct (fetch attempt) as [m | st tx]; [discriminate|].
      by rewrite Hat, N.mul_0_r, N.add_0_r.
    + assert (Hfirst : decisive (fetch attempt) = false).
      { specialize (Hbefore 0). rewrite Nat.add_0_r in Hbefore. apply Hbefore. lia. }
      destruct (IH (S attempt)
                  (sleptSoFar + retryDelay * (N.of_nat attempt + 1))%N k) as (extra & He & Hs).
      * lia.
      * intros i Hi. replace (S attempt + i) with (attempt + S i) by lia.
        apply Hbefore. lia.
      * replace (S attempt + k) with (attempt + S k) by lia.
        destruct Hat as [Hat | Hat]; [by left | right; lia].
      * replace (S attempt + k) with (attempt + S k) in * by lia.
        exists (N.of_nat attempt + 1 + extra)%N. split.
        -- simpl. unfold decisive in Hfirst.
           destruct (fetch attempt) as [m | st tx].
           ++ rewrite He. f_equal. lia.
           ++ rewrite Hfirst. rewrite He. f_equal. lia.
        -- rewrite <- Hs, <- (triangle_step attempt). lia.
Qed.

(** X1.  [fetchWithRetry] returns (or throws) the outcome of the first
    attempt that is decisive, a response that is [ok] or has a status
    other than 502, 503 and 504, or of attempt number [retries] when none
    before it is.  It has then called [fetch] once per attempt up to that
    one, and has slept [retryDelay * (1 + 2 + ... + k)] ms, [k] being the
    number of the attempt returned. *)
Theorem fetchWithRetry_stops_at_first_decisive
    (fetch : nat -> FetchOutcome) (retries : nat) (retryDelay : N) (k : nat) :
  k <= retries ->
  (forall i, i < k -> decisive (fetch i) = false) ->
  decisive (fetch k) = true \/ k = retries ->
  fetchWithRetry fetch retries retryDelay
  = {| result := fetch k; calls := S k;
       slept := (retryDelay * (N.of_nat k * (N.of_nat k + 1) / 2))%N |}.
Proof.
  intros Hk Hbefore Hat. unfold fetchWithRetry.
  destruct (attemptFrom_stops fetch retryDelay retries 0 0 k Hk Hbefore Hat)
    as (extra & He & Hs).
  simpl in He, Hs. rewrite He. f_equal. rewrite N.add_0_r in Hs. by rewrite Hs.
Qed.

Lemma fetchWithRetry_stops_at_first_decisive_witness :
  fetchWithRetry
    (fun n => match n with
              | 0 => FetchResponse 502 "Bad Gateway"
              | 1 => FetchThrew "socket hang up"
              | _ => FetchResponse 200 "OK"
              end) 5 1000
  = {| result := FetchResponse 200 "OK"; calls := 3; slept := 3000 |}.
Proof.
  refine (fetchWithRetry_stops_at_first_decisive
            (fun n => match n with
                      | 0 => FetchResponse 502 "Bad Gateway"
                      | 1 => FetchThrew "socket hang up"
                      | _ => FetchResponse 200 "OK"
                      end) 5 1000 2 _ _ _).
  - lia.
  - intros [|[|i]] Hi; [reflexivity | reflexivity | lia].
  - left. reflexivity.
Defined.

Lemma first_decisive_exists (fetch : nat -> FetchOutcome) (retries : nat) :
  exists k, k <= retries /\
            (forall i, i < k -> decisive (fetch i) = false) /\
            (decisive (fetch k) = true \/ k = retries).
Proof.
  induction retries as [|n (k & Hk & Hbefore & Hat)].
  - exists 0. split; [lia|]. split; [intros i Hi; lia | by right].
  - destruct Hat as [Hat | ->].
    + exists k. split; [lia|]. split; [exact Hbefore | by left].
    + destruct (decisive (fetch n)) eqn:Hn.
      * exists n. split; [lia|]. split; [exact Hbefore | by left].
      * exists (S n). split; [lia|]. split; [|by right].
        intros i Hi. destruct (decide (i = n)) as [->|Hne]; [exact Hn|].
        apply Hbefore. lia.
Qed.

(** X2.  [fetchWithRetry] calls [fetch] at most [retries + 1] times and
    sleeps at most [retryDelay * (1 + ... + retries)] ms.  It gives up, by
    throwing or by returning a response that is not [ok] with status 502,
    503 or 504, only after all [retries + 1] attempts; with the defaults
    that is three calls and 3000 ms. *)
Theorem fetchWithRetry_is_bounded
    (fetch : nat -> FetchOutcome) (retries : nat) (retryDelay : N) :
  let run := fetchWithRetry fetch retries retryDelay in
  calls run <= S retries /\
  (slept run <= retryDelay * (N.of_nat retries * (N.of_nat retries + 1) / 2))%N /\
  result run = fetch (pred (calls run)) /\
  (decisive (result run) = false -> calls run = S retries) /\
  calls (fetchWithRetryDefault fetch) <= 3 /\
  (slept (fetchWithRetryDefault fetch) <= 3000)%N.
Proof.
  assert (Hgen : forall r d,
            calls (fetchWithRetry fetch r d) <= S r /\
            (slept (fetchWithRetry fetch r d)
             <= d * (N.of_nat r * (N.of_nat r + 1) / 2))%N /\
            result (fetchWithRetry fetch r d)
            = fetch (pred (calls (fetchWithRetry fetch r d))) /\
            (decisive (result (fetchWithRetry fetch r d)) = false ->
             calls (fetchWithRetry fetch r d) = S r)).
  { intros r d. destruct (first_decisive_exists fetch r) as (k & Hk & Hbefore & Hat).
    unfold fetchWithRetry.
    destruct (attemptFrom_stops fetch d r 0 0 k Hk Hbefore Hat) as (extra & He & Hs).
    simpl in He, Hs. rewrite N.add_0_r in Hs. rewrite He, Hs.
    cbn [calls slept result Nat.pred]. rewrite N.add_0_l.
    split; [lia|]. split; [|split; [reflexivity|]].
    - apply N.mul_le_mono_l. apply N.Div0.div_le_mono. nia.
    - intros Hd. destruct Hat as [Hat | ->]; [congruence | reflexivity]. }
  cbv zeta. destruct (Hgen retries retryDelay) as (H1 & H2 & H3 & H4).
  destruct (Hgen 2 1000%N) as (D1 & D2 & _).
  repeat split; try assumption.
Qed.

(** ** Batches and lines *)

Lemma append_cons (c : ascii) (a b : string) :
  (String c a ++ b)%string = String c (a ++ b).
Proof. reflexivity. Qed.

Lemma append_nil_l (s : string) : ("" ++ s)%string = s.
Proof. reflexivity. Qed.

Lemma append_assoc (a b c : string) : ((a ++ b) ++ c)%string = (a ++ (b ++ c))%string.
Proof.
  induction a as [|x a IH]; [reflexivity|]. rewrite !append_cons. by rewrite IH.
Qed.

Lemma append_nil_r (s : string) : (s ++ "")%string = s.
Proof. induction s as [|c s IH]; [reflexivity|]. rewrite append_cons. by rewrite IH. Qed.

Lemma rev_acc_app acc s : JS.rev_acc acc s = (JS.rev_acc EmptyString s ++ acc)%string.
Proof.
  revert acc. induction s as [|c s IH]; intros acc; [reflexivity|].
  cbn [JS.rev_acc].
  rewrite (IH (String c acc)), (IH (String c EmptyString)).
  by rewrite append_assoc.
Qed.

Lemma rev_cons c acc : JS.rev (String c acc) = (JS.rev acc ++ String c EmptyString)%string.
Proof. unfold JS.rev. simpl. apply rev_acc_app. Qed.

Lemma prefix_LF c line :
  String.prefix LF (String c line) = bool_decide (ascii_of_nat 10 = c).
Proof.
  unfold LF. cbn [String.prefix].
  destruct (ascii_dec (ascii_of_nat 10) c) as [E|E].
  - rewrite bool_decide_eq_true_2 by done. by destruct line.
  - by rewrite bool_decide_eq_false_2.
Qed.

Lemma includes_LF_cons c line :
  JS.includes (String c line) LF = false ->
  ascii_of_nat 10 <> c /\ JS.includes line LF = false.
Proof.
  change (JS.includes (String c line) LF)
    with (if String.prefix LF (String c line) then true else JS.includes line LF).
  rewrite prefix_LF. case_bool_decide; [discriminate | done].
Qed.

Lemma split_go_noLF line acc :
  JS.includes line LF = false ->
  JS.split_go LF 0 acc line = [(JS.rev acc ++ line)%string].
Proof.
  revert acc. induction line as [|c line IH]; intros acc Hno.
  - cbn [JS.split_go]. by rewrite append_nil_r.
  - destruct (includes_LF_cons _ _ Hno) as [Hc Hl].
    change (JS.split_go LF 0 acc (String c line))
      with (if String.prefix LF (String c line)
            then JS.rev acc :: JS.split_go LF (String.length LF - 1) EmptyString line
            else JS.split_go LF 0 (String c acc) line).
    rewrite prefix_LF, bool_decide_eq_false_2 by done.
    rewrite (IH _ Hl), rev_cons, append_assoc. reflexivity.
Qed.

Lemma split_go_LF line acc rest :
  JS.includes line LF = false ->
  JS.split_go LF 0 acc (line ++ LF ++ rest)
  = (JS.rev acc ++ line)%string :: JS.split_go LF 0 EmptyString rest.
Proof.
  revert acc. induction line as [|c line IH]; intros acc Hno.
  - rewrite append_nil_l, append_nil_r.
    change (LF ++ rest)%string with (String (ascii_of_nat 10) rest).
    change (JS.split_go LF 0 acc (String (ascii_of_nat 10) rest))
      with (if String.prefix LF (String (ascii_of_nat 10) rest)
            then JS.rev acc :: JS.split_go LF (String.length LF - 1) EmptyString rest
            else JS.split_go LF 0 (String (ascii_of_nat 10) acc) rest).
    by rewrite prefix_LF, bool_decide_eq_true_2.
  - destruct (includes_LF_cons _ _ Hno) as [Hc Hl].
    change (JS.split_go LF 0 acc (String c line ++ LF ++ rest))
      with (if String.prefix LF (String c (line ++ LF ++ rest))
            then JS.rev acc
                 :: JS.split_go LF (String.length LF - 1) EmptyString (line ++ LF ++ rest)
            else JS.split_go LF 0 (String c acc) (line ++ LF ++ rest)).
    rewrite prefix_LF, bool_decide_eq_false_2 by done.
    rewrite (IH _ Hl), rev_cons, append_assoc. reflexivity.
Qed.

Lemma split_concat_LF (line : string) (lines : list string) :
  Forall (fun l => JS.includes l LF = false) (line :: lines) ->
  JS.split (String.concat LF (line :: lines)) LF = line :: lines.
Proof.
  unfold JS.split. revert line. induction lines as [|l lines IH]; intros line Hall.
  - apply Forall_cons in Hall. destruct Hall as [Hl _].
    change (String.concat LF [line]) with line.
    by rewrite (split_go_noLF line EmptyString Hl).
  - apply Forall_cons in Hall. destruct Hall as [Hl Hrest].
    change (String.concat LF (line :: l :: lines))
      with (line ++ LF ++ String.concat LF (l :: lines))%string.
    rewrite (split_go_LF line EmptyString _ Hl). f_equal. by apply IH.
Qed.

(** X3.  A batch made of lines joined by line feeds, none of which
    contains a line feed itself, is taken apart into exactly its non-empty
    lines, in order; a missing text and the empty text give no line. *)
Theorem messageArray_of_joined_lines (lines : list string) :
  Forall (fun l => JS.includes l LF = false) lines ->
  messageArray (Some (String.concat LF lines)) = List.filter JS.truthy lines /\
  messageArray None = [] /\
  messageArray (Some EmptyString) = [].
Proof.
  intros Hall. split; [|by split].
  unfold messageArray. destruct lines as [|line lines]; [reflexivity|].
  by rewrite split_concat_LF.
Qed.

Lemma messageArray_of_joined_lines_witness :
  messageArray (Sample.batch ["first"; ""; "second"]) = ["first"; "second"].
Proof.
  refine (proj1 (messageArray_of_joined_lines ["first"; ""; "second"] _)).
  repeat constructor.
Defined.

Section BatchFacts.

Variable playerKillData : list KillEntry.
Variable RE : RegularExpressions.

Lemma handleLine_ignored s st data :
  liveContent RE data = None -> handleLine playerKillData RE s st data = st.
Proof.
  unfold liveContent, handleLine. destruct st as [w cur].
  destruct (Log RE data) as [m|]; [|done]. cbv zeta.
  destruct (JS.truthy (JS.trim (group m 2))); [discriminate | done].
Qed.

Lemma fold_handleLine_filter s lines st :
  fold_left (handleLine playerKillData RE s) lines st
  = fold_left (handleLine playerKillData RE s)
      (List.filter (fun d => bool_decide (is_Some (liveContent RE d))) lines) st.
Proof.
  revert st. induction lines as [|d lines IH]; intros st; [done|]. simpl.
  case_bool_decide as Hd; simpl.
  - apply IH.
  - rewrite handleLine_ignored; [apply IH|].
    destruct (liveContent RE d); [|done]. exfalso. apply Hd. by eexists.
Qed.

(** X4.  Lines that do not match the log pattern, or whose content is
    blank, are dropped without a trace: a live batch has the effect of the
    batch without them, and a batch made only of such lines leaves the
    state and the server as they are. *)
Theorem unmatched_lines_are_dropped
    (w : World) (message : option string) (s : RustServer) :
  "INIT_LOGS" ∈ flags s ->
  handle playerKillData RE w message s
  = ((fold_left (handleLine playerKillData RE s)
        (List.filter (fun d => bool_decide (is_Some (liveContent RE d)))
           (messageArray message)) (w, None)).1, s) /\
  (Forall (fun d => liveContent RE d = None) (messageArray message) ->
   handle playerKillData RE w message s = (w, s)).
Proof.
  intros Hflag. unfold handle. rewrite bool_decide_eq_true_2 by done. simpl.
  split; [by rewrite <- fold_handleLine_filter|].
  intros Hall.
  assert (H : forall l st, Forall (fun d => liveContent RE d = None) l ->
                fold_left (handleLine playerKillData RE s) l st = st).
  { induction l as [|d l IH]; intros st Hl; [done|].
    apply Forall_cons in Hl. destruct Hl as [Hd Hl]. simpl.
    rewrite handleLine_ignored by done. by apply IH. }
  by rewrite H.
Qed.

End BatchFacts.

Lemma unmatched_lines_are_dropped_witness :
  handle Sample.killTable Sample.patterns Sample.inflight1
    (Sample.batch ["no marker here"; "12:00:01:LOG:DEFAULT:    "]) Sample.server1
  = (Sample.inflight1, Sample.server1).
Proof.
  refine (proj2 (unmatched_lines_are_dropped Sample.killTable Sample.patterns
                   Sample.inflight1 _ Sample.server1 _) _).
  - apply (bool_decide_unpack _). vm_compute. exact I.
  - vm_compute. repeat constructor.
Defined.

Section MessageFacts.

Variable playerKillData : list KillEntry.
Variable RE : RegularExpressions.

Lemma patternEvents_noMessage s log w :
  appends isNoMessage w (patternEvents RE s log w).
Proof. unfold patternEvents. cbv zeta. repeat appends_step. Qed.

Lemma forallb_starts (P : RCEEvent -> bool) s l :
  (forall n sp, P (EventStart n sp) = true) ->
  forallb (fun e => P (payload e)) (List.map (startEvent s) l) = true.
Proof. intros HP. induction l as [|[n sp] l IH]; [done|]. simpl. by rewrite HP, IH. Qed.

Lemma domainEvents_noMessage s log w :
  appends isNoMessage w (domainEvents playerKillData RE s log w).
Proof.
  unfold domainEvents.
  eapply appends_trans; [apply patternEvents_noMessage|].
  eapply appends_trans.
  - destruct (eventStart_emitted s log (patternEvents RE s log w)) as [Hb He].
    split; [exact Hb|]. eexists. split; [exact He|]. by apply forallb_starts.
  - destruct (playerKill_emitted playerKillData s log
                (eventStart s log (patternEvents RE s log w))) as [Hb He].
    split; [exact Hb|]. eexists. split; [exact He|].
    by destruct (JS.includes log " was killed by ").
Qed.

Lemma commandExecuting_noMessage w s date log :
  exists evs,
    forallb (fun e => isNoMessage (payload e)) evs = true /\
    match commandExecuting RE w s date log with
    | Returned w' _ => emitted w' = (emitted w ++ evs)%list
    | Continues w' => emitted w' = (emitted w ++ evs)%list
    end.
Proof.
  unfold commandExecuting. destruct (CommandExecuting RE log) as [m|].
  - exists [{| server := identifier s; payload := ExecutingCommand (group m 1) |}].
    split; [done|].
    destruct (CommandHandler.get _ _ _) as [c|]; [|done].
    by destruct (negb _).
  - exists []. split; [done|]. by rewrite app_nil_r.
Qed.

Lemma handleLine_live_events s w cur data log :
  liveContent RE data = Some log ->
  exists evs,
    forallb (fun e => isNoMessage (payload e)) evs = true /\
    emitted (handleLine playerKillData RE s (w, cur) data).1
    = (emitted w ++ {| server := identifier s; payload := Message log |} :: evs)%list.
Proof.
  unfold liveContent, handleLine. destruct (Log RE data) as [m|]; [|discriminate].
  cbv zeta. destruct (JS.truthy (JS.trim (group m 2))); [|discriminate].
  intros [= <-]. simpl negb. cbv iota.
  set (log := JS.trim (group m 2)).
  destruct (commandExecuting_noMessage (emit w s (Message log)) s (group m 1) log)
    as (e1 & Hp1 & He1).
  destruct (commandExecuting RE _ s (group m 1) log) as [w2 c | w2].
  - exists e1. split; [exact Hp1|]. simpl. rewrite He1. simpl.
    by rewrite <- app_assoc.
  - pose proof (commandResponse_emitted w2 s cur (group m 1) log) as He2.
    destruct (commandResponse w2 s cur (group m 1) log) as [w3 c]. simpl in He2.
    destruct (domainEvents_noMessage s log w3) as [_ (e3 & He3 & Hp3)].
    exists (e1 ++ e3)%list. split; [by rewrite forallb_app, Hp1, Hp3|].
    simpl. rewrite He3, He2, He1. simpl. by rewrite <- !app_assoc.
Qed.

Lemma messagesOf_noMessage evs :
  forallb (fun e => isNoMessage (payload e)) evs = true -> messagesOf evs = [].
Proof.
  induction evs as [|e evs IH]; [done|]. simpl.
  intros [He Hr]%andb_prop. unfold messagesOf in *. simpl.
  rewrite (IH Hr). by destruct (payload e).
Qed.

Lemma fold_handleLine_messages s lines w cur :
  exists evs,
    emitted (fold_left (handleLine playerKillData RE s) lines (w, cur)).1
    = (emitted w ++ evs)%list /\
    messagesOf evs = omap (liveContent RE) lines.
Proof.
  revert w cur. induction lines as [|d lines IH]; intros w cur.
  - exists []. by rewrite app_nil_r.
  - cbn [fold_left omap list_omap]. destruct (liveContent RE d) as [log|] eqn:Hd.
    + destruct (handleLine_live_events s w cur d log Hd) as (e1 & Hp1 & He1).
      destruct (handleLine playerKillData RE s (w, cur) d) as [w1 cur1].
      destruct (IH w1 cur1) as (e2 & He2 & Hm2). simpl in He1.
      exists ({| server := identifier s; payload := Message log |} :: e1 ++ e2)%list.
      split.
      * rewrite He2, He1. by rewrite <- app_assoc.
      * change (messagesOf ({| server := identifier s; payload := Message log |}
                             :: e1 ++ e2)%list)
          with (log :: messagesOf (e1 ++ e2)%list).
        f_equal. unfold messagesOf at 1. rewrite omap_app.
        fold (messagesOf e1). fold (messagesOf e2).
        by rewrite (messagesOf_noMessage e1 Hp1), Hm2.
    + rewrite handleLine_ignored by done. apply IH.
Qed.

(** X5.  A live batch emits one [Message] event for each of its lines that
    matches the log pattern with a content that is not blank, in order and
    carrying the trimmed content, whatever else the line triggers; this
    includes the lines consumed as start markers of commands. *)
Theorem every_live_line_is_a_message
    (w : World) (message : option string) (s : RustServer) :
  "INIT_LOGS" ∈ flags s ->
  messagesOf (newEvents w (handle playerKillData RE w message s).1)
  = omap (liveContent RE) (messageArray message).
Proof.
  intros Hflag. unfold handle. rewrite bool_decide_eq_true_2 by done. simpl.
  destruct (fold_handleLine_messages s (messageArray message) w None)
    as (evs & He & Hm).
  unfold newEvents. by rewrite He, drop_app_length.
Qed.

End MessageFacts.

Lemma every_live_line_is_a_message_witness :
  messagesOf (newEvents Sample.inflight1
    (handle Sample.killTable Sample.patterns Sample.inflight1
       (Sample.batch [Sample.executing "12:00:01" "Users"; "noise";
                      Sample.line "12:00:01" "  2 users "]) Sample.server1).1)
  = ["Executing console system command 'Users'"; "2 users"].
Proof.
  refine (eq_trans (every_live_line_is_a_message Sample.killTable Sample.patterns
                      Sample.inflight1 _ Sample.server1 _) _).
  - apply (bool_decide_unpack _). vm_compute. exact I.
  - vm_compute. reflexivity.
Defined.

(** ** The first batch *)

(** C5.  A batch handed to [handle] for a server whose flags do not yet
    contain "INIT_LOGS" (as for every server before its first batch) emits
    nothing, whatever it contains; it leaves the registry, the timers and the
    promises alone, adds the flag to the server and stores the server.  The
    server then carries the flag, and every batch handled for it afterwards
    is processed as live lines: a text made of lines joined by line feeds
    has the effect of the per-line processing run over its non-empty lines,
    in order, and emits a Message for each of them that matches the log
    pattern with a content that is not blank. *)
Theorem first_batch_is_backlog
    (playerKillData : list KillEntry) (RE : RegularExpressions)
    (w : World) (message : option string) (s : RustServer) :
  "INIT_LOGS" ∉ flags s ->
  let r := handle playerKillData RE w message s in
  newEvents w r.1 = [] /\
  emitted r.1 = emitted w /\
  commands r.1 = commands w /\ timers r.1 = timers w /\ settled r.1 = settled w /\
  r.2 = set_flags s (flags s ++ ["INIT_LOGS"])%list /\
  servers r.1 = <[identifier s := r.2]> (servers w) /\
  "INIT_LOGS" ∈ flags r.2 /\
  (forall w2 message2,
     handle playerKillData RE w2 message2 r.2
     = ((fold_left (handleLine playerKillData RE r.2) (messageArray message2)
           (w2, None)).1, r.2)) /\
  (forall w2 lines,
     Forall (fun l => JS.includes l LF = false) lines ->
     let later := handle playerKillData RE w2 (Some (String.concat LF lines)) r.2 in
     later = ((fold_left (handleLine playerKillData RE r.2)
                 (List.filter JS.truthy lines) (w2, None)).1, r.2) /\
     messagesOf (newEvents w2 later.1)
     = omap (liveContent RE) (List.filter JS.truthy lines)).
Proof.
  intros Hflag. unfold handle at 1.
  rewrite (bool_decide_eq_false_2 _ Hflag). simpl.
  unfold newEvents at 1. simpl. rewrite drop_all.
  assert (Hlive : forall w2 message2,
            handle playerKillData RE w2 message2
              (set_flags s (flags s ++ ["INIT_LOGS"])%list)
            = ((fold_left
                  (handleLine playerKillData RE
                     (set_flags s (flags s ++ ["INIT_LOGS"])%list))
                  (messageArray message2) (w2, None)).1,
               set_flags s (flags s ++ ["INIT_LOGS"])%list)).
  { intros w2 message2. unfold handle. simpl.
    rewrite bool_decide_eq_true_2; [reflexivity | set_solver]. }
  do 7 (split; [done|]).
  split; [set_solver|]. split; [exact Hlive|].
  intros w2 lines Hall. rewrite Hlive.
  assert (Hlines : messageArray (Some (String.concat LF lines))
                   = List.filter JS.truthy lines).
  { unfold messageArray. destruct lines as [|line lines]; [reflexivity|].
    by rewrite split_concat_LF. }
  rewrite Hlines. split; [reflexivity|]. cbn [fst].
  destruct (fold_handleLine_messages playerKillData RE
              (set_flags s (flags s ++ ["INIT_LOGS"])%list)
              (List.filter JS.truthy lines) w2 None) as (evs & He & Hm).
  unfold newEvents. by rewrite He, drop_app_length.
Qed.

(** The first batch of a fresh server is dropped although it holds a kill;
    the next batch, two lines and an empty one, is classified. *)
Lemma first_batch_is_backlog_witness :
  let r := handle Sample.killTable Sample.patterns Sample.world1
             (Sample.batch [Sample.line "12:00:01" "PlayerName was killed by 12345"])
             Sample.fresh1 in
  let later := handle Sample.killTable Sample.patterns r.1
                 (Sample.batch [Sample.line "12:00:05" "PlayerName was killed by 12345";
                                EmptyString; Sample.line "12:00:06" "  hello "]) r.2 in
  newEvents Sample.world1 r.1 = [] /\ flags r.2 = ["INIT_LOGS"] /\
  messagesOf (newEvents r.1 later.1) = ["PlayerName was killed by 12345"; "hello"] /\
  killsOf (newEvents r.1 later.1)
  = [ ({| id := "PlayerName"; name := "PlayerName"; type := Player |},
       {| id := "12345"; name := "Scientist"; type := Npc |}) ].
Proof.
  pose proof (first_batch_is_backlog Sample.killTable Sample.patterns Sample.world1
           (Sample.batch [Sample.line "12:00:01" "PlayerName was killed by 12345"])
           Sample.fresh1) as H.
  cbv zeta in *. destruct H as (H1 & _ & _ & _ & _ & H6 & _ & _ & _ & H10).
  - apply (bool_decide_unpack _). vm_compute. exact I.
  - split; [exact H1|]. split; [by rewrite H6|].
    destruct (H10 (handle Sample.killTable Sample.patterns Sample.world1
                     (Sample.batch
                        [Sample.line "12:00:01" "PlayerName was killed by 12345"])
                     Sample.fresh1).1
                [Sample.line "12:00:05" "PlayerName was killed by 12345";
                 EmptyString; Sample.line "12:00:06" "  hello "]) as [H11 H12].
    { repeat (constructor; [reflexivity|]). constructor. }
    split; [exact H12|]. vm_compute. reflexivity.
Defined.

(** ** What the classifier never does *)

Lemma stampOf_refl r : stampOf r r.
Proof. repeat split. by left. Qed.

Lemma stampOf_trans r1 r2 r3 : stampOf r1 r2 -> stampOf r2 r3 -> stampOf r1 r3.
Proof.
  intros (Hi1 & Hc1 & Hr1 & Ht1 & Hs1) (Hi2 & Hc2 & Hr2 & Ht2 & Hs2).
  repeat split; try congruence.
  destruct Hs1 as [Hs1|Hs1]; [|by right].
  destruct Hs2 as [Hs2|Hs2]; [left; congruence | right; by rewrite <- Hs1].
Qed.

Lemma onlyAnswers_refl w : onlyAnswers w w.
Proof.
  split; [|by repeat split]. intros r Hr. exists r. split; [done | apply stampOf_refl].
Qed.

Lemma onlyAnswers_trans w1 w2 w3 :
  onlyAnswers w1 w2 -> onlyAnswers w2 w3 -> onlyAnswers w1 w3.
Proof.
  intros (Hc1 & Ht1 & Hs1 & Ha1 & Hv1 & Hn1 & Hp1 & Hk1)
         (Hc2 & Ht2 & Hs2 & Ha2 & Hv2 & Hn2 & Hp2 & Hk2).
  split; [|split; [|split; [|repeat split; congruence]]]; [|by auto|by auto].
  intros r3 Hr3. destruct (Hc2 r3 Hr3) as (r2 & Hr2 & H23).
  destruct (Hc1 r2 Hr2) as (r1 & Hr1 & H12).
  exists r1. split; [done | by eapply stampOf_trans].
Qed.

Lemma sameBookkeeping_onlyAnswers w w' : sameBookkeeping w w' -> onlyAnswers w w'.
Proof.
  intros (Ha & Hv & Hc & Ht & Hn & Hs & Hp & Hk).
  split; [|split; [|split; [|repeat split; congruence]]].
  - intros r Hr. exists r. rewrite <- Hc. split; [done | apply stampOf_refl].
  - intros t Hin. by rewrite <- Ht.
  - intros p v Hv'. by rewrite Hs.
Qed.

Lemma onlyAnswers_respond w c log : onlyAnswers w (respond w c log).
Proof.
  unfold respond.
  assert (Hres : forall p v, settled w !! p = Some v ->
            settled (resolve w (cr_resolve c)
                       {| ok := true; response := Some log; error := None |}) !! p
            = Some v).
  { intros p v Hp. unfold resolve.
    destruct (settled w !! cr_resolve c) eqn:E; [done|]. simpl.
    rewrite lookup_insert_ne; [done|]. intros <-. congruence. }
  set (w1 := resolve w _ _) in *.
  assert (H1 : commands w1 = commands w /\ timers w1 = timers w /\
               accessToken w1 = accessToken w /\ servers w1 = servers w /\
               nextTimer w1 = nextTimer w /\ nextPromise w1 = nextPromise w /\
               now w1 = now w).
  { unfold w1, resolve. by destruct (settled w !! cr_resolve c). }
  destruct H1 as (Hc & Ht & Ha & Hv & Hn & Hp & Hk).
  split; [|split; [|split]].
  - intros r Hr. cbn [commands set_commands] in Hr.
    apply elem_of_remove in Hr. destruct Hr as [Hr _].
    exists r. split; [|apply stampOf_refl].
    destruct (cr_timeout c); simpl in Hr; by rewrite <- Hc.
  - intros t Hin. simpl in Hin. rewrite <- Ht.
    destruct (cr_timeout c); simpl in Hin; [|done].
    apply list_elem_of_In, filter_In in Hin. apply list_elem_of_In. tauto.
  - intros p v Hpv. simpl. destruct (cr_timeout c); simpl; by apply Hres.
  - destruct (cr_timeout c); simpl; by repeat split.
Qed.

Lemma elem_of_store_inv reg r x :
  x ∈ CommandHandler.store reg r ->
  (x = r /\ exists y, y ∈ reg /\ hasKey (cr_identifier r) (cr_command r) y = true) \/
  (x ∈ reg /\ hasKey (cr_identifier r) (cr_command r) x = false).
Proof.
  unfold CommandHandler.store. rewrite list_elem_of_In, in_map_iff.
  intros (y & Hy & Hin). apply list_elem_of_In in Hin.
  destruct (hasKey _ _ y) eqn:Hk; subst.
  - left. split; [done|]. by exists y.
  - by right.
Qed.

Section ClassifierOnlyAnswers.

Variable playerKillData : list KillEntry.
Variable RE : RegularExpressions.

Lemma onlyAnswers_commandExecuting w s date log :
  match commandExecuting RE w s date log with
  | Returned w' _ => onlyAnswers w w'
  | Continues w' => onlyAnswers w w'
  end.
Proof.
  unfold commandExecuting. destruct (CommandExecuting RE log) as [m|];
    [|apply onlyAnswers_refl].
  set (w1 := emit w s _).
  assert (H1 : onlyAnswers w w1) by (apply sameBookkeeping_onlyAnswers; by repeat split).
  destruct (CommandHandler.get (commands w1) (identifier s) (group m 1)) as [c|] eqn:Hg;
    [|exact H1].
  destruct (negb (JS.truthy_opt (cr_timestamp c))) eqn:Hts; [|exact H1].
  apply negb_true_iff in Hts.
  destruct (get_Some _ _ _ _ Hg) as (Hi & Hc & Hin).
  split; [|by repeat split].
  intros r' Hr'. simpl in Hr'. apply elem_of_add in Hr'.
  assert (Hstamp : stampOf c (set_timestamp c (Some date))) by (repeat split; by right).
  destruct Hr' as [Hr' | ->]; [|by exists c].
  apply elem_of_store_inv in Hr'. destruct Hr' as [[-> _] | [Hr' _]].
  - by exists c.
  - exists r'. split; [done | apply stampOf_refl].
Qed.

Lemma onlyAnswers_commandResponse w s cur date log :
  onlyAnswers w (commandResponse w s cur date log).1.
Proof.
  unfold commandResponse.
  assert (Hcur : onlyAnswers w
            (match cur with
             | Some x =>
                 if JS.truthy x then
                   match CommandHandler.get (commands w) (identifier s) x with
                   | Some c => (respond w c log, None)
                   | None => (w, cur)
                   end
                 else (w, cur)
             | None => (w, cur)
             end).1).
  { destruct cur as [x|]; [|apply onlyAnswers_refl].
    destruct (JS.truthy x); [|apply onlyAnswers_refl].
    destruct (CommandHandler.get _ _ x); [apply onlyAnswers_respond | apply onlyAnswers_refl]. }
  destruct (CommandHandler.getQueued _ _ _) as [c|]; [|exact Hcur].
  destruct (negb _); [apply onlyAnswers_respond | exact Hcur].
Qed.

Lemma onlyAnswers_handleLine s st data :
  onlyAnswers st.1 (handleLine playerKillData RE s st data).1.
Proof.
  destruct st as [w cur]. simpl. unfold handleLine.
  destruct (Log RE data) as [m|]; [|apply onlyAnswers_refl]. cbv zeta.
  destruct (negb _); [apply onlyAnswers_refl|].
  set (log := JS.trim (group m 2)).
  assert (H0 : onlyAnswers w (emit w s (Message log)))
    by (apply sameBookkeeping_onlyAnswers; by repeat split).
  pose proof (onlyAnswers_commandExecuting (emit w s (Message log)) s (group m 1) log)
    as H1.
  destruct (commandExecuting RE _ s (group m 1) log) as [w2 c | w2].
  - exact (onlyAnswers_trans _ _ _ H0 H1).
  - pose proof (onlyAnswers_commandResponse w2 s cur (group m 1) log) as H2.
    destruct (commandResponse w2 s cur (group m 1) log) as [w3 c].
    cbn [fst] in *.
    eapply onlyAnswers_trans; [exact H0|].
    eapply onlyAnswers_trans; [exact H1|].
    eapply onlyAnswers_trans; [exact H2|].
    apply sameBookkeeping_onlyAnswers, domainEvents_emitted.
Qed.

(** X6.  A live batch only answers commands.  It registers no command and
    changes no record except to write a timestamp on one that had none (so
    a stamp, once written, stays); it arms no timer; a promise that was
    settled keeps its value; and the token, the servers, the clock and the
    allocation counters are untouched. *)
Theorem live_batch_only_answers
    (w : World) (message : option string) (s : RustServer) :
  "INIT_LOGS" ∈ flags s ->
  onlyAnswers w (handle playerKillData RE w message s).1 /\
  (handle playerKillData RE w message s).2 = s.
Proof.
  intros Hflag. unfold handle. rewrite bool_decide_eq_true_2 by done. simpl.
  split; [|reflexivity].
  assert (H : forall l st,
            onlyAnswers st.1 (fold_left (handleLine playerKillData RE s) l st).1).
  { induction l as [|d l IH]; intros st; [apply onlyAnswers_refl|]. simpl.
    eapply onlyAnswers_trans; [apply onlyAnswers_handleLine | apply IH]. }
  apply (H _ (w, None)).
Qed.

End ClassifierOnlyAnswers.

Lemma live_batch_only_answers_witness :
  onlyAnswers Sample.inflight1
    (handle Sample.killTable Sample.patterns Sample.inflight1
       (Sample.batch [Sample.executing "12:00:01" "Users";
                      Sample.line "12:00:01" "2 users"]) Sample.server1).1.
Proof.
  refine (proj1 (live_batch_only_answers Sample.killTable Sample.patterns
                   Sample.inflight1 _ Sample.server1 _)).
  apply (bool_decide_unpack _). vm_compute. exact I.
Defined.

(** ** A start marker and the reply that follows it *)

Lemma get_store_key reg ident cmd c r :
  CommandHandler.get reg ident cmd = Some c ->
  hasKey ident cmd r = true ->
  CommandHandler.get (CommandHandler.store reg r) ident cmd = Some r.
Proof.
  intros Hg Hk. destruct (proj1 (hasKey_true _ _ _) Hk) as [Hi Hc].
  unfold CommandHandler.get, CommandHandler.store in *. rewrite Hi, Hc.
  induction reg as [|x reg IH]; simpl in *; [discriminate|].
  destruct (hasKey ident cmd x) eqn:Hx; simpl.
  - by rewrite Hk.
  - rewrite Hx. by apply IH.
Qed.

Lemma find_store_None (f : CommandRequest -> bool) reg r :
  List.find f reg = None -> f r = false ->
  List.find f (CommandHandler.store reg r) = None.
Proof.
  intros Hf Hr. unfold CommandHandler.store.
  induction reg as [|x reg IH]; simpl in *; [done|].
  destruct (f x) eqn:Hx; [discriminate|].
  destruct (hasKey _ _ x); [rewrite Hr | rewrite Hx]; by apply IH.
Qed.

Lemma find_store_Some (f : CommandRequest -> bool) reg r c :
  List.find f reg = None -> f r = true ->
  CommandHandler.get reg (cr_identifier r) (cr_command r) = Some c ->
  List.find f (CommandHandler.store reg r) = Some r.
Proof.
  intros Hf Hr. unfold CommandHandler.get, CommandHandler.store.
  induction reg as [|x reg IH]; simpl in *; [done|].
  destruct (f x) eqn:Hx; [discriminate|].
  destruct (hasKey _ _ x); [by rewrite Hr | rewrite Hx]. by apply IH.
Qed.

Lemma handleLine_marker
    (playerKillData : list KillEntry) (RE : RegularExpressions)
    (s : RustServer) (w : World) (cur : option string)
    (data : string) (m mc : list string) (c : CommandRequest) :
  Log RE data = Some m ->
  JS.truthy (JS.trim (group m 2)) = true ->
  CommandExecuting RE (JS.trim (group m 2)) = Some mc ->
  CommandHandler.get (commands w) (identifier s) (group mc 1) = Some c ->
  JS.truthy_opt (cr_timestamp c) = false ->
  handleLine playerKillData RE s (w, cur) data
  = (set_commands
       (emit (emit w s (Message (JS.trim (group m 2)))) s (ExecutingCommand (group mc 1)))
       (CommandHandler.store (commands w) (set_timestamp c (Some (group m 1)))),
     Some (group mc 1)).
Proof.
  intros Hm Ht Hc Hg Hts.
  set (cmd := group mc 1) in *. set (log := JS.trim (group m 2)) in *.
  set (c' := set_timestamp c (Some (group m 1))).
  destruct (get_Some _ _ _ _ Hg) as (Hi & Hk & Hin).
  assert (Hkey : hasKey (identifier s) cmd c' = true) by (by apply hasKey_true).
  assert (Hg1 : CommandHandler.get (CommandHandler.store (commands w) c')
                  (identifier s) cmd = Some c')
    by (by eapply get_store_key).
  unfold handleLine. rewrite Hm. cbv zeta. fold log. rewrite Ht.
  cbn [negb]. cbv iota. unfold commandExecuting. fold log. rewrite Hc.
  cbv zeta. fold cmd. cbn [commands emit set_emitted].
  rewrite Hg, Hts. cbn [negb]. cbv iota. fold c'.
  unfold CommandHandler.add.
  replace (cr_identifier c') with (identifier s) by (by rewrite <- Hi).
  replace (cr_command c') with cmd by (by rewrite <- Hk).
  by rewrite Hg1.
Qed.

Lemma marker_then_line
    (playerKillData : list KillEntry) (RE : RegularExpressions)
    (s : RustServer) (w : World) (cur : option string)
    (d1 d2 : string) (m1 mc m2 : list string) (c : CommandRequest) :
  Log RE d1 = Some m1 ->
  JS.truthy (JS.trim (group m1 2)) = true ->
  CommandExecuting RE (JS.trim (group m1 2)) = Some mc ->
  JS.truthy (group mc 1) = true ->
  CommandHandler.get (commands w) (identifier s) (group mc 1) = Some c ->
  JS.truthy_opt (cr_timestamp c) = false ->
  Log RE d2 = Some m2 ->
  JS.truthy (JS.trim (group m2 2)) = true ->
  CommandExecuting RE (JS.trim (group m2 2)) = None ->
  CommandHandler.getQueued (commands w) (identifier s) (group m2 1) = None ->
  let c' := set_timestamp c (Some (group m1 1)) in
  let w1 := set_commands
              (emit (emit w s (Message (JS.trim (group m1 2)))) s
                 (ExecutingCommand (group mc 1)))
              (CommandHandler.store (commands w) c') in
  fold_left (handleLine playerKillData RE s) [d1; d2] (w, cur)
  = (domainEvents playerKillData RE s (JS.trim (group m2 2))
       (respond (emit w1 s (Message (JS.trim (group m2 2)))) c' (JS.trim (group m2 2))),
     if String.eqb (group m1 1) (group m2 1) &&
        negb (JS.startsWith (JS.trim (group m2 2)) "[ SAVE ]")
     then Some (group mc 1) else None).
Proof.
  intros Hm1 Ht1 Hc1 Hcmd Hg Hts Hm2 Ht2 Hc2 Hq. cbv zeta.
  set (cmd := group mc 1) in *. set (date1 := group m1 1).
  set (date2 := group m2 1) in *. set (log1 := JS.trim (group m1 2)) in *.
  set (log2 := JS.trim (group m2 2)) in *.
  set (c' := set_timestamp c (Some date1)).
  destruct (get_Some _ _ _ _ Hg) as (Hi & Hk & Hin).
  assert (Hkey : hasKey (identifier s) cmd c' = true) by (by apply hasKey_true).
  set (reg1 := CommandHandler.store (commands w) c').
  assert (Hg1 : CommandHandler.get reg1 (identifier s) cmd = Some c')
    by (by eapply get_store_key).
  set (w1 := set_commands
               (emit (emit w s (Message log1)) s (ExecutingCommand cmd)) reg1).
  assert (H1 : handleLine playerKillData RE s (w, cur) d1 = (w1, Some cmd))
    by (by apply handleLine_marker).
  set (w2 := emit w1 s (Message log2)).
  assert (Hq1 : CommandHandler.getQueued (commands w2) (identifier s) date2
                = if String.eqb date1 date2 then Some c' else None).
  { change (commands w2) with reg1. unfold CommandHandler.getQueued in *.
    destruct (String.eqb date1 date2) eqn:Hd.
    - eapply find_store_Some; [exact Hq | |].
      + cbn [cr_identifier cr_timestamp c' set_timestamp].
        by rewrite Hi, String.eqb_refl, Hd.
      + cbn [cr_identifier cr_command c' set_timestamp]. rewrite Hi, Hk. exact Hg.
    - apply find_store_None; [exact Hq|].
      cbn [cr_identifier cr_timestamp c' set_timestamp].
      by rewrite Hd, andb_false_r. }
  assert (H2 : handleLine playerKillData RE s (w1, Some cmd) d2
               = (domainEvents playerKillData RE s log2 (respond w2 c' log2),
                  if String.eqb date1 date2 && negb (JS.startsWith log2 "[ SAVE ]")
                  then Some cmd else None)).
  { unfold handleLine. rewrite Hm2. cbv zeta. fold log2. rewrite Ht2.
    cbn [negb]. cbv iota. unfold commandExecuting. fold log2. rewrite Hc2.
    fold w2. unfold commandResponse. fold date2. rewrite Hq1, Hcmd.
    change (commands w2) with reg1. rewrite Hg1.
    destruct (String.eqb date1 date2); [|done].
    by destruct (JS.startsWith log2 "[ SAVE ]"). }
  cbn [fold_left]. rewrite H1, H2. reflexivity.
Qed.

Lemma answeredWith_stamped
    (playerKillData : list KillEntry) (RE : RegularExpressions)
    (s : RustServer) (w w2 : World) (c : CommandRequest) (t : option string)
    (log : string) :
  settled w2 = settled w ->
  answeredWith w
    (domainEvents playerKillData RE s log (respond w2 (set_timestamp c t) log)) c log.
Proof.
  intros Hs.
  pose proof (respond_answers w2 (set_timestamp c t) log) as (Ha & Hb & Hd).
  destruct (domainEvents_emitted playerKillData RE s log
              (respond w2 (set_timestamp c t) log))
    as [(_ & _ & Hcs & Hts & _ & Hss & _) _].
  unfold answeredWith, outcome in *. rewrite Hss, Hcs, Hts.
  cbn [cr_resolve cr_timeout cr_identifier cr_command set_timestamp] in *.
  rewrite <- Hs. auto.
Qed.

(** X7.  A start marker for a command in flight that carries no timestamp
    yet, followed in the same batch by a live line that is not a marker:
    the command is answered with the second line, whatever the second
    line's timestamp and even when it begins with "[ SAVE ]", provided the
    command text is not empty and no record of the session already carried
    the second line's timestamp.  The open-command variable is cleared,
    except when the answer was found by timestamp. *)
Theorem marker_then_line_answers
    (playerKillData : list KillEntry) (RE : RegularExpressions)
    (s : RustServer) (w : World) (cur : option string)
    (d1 d2 : string) (m1 mc m2 : list string) (c : CommandRequest) :
  Log RE d1 = Some m1 ->
  JS.truthy (JS.trim (group m1 2)) = true ->
  CommandExecuting RE (JS.trim (group m1 2)) = Some mc ->
  JS.truthy (group mc 1) = true ->
  CommandHandler.get (commands w) (identifier s) (group mc 1) = Some c ->
  JS.truthy_opt (cr_timestamp c) = false ->
  Log RE d2 = Some m2 ->
  JS.truthy (JS.trim (group m2 2)) = true ->
  CommandExecuting RE (JS.trim (group m2 2)) = None ->
  CommandHandler.getQueued (commands w) (identifier s) (group m2 1) = None ->
  let r := fold_left (handleLine playerKillData RE s) [d1; d2] (w, cur) in
  answeredWith w r.1 c (JS.trim (group m2 2)) /\
  r.2 = if String.eqb (group m1 1) (group m2 1) &&
           negb (JS.startsWith (JS.trim (group m2 2)) "[ SAVE ]")
        then Some (group mc 1) else None.
Proof.
  intros Hm1 Ht1 Hc1 Hcmd Hg Hts Hm2 Ht2 Hc2 Hq r. unfold r.
  rewrite (marker_then_line playerKillData RE s w cur d1 d2 m1 mc m2 c
             Hm1 Ht1 Hc1 Hcmd Hg Hts Hm2 Ht2 Hc2 Hq).
  cbn [fst snd]. split; [|reflexivity].
  by apply answeredWith_stamped.
Qed.

Lemma marker_then_line_answers_witness :
  let r := fold_left (handleLine Sample.killTable Sample.patterns Sample.server1)
             [Sample.executing "12:00:01" "Users"; Sample.line "12:00:03" "[ SAVE ] done"]
             (Sample.inflight1, None) in
  answeredWith Sample.inflight1 r.1
    {| cr_identifier := "server1"; cr_command := "Users"; cr_timestamp := None;
       cr_timeout := Some 0; cr_resolve := 0 |} "[ SAVE ] done" /\
  r.2 = None.
Proof.
  refine (marker_then_line_answers Sample.killTable Sample.patterns Sample.server1
            Sample.inflight1 None
            (Sample.executing "12:00:01" "Users") (Sample.line "12:00:03" "[ SAVE ] done")
            [Sample.executing "12:00:01" "Users"; "12:00:01";
             "Executing console system command 'Users'"]
            ["Executing console system command 'Users'"; "Users"]
            [Sample.line "12:00:03" "[ SAVE ] done"; "12:00:03"; "[ SAVE ] done"]
            _ _ _ _ _ _ _ _ _ _ _); vm_compute; reflexivity.
Defined.

(** X8.  A line taken as the start marker of an in-flight command only
    stamps it.  It emits the Message and the ExecutingCommand event and
    nothing else, even when its text also reads as a kill or as a timed
    event; it writes the line's timestamp into the record, keeps the
    registry otherwise as it is, answers nothing, and remembers the command
    as the open one. *)
Theorem marker_line_only_stamps
    (playerKillData : list KillEntry) (RE : RegularExpressions)
    (s : RustServer) (w : World) (cur : option string)
    (data : string) (m mc : list string) (c : CommandRequest) :
  Log RE data = Some m ->
  JS.truthy (JS.trim (group m 2)) = true ->
  CommandExecuting RE (JS.trim (group m 2)) = Some mc ->
  CommandHandler.get (commands w) (identifier s) (group mc 1) = Some c ->
  JS.truthy_opt (cr_timestamp c) = false ->
  let r := handleLine playerKillData RE s (w, cur) data in
  let stamped := set_timestamp c (Some (group m 1)) in
  newEvents w r.1
  = [ {| server := identifier s; payload := Message (JS.trim (group m 2)) |};
      {| server := identifier s; payload := ExecutingCommand (group mc 1) |} ] /\
  r.2 = Some (group mc 1) /\
  commands r.1 = CommandHandler.store (commands w) stamped /\
  CommandHandler.get (commands r.1) (identifier s) (group mc 1) = Some stamped /\
  List.length (commands r.1) = List.length (commands w) /\
  unanswered w (set_commands r.1 (commands w)).
Proof.
  intros Hm Ht Hc Hg Hts r stamped. unfold r.
  rewrite (handleLine_marker playerKillData RE s w cur data m mc c Hm Ht Hc Hg Hts).
  cbn [fst snd commands set_commands].
  destruct (get_Some _ _ _ _ Hg) as (Hi & Hk & _).
  split; [|split; [reflexivity|split; [reflexivity|split; [|split]]]].
  - unfold newEvents. cbn [emitted set_commands emit set_emitted].
    by rewrite <- app_assoc, drop_app_length.
  - eapply get_store_key; [exact Hg|]. by apply hasKey_true.
  - unfold CommandHandler.store. by rewrite length_map.
  - by repeat split.
Qed.

Lemma marker_line_only_stamps_witness :
  let r := handleLine Sample.killTable Sample.patterns Sample.server1
             (Sample.inflight1, None)
             (Sample.line "12:00:01"
                "[event] Executing console system command 'Users' was killed by 1") in
  newEvents Sample.inflight1 r.1
  = [ {| server := "server1";
         payload := Message
           "[event] Executing console system command 'Users' was killed by 1" |};
      {| server := "server1"; payload := ExecutingCommand "Users" |} ] /\
  r.2 = Some "Users".
Proof.
  pose proof (marker_line_only_stamps Sample.killTable Sample.patterns Sample.server1
                Sample.inflight1 None
                (Sample.line "12:00:01"
                   "[event] Executing console system command 'Users' was killed by 1")
                [Sample.line "12:00:01"
                   "[event] Executing console system command 'Users' was killed by 1";
                 "12:00:01";
                 "[event] Executing console system command 'Users' was killed by 1"]
                ["[event] Executing console system command 'Users' was killed by 1";
                 "Users"]
                {| cr_identifier := "server1"; cr_command := "Users";
                   cr_timestamp := None; cr_timeout := Some 0; cr_resolve := 0 |}
                eq_refl eq_refl eq_refl eq_refl eq_refl) as H.
  cbv zeta in H. destruct H as (H1 & H2 & _). split; [exact H1 | exact H2].
Defined.

(** ** The radio poller and the scan *)

Lemma inScan (broadcasts : list Broadcast) (f : N) :
  existsb (fun b => N.eqb (frequency b) f) broadcasts = true
  <-> f ∈ List.map frequency broadcasts.
Proof.
  rewrite existsb_exists, list_elem_of_In, in_map_iff.
  split; intros (b & H1 & H2); exists b.
  - apply N.eqb_eq in H2. tauto.
  - rewrite N.eqb_eq. tauto.
Qed.

Lemma lostStep_frequencies broadcasts (l : list N) st f :
  f ∈ frequencies (fold_left (lostStep broadcasts) l st).2
  <-> f ∈ frequencies st.2 /\ (f ∈ l -> f ∈ List.map frequency broadcasts).
Proof.
  revert st. induction l as [|x l IH]; intros [w s]; cbn [fold_left].
  - split; [intros H; split; [done|] | tauto]. intros Hin. by apply elem_of_nil in Hin.
  - rewrite IH. unfold lostStep.
    destruct (existsb _ broadcasts) eqn:Hx; cbn [snd frequencies set_frequencies].
    + apply inScan in Hx. rewrite elem_of_cons. split.
      * intros [H1 H2]. split; [done|]. intros [->|H]; auto.
      * intros [H1 H2]. split; [done|]. auto.
    + assert (Hn : x ∉ List.map frequency broadcasts).
      { intros H. apply inScan in H. congruence. }
      rewrite list_elem_of_filter, elem_of_cons. split.
      * intros [[H1 H2] H3]. split; [done|]. intros [->|H]; [done | auto].
      * intros [H1 H2]. split; [split; [|done] | auto].
        intros ->. apply Hn, H2. by left.
Qed.

Lemma gainedStep_frequencies (broadcasts : list Broadcast) st f :
  f ∈ frequencies (fold_left gainedStep broadcasts st).2
  <-> f ∈ frequencies st.2 \/ f ∈ List.map frequency broadcasts.
Proof.
  revert st. induction broadcasts as [|b bs IH]; intros [w s]; cbn [fold_left List.map].
  - rewrite elem_of_nil. tauto.
  - rewrite IH, elem_of_cons. unfold gainedStep.
    case_bool_decide as Hin; cbn [snd frequencies set_frequencies].
    + split; [tauto|]. intros [H|[->|H]]; tauto.
    + rewrite elem_of_app, list_elem_of_singleton. tauto.
Qed.

Lemma lostStep_nothing_lost broadcasts (l : list N) st :
  (forall f, f ∈ l -> f ∈ List.map frequency broadcasts) ->
  fold_left (lostStep broadcasts) l st = st.
Proof.
  induction l as [|x l IH]; intros H; cbn [fold_left]; [done|].
  assert (Hx : existsb (fun b => N.eqb (frequency b) x) broadcasts = true)
    by (apply inScan, H; by left).
  destruct st as [w s]. unfold lostStep at 2. rewrite Hx.
  apply IH. intros f Hf. apply H. by right.
Qed.

Lemma gainedStep_nothing_gained (broadcasts : list Broadcast) st :
  (forall f, f ∈ List.map frequency broadcasts -> f ∈ frequencies st.2) ->
  fold_left gainedStep broadcasts st = st.
Proof.
  induction broadcasts as [|b bs IH]; intros H; cbn [fold_left]; [done|].
  destruct st as [w s]. unfold gainedStep at 2.
  rewrite bool_decide_eq_true_2 by (apply H; cbn [List.map]; by left).
  apply IH. intros f Hf. apply H. cbn [List.map]. by right.
Qed.

Lemma updateBroadcasters_resume_frequencies w s broadcasters text f :
  response broadcasters = Some text ->
  JS.truthy text = true ->
  f ∈ frequencies (updateBroadcasters_resume w s broadcasters).2
  <-> f ∈ List.map frequency (parseBroadcasts text).
Proof.
  intros Hr Ht. unfold updateBroadcasters_resume. rewrite Hr.
  change (JS.truthy_opt (Some text)) with (JS.truthy text).
  change (default EmptyString (Some text)) with text. rewrite Ht.
  set (bs := parseBroadcasts text).
  pose proof (gainedStep_frequencies bs
                (fold_left (lostStep bs) (frequencies s) (w, s)) f) as Hg.
  pose proof (lostStep_frequencies bs (frequencies s) (w, s) f) as Hl.
  destruct (fold_left gainedStep bs _) as [w2 s2]. cbn [snd] in *.
  tauto.
Qed.

(** X9.  After a run of the radio poller that got a response, the stored
    frequencies are those of the scan: a frequency is stored exactly when
    one of the broadcasts found in the response carries it, whatever was
    stored before.  The frequencies and ranges of the response and the
    stored frequencies are taken to be at most 2^53, the range in which the
    numbers of the source are exact. *)
Theorem radio_poller_stores_the_scan
    (w : World) (s : RustServer) (broadcasters : CommandResponse)
    (text : string) (f : N) :
  response broadcasters = Some text ->
  JS.truthy text = true ->
  safeScan text = true ->
  safeStored s = true ->
  f ∈ frequencies (updateBroadcasters_resume w s broadcasters).2
  <-> exists b, b ∈ parseBroadcasts text /\ frequency b = f.
Proof.
  intros Hr Ht _ _. rewrite (updateBroadcasters_resume_frequencies w s _ text f Hr Ht).
  rewrite list_elem_of_In, in_map_iff.
  split; intros (b & H1 & H2); exists b; rewrite ?list_elem_of_In in *; tauto.
Qed.

Lemma radio_poller_stores_the_scan_witness :
  4768%N ∈ frequencies
    (updateBroadcasters_resume Sample.world1 Sample.server1
       {| ok := true;
          response := Some "[4768 MHz] Position: (1.5, -2.0, 3), Range: 100";
          error := None |}).2
  <-> exists b,
        b ∈ parseBroadcasts "[4768 MHz] Position: (1.5, -2.0, 3), Range: 100" /\
        frequency b = 4768%N.
Proof.
  apply (radio_poller_stores_the_scan Sample.world1 Sample.server1 _
           "[4768 MHz] Position: (1.5, -2.0, 3), Range: 100"); reflexivity.
Defined.

(** X10.  The radio poller is idempotent on a response: a second run on the
    same response, from any state and on the server the first run left,
    emits no event and leaves the server as it is; it only stores the server
    again.  The frequencies and ranges of the response and the frequencies
    stored before the first run are taken to be at most 2^53, the range in
    which the numbers of the source are exact. *)
Theorem radio_poller_second_run_is_silent
    (w w' : World) (s : RustServer) (broadcasters : CommandResponse) (text : string) :
  response broadcasters = Some text ->
  JS.truthy text = true ->
  safeScan text = true ->
  safeStored s = true ->
  let s1 := (updateBroadcasters_resume w s broadcasters).2 in
  updateBroadcasters_resume w' s1 broadcasters = (update w' s1, s1).
Proof.
  intros Hr Ht _ _ s1.
  assert (Hs1 : forall f, f ∈ frequencies s1
                          <-> f ∈ List.map frequency (parseBroadcasts text))
    by (intros f; by apply updateBroadcasters_resume_frequencies).
  unfold updateBroadcasters_resume at 1. rewrite Hr.
  change (JS.truthy_opt (Some text)) with (JS.truthy text).
  change (default EmptyString (Some text)) with text. rewrite Ht.
  rewrite lostStep_nothing_lost by (intros f; apply Hs1).
  rewrite gainedStep_nothing_gained by (intros f; apply Hs1).
  reflexivity.
Qed.

Lemma radio_poller_second_run_is_silent_witness :
  let broadcasters :=
    {| ok := true;
       response := Some "[4768 MHz] Position: (1.5, -2.0, 3), Range: 100";
       error := None |} in
  let s1 := (updateBroadcasters_resume Sample.world1 Sample.server1 broadcasters).2 in
  updateBroadcasters_resume Sample.world1 s1 broadcasters
  = (update Sample.world1 s1, s1).
Proof.
  apply (radio_poller_second_run_is_silent Sample.world1 Sample.world1
           Sample.server1 _ "[4768 MHz] Position: (1.5, -2.0, 3), Range: 100");
    reflexivity.
Defined.

(** ** What the radio poller announces *)

Lemma fold_left_emits {A} (I : World * RustServer -> Prop) (Q : Emitted -> Prop)
    (f : World * RustServer -> A -> World * RustServer) (l : list A) st :
  I st ->
  (forall st a, I st -> a ∈ l ->
     I (f st a) /\
     exists evs, emitted (f st a).1 = (emitted st.1 ++ evs)%list /\ Forall Q evs) ->
  I (fold_left f l st) /\
  exists evs, emitted (fold_left f l st).1 = (emitted st.1 ++ evs)%list /\ Forall Q evs.
Proof.
  revert st. induction l as [|a l IH]; intros st Hi Hf; cbn [fold_left].
  - split; [done|]. exists []. by rewrite app_nil_r.
  - destruct (Hf st a Hi) as (Hi' & evs & He & Hq); [by left|].
    destruct (IH (f st a) Hi') as (Hi'' & evs' & He' & Hq').
    { intros st' a' H1 H2. apply Hf; [done | by right]. }
    split; [done|]. exists (evs ++ evs')%list. split.
    + by rewrite He', He, app_assoc.
    + by apply Forall_app.
Qed.

Lemma lostStep_announces broadcasts (s : RustServer) (w : World) :
  let st := fold_left (lostStep broadcasts) (frequencies s) (w, s) in
  identifier st.2 = identifier s /\
  exists evs, emitted st.1 = (emitted w ++ evs)%list /\
              Forall (announces s (frequencies s) broadcasts) evs.
Proof.
  apply (fold_left_emits (fun st => identifier st.2 = identifier s)
           (announces s (frequencies s) broadcasts)
           (lostStep broadcasts) (frequencies s) (w, s)); [done|].
  intros [w0 s0] x Hi Hx. cbn [snd] in Hi. unfold lostStep.
  destruct (existsb _ broadcasts) eqn:Hex; cbn [fst snd].
  - split; [done|]. exists []. by rewrite app_nil_r.
  - split; [done|]. eexists. split; [reflexivity|].
    apply Forall_singleton. split; [exact Hi|]. cbn [payload].
    split; [done|]. intros H. apply inScan in H. congruence.
Qed.

Lemma gainedStep_announces (scan bs : list Broadcast) (s : RustServer)
    (stored : list N) st :
  (forall b, b ∈ bs -> b ∈ scan) ->
  identifier st.2 = identifier s ->
  (forall f, f ∈ stored -> f ∈ List.map frequency scan -> f ∈ frequencies st.2) ->
  exists evs,
    emitted (fold_left gainedStep bs st).1 = (emitted st.1 ++ evs)%list /\
    Forall (announces s stored scan) evs.
Proof.
  intros Hsub Hi Hkept.
  apply (fold_left_emits
           (fun st => identifier st.2 = identifier s /\
                      forall f, f ∈ stored -> f ∈ List.map frequency scan ->
                                f ∈ frequencies st.2)
           (announces s stored scan) gainedStep bs st); [done|].
  intros [w0 s0] b [Hi0 Hk0] Hb. cbn [snd] in Hi0, Hk0. unfold gainedStep.
  case_bool_decide as Hin; cbn [fst snd].
  - split; [done|]. exists []. by rewrite app_nil_r.
  - assert (Hscan : frequency b ∈ List.map frequency scan).
    { apply list_elem_of_In, in_map, list_elem_of_In, Hsub, Hb. }
    assert (Hnew : frequency b ∉ stored) by (intros H; apply Hin; auto).
    assert (Hgain : announces s stored scan
              {| server := identifier s0;
                 payload := FrequencyGained (frequency b) (coordinates b) (range b) |}).
    { split; [exact Hi0|]. cbn [payload]. split; [done|].
      destruct b. by apply Hsub. }
    split.
    { cbn [identifier frequencies set_frequencies]. split; [done|].
      intros f H1 H2. apply elem_of_app. left. auto. }
    destruct (N.eqb (frequency b) 4765) eqn:E1;
      [|destruct (N.eqb (frequency b) 4768) eqn:E2].
    + apply N.eqb_eq in E1. eexists. split.
      { cbn [emit emitted set_emitted]. rewrite <- app_assoc. reflexivity. }
      apply Forall_cons. split; [|by apply Forall_singleton].
      split; [exact Hi0|]. cbn [payload]. split; [done|]. left.
      rewrite <- E1. auto.
    + apply N.eqb_eq in E2. eexists. split.
      { cbn [emit emitted set_emitted]. rewrite <- app_assoc. reflexivity. }
      apply Forall_cons. split; [|by apply Forall_singleton].
      split; [exact Hi0|]. cbn [payload]. split; [done|]. right.
      rewrite <- E2. auto.
    + eexists. split; [reflexivity|]. by apply Forall_singleton.
Qed.

Lemma updateBroadcasters_resume_emitted w s broadcasters text :
  response broadcasters = Some text ->
  JS.truthy text = true ->
  exists evs,
    emitted (updateBroadcasters_resume w s broadcasters).1 = (emitted w ++ evs)%list /\
    Forall (announces s (frequencies s) (parseBroadcasts text)) evs.
Proof.
  intros Hr Ht. unfold updateBroadcasters_resume. rewrite Hr.
  change (JS.truthy_opt (Some text)) with (JS.truthy text).
  change (default EmptyString (Some text)) with text. rewrite Ht.
  set (bs := parseBroadcasts text).
  destruct (lostStep_announces bs s w) as (Hi & evs1 & He1 & Hq1).
  pose proof (lostStep_frequencies bs (frequencies s) (w, s)) as Hl.
  set (st1 := fold_left (lostStep bs) (frequencies s) (w, s)) in *.
  destruct (gainedStep_announces bs bs s (frequencies s) st1) as (evs2 & He2 & Hq2);
    [done | done | |].
  { intros f H1 H2. apply Hl. auto. }
  destruct (fold_left gainedStep bs st1) as [w2 s2]. cbn [fst snd] in *.
  exists (evs1 ++ evs2)%list. split.
  - cbn [update emitted set_servers]. by rewrite He2, He1, app_assoc.
  - by apply Forall_app.
Qed.

(** X11.  The radio poller announces only real changes.  Every event of a
    run that got a response is addressed to the polled server and is either
    the loss of a frequency that was stored and that no broadcast of the
    response carries, or the gain of a broadcast of the response on a
    frequency that was not stored, or the start of "Small Oil Rig" or
    "Oil Rig" next to the gain of 4765 or 4768.  The frequencies and ranges
    of the response and the stored frequencies are taken to be at most
    2^53, the range in which the numbers of the source are exact. *)
Theorem radio_poller_announces_only_changes
    (w : World) (s : RustServer) (broadcasters : CommandResponse)
    (text : string) (e : Emitted) :
  response broadcasters = Some text ->
  JS.truthy text = true ->
  safeScan text = true ->
  safeStored s = true ->
  e ∈ newEvents w (updateBroadcasters_resume w s broadcasters).1 ->
  announces s (frequencies s) (parseBroadcasts text) e.
Proof.
  intros Hr Ht _ _ He.
  destruct (updateBroadcasters_resume_emitted w s broadcasters text Hr Ht)
    as (evs & Hev & Hq).
  unfold newEvents in He. rewrite Hev, drop_app_length in He.
  rewrite Forall_forall in Hq. auto.
Qed.

Lemma radio_poller_announces_only_changes_witness :
  announces Sample.server1 [4765%N]
    (parseBroadcasts "[4768 MHz] Position: (1.5, -2.0, 3), Range: 100")
    {| server := "server1"; payload := FrequencyLost 4765 |}.
Proof.
  refine (radio_poller_announces_only_changes Sample.world1 Sample.server1
            {| ok := true;
               response := Some "[4768 MHz] Position: (1.5, -2.0, 3), Range: 100";
               error := None |}
            "[4768 MHz] Position: (1.5, -2.0, 3), Range: 100" _ _ _ _ _ _);
    [reflexivity | reflexivity | reflexivity | reflexivity | vm_compute; by left].
Defined.

Lemma lostStep_appends broadcasts st x :
  identifier (lostStep broadcasts st x).2 = identifier st.2 /\
  exists evs, emitted (lostStep broadcasts st x).1 = (emitted st.1 ++ evs)%list.
Proof.
  destruct st as [w s]. unfold lostStep.
  destruct (existsb _ broadcasts); cbn [fst snd]; (split; [done|]).
  - exists []. by rewrite app_nil_r.
  - by eexists.
Qed.

Lemma gainedStep_appends st b :
  identifier (gainedStep st b).2 = identifier st.2 /\
  exists evs, emitted (gainedStep st b).1 = (emitted st.1 ++ evs)%list.
Proof.
  destruct st as [w s]. unfold gainedStep.
  case_bool_decide; cbn [fst snd]; (split; [done|]).
  - exists []. by rewrite app_nil_r.
  - destruct (N.eqb (frequency b) 4765); [|destruct (N.eqb (frequency b) 4768)];
      cbn [emit emitted set_emitted]; rewrite <- ?app_assoc; by eexists.
Qed.

Lemma fold_left_appends {A} (f : World * RustServer -> A -> World * RustServer)
    (l : list A) st :
  (forall st a, identifier (f st a).2 = identifier st.2 /\
                exists evs, emitted (f st a).1 = (emitted st.1 ++ evs)%list) ->
  identifier (fold_left f l st).2 = identifier st.2 /\
  exists evs, emitted (fold_left f l st).1 = (emitted st.1 ++ evs)%list.
Proof.
  intros Hf. revert st. induction l as [|a l IH]; intros st; cbn [fold_left].
  - split; [done|]. exists []. by rewrite app_nil_r.
  - destruct (IH (f st a)) as (Hi & evs & He). destruct (Hf st a) as (Hi' & evs' & He').
    split; [congruence|]. exists (evs' ++ evs)%list. by rewrite He, He', app_assoc.
Qed.

Lemma lostStep_announced broadcasts (l : list N) st f :
  f ∈ l -> f ∉ List.map frequency broadcasts ->
  exists evs,
    emitted (fold_left (lostStep broadcasts) l st).1 = (emitted st.1 ++ evs)%list /\
    {| server := identifier st.2; payload := FrequencyLost f |} ∈ evs.
Proof.
  intros Hin Hn. revert st. induction l as [|x l IH]; intros st.
  - by apply elem_of_nil in Hin.
  - cbn [fold_left]. destruct (decide (x = f)) as [->|Hne].
    + destruct st as [w s].
      assert (Hstep : lostStep broadcasts (w, s) f
                = (emit w s (FrequencyLost f),
                   set_frequencies s (filter (fun x => x <> f) (frequencies s)))).
      { unfold lostStep.
        destruct (existsb _ broadcasts) eqn:Hex; [by apply inScan in Hex | done]. }
      rewrite Hstep.
      destruct (fold_left_appends (lostStep broadcasts) l
                  (emit w s (FrequencyLost f),
                   set_frequencies s (filter (fun x => x <> f) (frequencies s)))
                  (lostStep_appends broadcasts)) as (_ & evs & He).
      cbn [fst snd emit emitted set_emitted] in *.
      eexists. split; [rewrite He, <- app_assoc; reflexivity|].
      apply elem_of_app. left. by apply list_elem_of_singleton.
    + apply elem_of_cons in Hin. destruct Hin as [Hin|Hin]; [congruence|].
      destruct (IH Hin (lostStep broadcasts st x)) as (evs & He & Hev).
      destruct (lostStep_appends broadcasts st x) as (Hi & evs0 & He0).
      exists (evs0 ++ evs)%list. split; [by rewrite He, He0, app_assoc|].
      apply elem_of_app. right. by rewrite <- Hi.
Qed.

Lemma gainedStep_announced (bs : list Broadcast) st f :
  f ∈ List.map frequency bs -> f ∉ frequencies st.2 ->
  exists evs c rg,
    emitted (fold_left gainedStep bs st).1 = (emitted st.1 ++ evs)%list /\
    Build_Broadcast f c rg ∈ bs /\
    {| server := identifier st.2; payload := FrequencyGained f c rg |} ∈ evs.
Proof.
  revert st. induction bs as [|b bs IH]; intros st Hin Hn; cbn [List.map] in Hin.
  - by apply elem_of_nil in Hin.
  - cbn [fold_left]. destruct (decide (frequency b = f)) as [Hb|Hne].
    + destruct (fold_left_appends gainedStep bs (gainedStep st b) gainedStep_appends)
        as (_ & evs & He).
      destruct st as [w s]. cbn [snd] in Hn.
      assert (Hstep : gainedStep (w, s) b
                = let s1 := set_frequencies s (frequencies s ++ [frequency b])%list in
                  (emit (if N.eqb (frequency b) 4765
                         then emit w s1 (EventStart "Small Oil Rig" false)
                         else if N.eqb (frequency b) 4768
                              then emit w s1 (EventStart "Oil Rig" false)
                              else w) s1
                     (FrequencyGained (frequency b) (coordinates b) (range b)), s1)).
      { unfold gainedStep. by rewrite bool_decide_eq_false_2 by (by rewrite Hb). }
      rewrite Hstep in *. cbv zeta in *.
      cbn [fst snd] in *. exists
        ((if N.eqb (frequency b) 4765
          then [{| server := identifier s; payload := EventStart "Small Oil Rig" false |}]
          else if N.eqb (frequency b) 4768
               then [{| server := identifier s; payload := EventStart "Oil Rig" false |}]
               else []) ++
         [{| server := identifier s;
             payload := FrequencyGained (frequency b) (coordinates b) (range b) |}]
         ++ evs)%list, (coordinates b), (range b).
      split; [|split].
      * rewrite He.
        destruct (N.eqb (frequency b) 4765); [|destruct (N.eqb (frequency b) 4768)];
          cbn [emit emitted set_emitted identifier set_frequencies];
          by rewrite <- ?app_assoc.
      * rewrite <- Hb. destruct b. by left.
      * rewrite <- Hb. apply elem_of_app. right. by left.
    + apply elem_of_cons in Hin. destruct Hin as [Hin|Hin]; [congruence|].
      destruct (gainedStep_appends st b) as (Hi & evs0 & He0).
      destruct (IH (gainedStep st b) Hin) as (evs & c & rg & He & Hbs & Hev).
      { destruct st as [w s]. unfold gainedStep.
        case_bool_decide; cbn [snd frequencies set_frequencies]; [done|].
        rewrite elem_of_app, list_elem_of_singleton. cbn [snd] in Hn.
        intros [Hf|Hf]; [by apply Hn | by apply Hne]. }
      exists (evs0 ++ evs)%list, c, rg. split; [by rewrite He, He0, app_assoc|].
      split; [by right|]. apply elem_of_app. right. by rewrite <- Hi.
Qed.

(** X12.  The radio poller announces every change.  In a run that got a
    response, each stored frequency that no broadcast of the response
    carries is reported lost, and each frequency of the response that was
    not stored is reported gained, with the coordinates and the range of one
    of its broadcasts.  The frequencies and ranges of the response and the
    stored frequencies are taken to be at most 2^53, the range in which the
    numbers of the source are exact. *)
Theorem radio_poller_announces_every_change
    (w : World) (s : RustServer) (broadcasters : CommandResponse)
    (text : string) (f : N) :
  response broadcasters = Some text ->
  JS.truthy text = true ->
  safeScan text = true ->
  safeStored s = true ->
  let evs := newEvents w (updateBroadcasters_resume w s broadcasters).1 in
  (f ∈ frequencies s -> f ∉ List.map frequency (parseBroadcasts text) ->
   {| server := identifier s; payload := FrequencyLost f |} ∈ evs) /\
  (f ∈ List.map frequency (parseBroadcasts text) -> f ∉ frequencies s ->
   exists c rg,
     Build_Broadcast f c rg ∈ parseBroadcasts text /\
     {| server := identifier s; payload := FrequencyGained f c rg |} ∈ evs).
Proof.
  intros Hr Ht _ _. unfold updateBroadcasters_resume. rewrite Hr.
  change (JS.truthy_opt (Some text)) with (JS.truthy text).
  change (default EmptyString (Some text)) with text. rewrite Ht.
  set (bs := parseBroadcasts text).
  set (st1 := fold_left (lostStep bs) (frequencies s) (w, s)).
  destruct (fold_left_appends (lostStep bs) (frequencies s) (w, s)
              (lostStep_appends bs)) as (Hi1 & evs1 & He1).
  destruct (fold_left_appends gainedStep bs st1 gainedStep_appends)
    as (Hi2 & evs2 & He2).
  fold st1 in Hi1, He1. cbn [fst snd] in Hi1, He1.
  pose proof (lostStep_frequencies bs (frequencies s) (w, s) f) as Hl.
  fold st1 in Hl. cbn [snd] in Hl.
  split.
  - intros Hin Hn.
    destruct (lostStep_announced bs (frequencies s) (w, s) f Hin Hn)
      as (evs & He & Hev).
    fold st1 in He. cbn [fst snd] in He, Hev.
    destruct (fold_left gainedStep bs st1) as [w2 s2]. cbn [fst snd] in *.
    unfold newEvents. cbn [update emitted set_servers].
    rewrite He2, He, <- app_assoc, drop_app_length.
    apply elem_of_app. by left.
  - intros Hin Hn.
    destruct (gainedStep_announced bs st1 f Hin) as (evs & c & rg & He & Hb & Hev).
    { intros H. apply Hl in H. tauto. }
    exists c, rg. split; [exact Hb|]. rewrite Hi1 in Hev.
    destruct (fold_left gainedStep bs st1) as [w2 s2]. cbn [fst snd] in *.
    unfold newEvents. cbn [update emitted set_servers].
    rewrite He, He1, <- app_assoc, drop_app_length.
    apply elem_of_app. by right.
Qed.

Lemma radio_poller_announces_every_change_witness :
  let evs := newEvents Sample.world1
               (updateBroadcasters_resume Sample.world1 Sample.server1
                  {| ok := true;
                     response := Some "[4768 MHz] Position: (1.5, -2.0, 3), Range: 100";
                     error := None |}).1 in
  frequencies Sample.server1 = [4765%N] /\
  {| server := "server1"; payload := FrequencyLost 4765 |} ∈ evs /\
  exists c rg,
    Build_Broadcast 4768 c rg
      ∈ parseBroadcasts "[4768 MHz] Position: (1.5, -2.0, 3), Range: 100" /\
    {| server := "server1"; payload := FrequencyGained 4768 c rg |} ∈ evs.
Proof.
  cbv zeta. split; [reflexivity|]. split.
  - apply (proj1 (radio_poller_announces_every_change Sample.world1 Sample.server1
                    {| ok := true;
                       response := Some "[4768 MHz] Position: (1.5, -2.0, 3), Range: 100";
                       error := None |}
                    "[4768 MHz] Position: (1.5, -2.0, 3), Range: 100" 4765%N
                    eq_refl eq_refl eq_refl eq_refl)).
    + apply (bool_decide_unpack _). vm_compute. exact I.
    + apply (bool_decide_unpack _). vm_compute. exact I.
  - apply (proj2 (radio_poller_announces_every_change Sample.world1 Sample.server1
                    {| ok := true;
                       response := Some "[4768 MHz] Position: (1.5, -2.0, 3), Range: 100";
                       error := None |}
                    "[4768 MHz] Position: (1.5, -2.0, 3), Range: 100" 4768%N
                    eq_refl eq_refl eq_refl eq_refl)).
    + apply (bool_decide_unpack _). vm_compute. exact I.
    + apply (bool_decide_unpack _). vm_compute. exact I.
Defined.

(** ** The scan of the broadcaster list *)

Lemma span_run p a r :
  allChars p a = true -> beginsWith p r = false ->
  span p (a ++ r) = (a, r).
Proof.
  intros Ha Hr. induction a as [|c a IH].
  - rewrite append_nil_l. destruct r as [|c r]; [done|]. cbn in *. by rewrite Hr.
  - rewrite append_cons. cbn [allChars] in Ha. apply andb_true_iff in Ha.
    destruct Ha as [Hc Ha]. cbn [span]. rewrite Hc, (IH Ha). done.
Qed.

Lemma some_run p a r :
  run p a = true -> beginsWith p r = false ->
  some p (a ++ r) = Some (a, r).
Proof.
  intros Ha Hr. unfold some. destruct a as [|c a]; [discriminate|].
  cbn [run] in Ha. by rewrite (span_run p _ r Ha Hr).
Qed.

Lemma dropPrefix_app lit r : dropPrefix lit (lit ++ r) = Some r.
Proof.
  induction lit as [|c lit IH]; [done|]. rewrite append_cons. cbn [dropPrefix].
  by rewrite Ascii.eqb_refl.
Qed.

Lemma matchBroadcast_line f x y z r rest :
  run JS.isDigit f = true -> run isCoordinateChar x = true ->
  run isCoordinateChar y = true -> run isCoordinateChar z = true ->
  run JS.isDigit r = true -> beginsWith JS.isDigit rest = false ->
  matchBroadcast (broadcastLine f x y z r ++ rest) = Some (f, x, y, z, r, rest).
Proof.
  intros Hf Hx Hy Hz Hr Hrest. unfold matchBroadcast, broadcastLine.
  rewrite !append_assoc.
  rewrite dropPrefix_app. cbn [mbind option_bind].
  rewrite (some_run _ f) by done. cbn [mbind option_bind].
  rewrite dropPrefix_app. cbn [mbind option_bind].
  rewrite (some_run _ x) by done. cbn [mbind option_bind].
  rewrite dropPrefix_app. cbn [mbind option_bind].
  rewrite (some_run _ y) by done. cbn [mbind option_bind].
  rewrite dropPrefix_app. cbn [mbind option_bind].
  rewrite (some_run _ z) by done. cbn [mbind option_bind].
  rewrite dropPrefix_app. cbn [mbind option_bind].
  rewrite (some_run _ r) by done. cbn [mbind option_bind].
  reflexivity.
Qed.

Lemma length_append (a b : string) :
  String.length (a ++ b) = String.length a + String.length b.
Proof. induction a as [|c a IH]; [done|]. rewrite append_cons. cbn [String.length]. lia. Qed.

Lemma scanBroadcasts_skip a r :
  scanBroadcasts (String.length a) (a ++ r) = scanBroadcasts 0 r.
Proof.
  induction a as [|c a IH]; [by rewrite append_nil_l|].
  rewrite append_cons. cbn [String.length scanBroadcasts]. exact IH.
Qed.

Lemma scanBroadcasts_noBracket pre r :
  allChars (fun c => negb (Ascii.eqb c "[")) pre = true ->
  scanBroadcasts 0 (pre ++ r) = scanBroadcasts 0 r.
Proof.
  induction pre as [|c pre IH]; intros H; [by rewrite append_nil_l|].
  cbn [allChars] in H. apply andb_true_iff in H. destruct H as [Hc H].
  rewrite append_cons. cbn [scanBroadcasts].
  assert (Hm : matchBroadcast (String c (pre ++ r)) = None).
  { unfold matchBroadcast. cbn [dropPrefix].
    rewrite Ascii.eqb_sym. apply negb_true_iff in Hc. by rewrite Hc. }
  rewrite Hm. by apply IH.
Qed.

Lemma scanned_line pre f x y z r post :
  allChars (fun c => negb (Ascii.eqb c "[")) pre = true ->
  run JS.isDigit f = true -> run isCoordinateChar x = true ->
  run isCoordinateChar y = true -> run isCoordinateChar z = true ->
  run JS.isDigit r = true -> beginsWith JS.isDigit post = false ->
  parseBroadcasts (pre ++ broadcastLine f x y z r ++ post)
  = {| frequency := digitsToN 0 f; coordinates := [x; y; z];
       range := digitsToN 0 r |} :: parseBroadcasts post.
Proof.
  intros Hpre Hf Hx Hy Hz Hr Hpost. unfold parseBroadcasts.
  rewrite scanBroadcasts_noBracket by done.
  pose proof (matchBroadcast_line f x y z r post Hf Hx Hy Hz Hr Hpost) as Hm.
  assert (Hline : exists t, broadcastLine f x y z r = String "[" t).
  { unfold broadcastLine. rewrite append_cons. by eexists. }
  destruct Hline as [t Ht]. rewrite Ht in *. rewrite append_cons in *.
  cbn [scanBroadcasts]. rewrite Hm. f_equal.
  cbn [String.length]. rewrite length_append.
  replace (S (String.length t + String.length post) - String.length post - 1)
    with (String.length t) by lia.
  apply scanBroadcasts_skip.
Qed.

(** X13.  The scan of the broadcaster list reads a well-formed line as one
    broadcast.  Text without an opening bracket before the line is passed
    over; on the line of the shape
    <<[f MHz] Position: (x, y, z), Range: r>>, with f and r runs of digits
    and x, y, z runs of digits, dots and minus signs, and no digit behind
    it, the pattern captures f, x, y, z and r; the line gives one broadcast,
    whose frequency and range are f and r read in base ten, both taken to
    be at most 2^53, and the scan goes on behind the line.  The coordinates
    are what [parseFloat] makes of the captures x, y and z. *)
Theorem broadcast_line_is_scanned pre f x y z r post :
  allChars (fun c => negb (Ascii.eqb c "[")) pre = true ->
  run JS.isDigit f = true -> run isCoordinateChar x = true ->
  run isCoordinateChar y = true -> run isCoordinateChar z = true ->
  run JS.isDigit r = true -> beginsWith JS.isDigit post = false ->
  safeInteger (digitsToN 0 f) = true ->
  safeInteger (digitsToN 0 r) = true ->
  matchBroadcast (broadcastLine f x y z r ++ post) = Some (f, x, y, z, r, post) /\
  numbersOf (parseBroadcasts (pre ++ broadcastLine f x y z r ++ post))
  = (digitsToN 0 f, digitsToN 0 r) :: numbersOf (parseBroadcasts post).
Proof.
  intros Hpre Hf Hx Hy Hz Hr Hpost _ _. split.
  - by apply matchBroadcast_line.
  - by rewrite (scanned_line pre f x y z r post).
Qed.

Lemma broadcast_line_is_scanned_witness :
  matchBroadcast (broadcastLine "4768" "1.5" "-2.0" "3" "100" ++ " end")
  = Some ("4768", "1.5", "-2.0", "3", "100", " end") /\
  numbersOf (parseBroadcasts
               ("Broadcasters: " ++ broadcastLine "4768" "1.5" "-2.0" "3" "100" ++ " end"))
  = (4768%N, 100%N) :: numbersOf (parseBroadcasts " end").
Proof.
  apply (broadcast_line_is_scanned "Broadcasters: " "4768" "1.5" "-2.0" "3" "100" " end");
    reflexivity.
Defined.

(** ** The player poller *)

Import Pollers.

Lemma scanQuoted_noQuote pre r :
  plain pre = true ->
  scanQuoted 0 (pre ++ r) = scanQuoted 0 r.
Proof.
  unfold plain. induction pre as [|c pre IH]; intros H; [by rewrite append_nil_l|].
  cbn [allChars] in H. apply andb_true_iff in H. destruct H as [Hc H].
  rewrite append_cons. cbn [scanQuoted].
  apply negb_true_iff in Hc. rewrite Hc. by apply IH.
Qed.

Lemma closingQuote_name name post :
  nameText name = true ->
  closingQuote (name ++ String DQ post) = Some (name, post).
Proof.
  unfold nameText. induction name as [|c name IH]; intros H.
  - rewrite append_nil_l. cbn [closingQuote]. by rewrite Ascii.eqb_refl.
  - cbn [allChars] in H. apply andb_true_iff in H. destruct H as [Hc H].
    apply andb_true_iff in Hc. destruct Hc as [Hq Hl].
    apply negb_true_iff in Hq, Hl.
    rewrite append_cons. cbn [closingQuote]. by rewrite Hq, Hl, (IH H).
Qed.

Lemma scanQuoted_skip a r :
  scanQuoted (String.length a) (a ++ r) = scanQuoted 0 r.
Proof.
  induction a as [|c a IH]; [by rewrite append_nil_l|].
  rewrite append_cons. cbn [String.length scanQuoted]. exact IH.
Qed.

Lemma removeQuotes_quoted name :
  nameText name = true ->
  removeQuotes (String DQ (name ++ String DQ EmptyString)) = name.
Proof.
  unfold nameText. intros H. cbn [removeQuotes]. rewrite Ascii.eqb_refl.
  induction name as [|c name IH].
  - rewrite append_nil_l. cbn [removeQuotes]. by rewrite Ascii.eqb_refl.
  - cbn [allChars] in H. apply andb_true_iff in H. destruct H as [Hc H].
    apply andb_true_iff in Hc. destruct Hc as [Hq _]. apply negb_true_iff in Hq.
    rewrite append_cons. cbn [removeQuotes]. by rewrite Hq, (IH H).
Qed.

Lemma quoted_name_is_scanned pre name post :
  plain pre = true ->
  nameText name = true ->
  List.map removeQuotes (scanQuoted 0 (pre ++ String DQ (name ++ String DQ post)))
  = name :: List.map removeQuotes (scanQuoted 0 post).
Proof.
  intros Hpre Hname. rewrite scanQuoted_noQuote by done.
  cbn [scanQuoted]. rewrite Ascii.eqb_refl, closingQuote_name by done.
  cbn [List.map]. rewrite removeQuotes_quoted by done. f_equal. f_equal.
  change (String DQ post) with (String DQ EmptyString ++ post)%string.
  rewrite <- append_assoc.
  replace (S (String.length name))
    with (String.length (name ++ String DQ EmptyString)).
  - apply scanQuoted_skip.
  - rewrite length_append. cbn [String.length]. lia.
Qed.

Lemma scanQuoted_quotedText items rest :
  forallb (fun it => plain it.1 && nameText it.2) items = true ->
  plain rest = true ->
  List.map removeQuotes (scanQuoted 0 (quotedText items rest)) = List.map snd items.
Proof.
  intros Hitems Hrest. induction items as [|[pre name] items IH].
  - cbn [quotedText fold_right List.map].
    rewrite <- (append_nil_r rest), scanQuoted_noQuote by done. reflexivity.
  - cbn [forallb fst snd] in Hitems. apply andb_true_iff in Hitems.
    destruct Hitems as [H1 H2]. apply andb_true_iff in H1. destruct H1 as [Hp Hn].
    cbn [quotedText fold_right fst snd List.map].
    rewrite quoted_name_is_scanned by done. f_equal. by apply IH.
Qed.

Lemma filter_none {A} (P : A -> Prop) `{forall x, Decision (P x)} (l : list A) :
  (forall x, x ∈ l -> ~ P x) -> filter P l = [].
Proof.
  induction l as [|x l IH]; intros Hl; [done|].
  rewrite filter_cons_False by (apply Hl; by left).
  apply IH. intros y Hy. apply Hl. by right.
Qed.

Lemma comparePopulation_same (l : list string) :
  Helper.comparePopulation l l = {| Helper.joined := []; Helper.left := [] |}.
Proof.
  pose proof (comparePopulation_joined l l) as Hj.
  pose proof (comparePopulation_left l l) as Hl.
  destruct (Helper.comparePopulation l l) as [j lf]. cbn in Hj, Hl.
  rewrite Hj, Hl, filter_none by (intros x Hx Hn; by apply Hn). reflexivity.
Qed.

(** X14.  The player poller throws on a response without quoted text: when
    the [Users] command returned a non-empty text that holds no double
    quote, the pattern finds nothing and the call of [map] on its [null]
    result raises. *)
Theorem updatePlayers_throws_without_quoted_text
    (w : World) (s : RustServer) (result : CommandResponse) (text : string) :
  response result = Some text ->
  JS.truthy text = true ->
  plain text = true ->
  updatePlayers_resume w s result = None.
Proof.
  intros Hr Ht Hp. unfold updatePlayers_resume. rewrite Hr.
  change (JS.truthy_opt (Some text)) with (JS.truthy text).
  change (default EmptyString (Some text)) with text. rewrite Ht.
  unfold matchQuoted. rewrite <- (append_nil_r text), scanQuoted_noQuote by done.
  reflexivity.
Qed.

Lemma updatePlayers_throws_without_quoted_text_witness :
  updatePlayers_resume Sample.world1 Sample.server1
    {| ok := true; response := Some "No users connected"; error := None |} = None.
Proof.
  apply (updatePlayers_throws_without_quoted_text Sample.world1 Sample.server1 _
           "No users connected"); reflexivity.
Defined.

(** X15.  The player poller reads the quoted names of the response.  For a
    response made of quoted texts, each free of double quotes and line
    ends and each preceded by text without a double quote, the first quoted
    text is dropped and the others become the players of the server, in
    order.  The server is stored with them, after one joined event per name
    that was not a player before and one left event per player that is no
    longer named; the list-updated event comes last and carries the names
    and both differences. *)
Theorem updatePlayers_reads_quoted_names
    (w : World) (s : RustServer) (result : CommandResponse)
    (header : string * string) (items : list (string * string)) (rest : string) :
  response result = Some (quotedText (header :: items) rest) ->
  forallb (fun it => plain it.1 && nameText it.2) (header :: items) = true ->
  plain rest = true ->
  let names := List.map snd items in
  let d := Helper.comparePopulation (players s) names in
  let s' := set_players s names in
  updatePlayers_resume w s result
  = Some (update w s', s',
          (List.map (fun p => (identifier s, PlayerJoined p)) (Helper.joined d)
           ++ List.map (fun p => (identifier s, PlayerLeft p)) (Helper.left d)
           ++ [(identifier s,
                PlayerListUpdated names (Helper.joined d) (Helper.left d))])%list).
Proof.
  intros Hr Hitems Hrest names d s'. unfold updatePlayers_resume. rewrite Hr.
  change (default EmptyString (Some ?t)) with t.
  assert (Ht : JS.truthy_opt (Some (quotedText (header :: items) rest)) = true).
  { cbn [quotedText fold_right JS.truthy_opt]. destruct header as [[|c pre] name];
      cbn [fst]; [rewrite append_nil_l | rewrite append_cons]; reflexivity. }
  rewrite Ht.
  pose proof (scanQuoted_quotedText (header :: items) rest Hitems Hrest) as Hscan.
  unfold matchQuoted.
  destruct (scanQuoted 0 (quotedText (header :: items) rest)) as [|q qs] eqn:Hq;
    [discriminate Hscan|].
  cbn [List.map] in Hscan. injection Hscan as _ Hqs.
  cbn [List.map tail]. rewrite Hqs. reflexivity.
Qed.

Lemma updatePlayers_reads_quoted_names_witness :
  updatePlayers_resume Sample.world1 (set_players Sample.server1 ["carol"; "bob"])
    {| ok := true;
       response := Some (quotedText [("<slot:", "userid"); (LF, "alice"); (LF, "bob")] LF);
       error := None |}
  = Some (update Sample.world1 (set_players Sample.server1 ["alice"; "bob"]),
          set_players Sample.server1 ["alice"; "bob"],
          [("server1", PlayerJoined "alice"); ("server1", PlayerLeft "carol");
           ("server1", PlayerListUpdated ["alice"; "bob"] ["alice"] ["carol"])]).
Proof.
  apply (updatePlayers_reads_quoted_names Sample.world1
           (set_players Sample.server1 ["carol"; "bob"]) _
           ("<slot:", "userid") [(LF, "alice"); (LF, "bob")] LF); reflexivity.
Defined.

(** X16.  Polling the players twice on the same response announces nobody
    the second time: the second run, on the server the first run left,
    emits only the list-updated event, with nobody joined and nobody left,
    and leaves the server as it is. *)
Theorem updatePlayers_second_run_announces_nobody
    (w w' w1 : World) (s s1 : RustServer) (result : CommandResponse)
    (evs : list (string * PlayerEvent)) :
  JS.truthy_opt (response result) = true ->
  updatePlayers_resume w s result = Some (w1, s1, evs) ->
  updatePlayers_resume w' s1 result
  = Some (update w' s1, s1, [(identifier s, PlayerListUpdated (players s1) [] [])]).
Proof.
  intros Ht. unfold updatePlayers_resume. rewrite Ht.
  destruct (matchQuoted _) as [quoted|]; [|discriminate].
  intros [= _ <- _]. cbn [players set_players identifier].
  rewrite comparePopulation_same. reflexivity.
Qed.

Lemma updatePlayers_second_run_announces_nobody_witness :
  let result :=
    {| ok := true;
       response := Some (quotedText [("<slot:", "userid"); (LF, "alice")] LF);
       error := None |} in
  let s1 := set_players Sample.server1 ["alice"] in
  updatePlayers_resume Sample.world1 s1 result
  = Some (update Sample.world1 s1, s1, [("server1", PlayerListUpdated ["alice"] [] [])]).
Proof.
  refine (updatePlayers_second_run_announces_nobody Sample.world1 Sample.world1
            (update Sample.world1 (set_players Sample.server1 ["alice"]))
            Sample.server1 _ _
            [("server1", PlayerJoined "alice");
             ("server1", PlayerListUpdated ["alice"] ["alice"] [])] _ _);
    reflexivity.
Defined.

(** ** The debris poller *)

Lemma findDebris_flags marker flag event text st f :
  f ∈ flags (findDebris marker flag event text st).1.2
  <-> f ∈ flags st.1.2 \/ (f = flag /\ JS.includes text marker = true).
Proof.
  destruct st as [[w s] armed]. unfold findDebris.
  destruct (JS.includes text marker) eqn:Hi; cbn [andb];
    [case_bool_decide as Hf; cbn [negb]|]; cbn [fst snd flags set_flags].
  - split; [tauto|]. intros [H|[-> _]]; done.
  - rewrite elem_of_app, list_elem_of_singleton. tauto.
  - split; [tauto|]. intros [H|[_ H]]; [done | discriminate].
Qed.

Lemma findDebris_flagged marker flag event text st :
  (JS.includes text marker = true -> flag ∈ flags st.1.2) ->
  findDebris marker flag event text st = st.
Proof.
  destruct st as [[w s] armed]. cbn [fst snd]. intros H. unfold findDebris.
  destruct (JS.includes text marker); [|done].
  by rewrite bool_decide_eq_true_2 by auto.
Qed.

(** X17.  While its flag is set a debris sighting is not announced again:
    a second run of the debris poller on the same two responses, from any
    state and on the server the first run left, emits nothing, arms no
    timer and leaves the server as it is; it only stores the server
    again. *)
Theorem fetchGibs_second_run_is_silent
    (w w' : World) (s : RustServer) (bradley heli : CommandResponse) :
  JS.truthy_opt (response bradley) = true ->
  JS.truthy_opt (response heli) = true ->
  let s1 := (fetchGibs_resume w s bradley heli).1.2 in
  fetchGibs_resume w' s1 bradley heli = (update w' s1, s1, []).
Proof.
  intros Hb Hh s1.
  set (tb := default EmptyString (response bradley)).
  set (th := default EmptyString (response heli)).
  assert (Hs1 : forall f, f ∈ flags s1 <->
            f ∈ flags s \/ (f = "BRADLEY" /\ JS.includes tb "servergibs_bradley" = true)
            \/ (f = "HELICOPTER" /\ JS.includes th "servergibs_patrolhelicopter" = true)).
  { intros f. unfold s1, fetchGibs_resume. rewrite Hb, Hh. cbn [negb orb].
    fold tb th.
    pose proof (findDebris_flags "servergibs_patrolhelicopter" "HELICOPTER"
                  "Patrol Helicopter Debris" th
                  (findDebris "servergibs_bradley" "BRADLEY" "Bradley APC Debris"
                     tb (w, s, [])) f) as H2.
    pose proof (findDebris_flags "servergibs_bradley" "BRADLEY" "Bradley APC Debris"
                  tb (w, s, []) f) as H1.
    destruct (findDebris "servergibs_patrolhelicopter" _ _ th _) as [[w2 s2] armed].
    cbn [fst snd] in *. tauto. }
  unfold fetchGibs_resume at 1. rewrite Hb, Hh. cbn [negb orb]. fold tb th.
  rewrite (findDebris_flagged "servergibs_bradley") by (cbn [fst snd]; intros H; apply Hs1; auto).
  rewrite (findDebris_flagged "servergibs_patrolhelicopter")
    by (cbn [fst snd]; intros H; apply Hs1; auto).
  reflexivity.
Qed.

Lemma fetchGibs_second_run_is_silent_witness :
  let bradley := {| ok := true; response := Some "servergibs_bradley[1]"; error := None |} in
  let heli := {| ok := true; response := Some "none"; error := None |} in
  let s1 := (fetchGibs_resume Sample.world1 Sample.server1 bradley heli).1.2 in
  fetchGibs_resume Sample.world1 s1 bradley heli = (update Sample.world1 s1, s1, []).
Proof.
  apply (fetchGibs_second_run_is_silent Sample.world1 Sample.world1 Sample.server1);
    reflexivity.
Defined.

Lemma findDebris_appends marker flag event text st :
  identifier (findDebris marker flag event text st).1.2 = identifier st.1.2 /\
  now (findDebris marker flag event text st).1.1 = now st.1.1 /\
  servers (findDebris marker flag event text st).1.1 = servers st.1.1 /\
  exists evs ts,
    emitted (findDebris marker flag event text st).1.1 = (emitted st.1.1 ++ evs)%list /\
    (findDebris marker flag event text st).2 = (st.2 ++ ts)%list.
Proof.
  destruct st as [[w s] armed]. unfold findDebris.
  destruct (_ && _); cbn [fst snd].
  - repeat split. by eexists _, _.
  - repeat split. exists [], []. by rewrite !app_nil_r.
Qed.

Lemma fetchGibs_announces_bradley w s bradley heli :
  JS.truthy_opt (response bradley) = true ->
  JS.truthy_opt (response heli) = true ->
  JS.includes (default EmptyString (response bradley)) "servergibs_bradley" = true ->
  "BRADLEY" ∉ flags s ->
  let r := fetchGibs_resume w s bradley heli in
  {| server := identifier s; payload := EventStart "Bradley APC Debris" false |}
    ∈ newEvents w r.1.1 /\
  {| ft_due := (now w + 60000 * 10)%N; ft_identifier := identifier s;
     ft_flag := "BRADLEY" |} ∈ r.2 /\
  "BRADLEY" ∈ flags r.1.2 /\
  identifier r.1.2 = identifier s /\
  Servers.get r.1.1 (identifier s) = Some r.1.2.
Proof.
  intros Hb Hh Hi Hf. unfold fetchGibs_resume. rewrite Hb, Hh. cbn [negb orb].
  set (tb := default EmptyString (response bradley)) in *.
  set (th := default EmptyString (response heli)).
  assert (H1 : findDebris "servergibs_bradley" "BRADLEY" "Bradley APC Debris" tb (w, s, [])
               = let s1 := set_flags s (flags s ++ ["BRADLEY"])%list in
                 (emit w s1 (EventStart "Bradley APC Debris" false), s1,
                  [{| ft_due := (now w + 60000 * 10)%N; ft_identifier := identifier s;
                      ft_flag := "BRADLEY" |}])).
  { unfold findDebris. rewrite Hi. by rewrite bool_decide_eq_false_2 by done. }
  rewrite H1. cbv zeta.
  set (st1 := (emit w _ _, _, _)).
  destruct (findDebris_appends "servergibs_patrolhelicopter" "HELICOPTER"
              "Patrol Helicopter Debris" th st1) as (Hid & _ & _ & evs & ts & He & Ht).
  pose proof (findDebris_flags "servergibs_patrolhelicopter" "HELICOPTER"
                "Patrol Helicopter Debris" th st1 "BRADLEY") as Hfl.
  destruct (findDebris "servergibs_patrolhelicopter" _ _ th st1) as [[w2 s2] armed].
  cbn [fst snd st1 identifier set_flags emit emitted set_emitted flags] in *.
  split; [|split; [|split; [|split]]].
  - unfold newEvents. cbn [update emitted set_servers].
    rewrite He, <- app_assoc, drop_app_length. by left.
  - rewrite Ht. by left.
  - apply Hfl. left. apply elem_of_app. right. by left.
  - exact Hid.
  - unfold Servers.get, update. cbn [servers set_servers]. rewrite <- Hid.
    apply lookup_insert_eq.
Qed.

(** X18.  The debris flag re-arms.  A run of the debris poller that sees
    the Bradley debris on a server without the flag announces the event and
    arms the removal of the flag ten minutes later.  When that timer runs,
    the stored server loses the flag and no other, and the next run that
    sees the debris announces the event again. *)
Theorem debris_sighting_is_announced_again_after_expiry
    (w : World) (s : RustServer) (bradley heli : CommandResponse) :
  JS.truthy_opt (response bradley) = true ->
  JS.truthy_opt (response heli) = true ->
  JS.includes (default EmptyString (response bradley)) "servergibs_bradley" = true ->
  "BRADLEY" ∉ flags s ->
  let ev := {| server := identifier s;
               payload := EventStart "Bradley APC Debris" false |} in
  let r1 := fetchGibs_resume w s bradley heli in
  let w2 := expireFlag r1.1.1 (identifier s) "BRADLEY" in
  ev ∈ newEvents w r1.1.1 /\
  {| ft_due := (now w + 60000 * 10)%N; ft_identifier := identifier s;
     ft_flag := "BRADLEY" |} ∈ r1.2 /\
  exists s2,
    Servers.get w2 (identifier s) = Some s2 /\
    (forall f, f ∈ flags s2 <-> f ∈ flags r1.1.2 /\ f <> "BRADLEY") /\
    ev ∈ newEvents w2 (fetchGibs_resume w2 s2 bradley heli).1.1.
Proof.
  intros Hb Hh Hi Hf ev r1 w2.
  destruct (fetchGibs_announces_bradley w s bradley heli Hb Hh Hi Hf)
    as (Hev & Ht & Hfl & Hid & Hget).
  fold r1 in Hev, Ht, Hfl, Hid, Hget.
  split; [exact Hev|]. split; [exact Ht|].
  set (s2 := set_flags r1.1.2 (filter (fun f => f <> "BRADLEY") (flags r1.1.2))).
  assert (Hw2 : w2 = update r1.1.1 s2) by (unfold w2, expireFlag; by rewrite Hget).
  assert (Hfl2 : forall f, f ∈ flags s2 <-> f ∈ flags r1.1.2 /\ f <> "BRADLEY").
  { intros f. unfold s2. cbn [flags set_flags]. rewrite list_elem_of_filter. tauto. }
  exists s2. split; [|split; [exact Hfl2|]].
  - rewrite Hw2. unfold Servers.get, update. cbn [servers set_servers].
    rewrite <- Hid. apply lookup_insert_eq.
  - assert (Hn : "BRADLEY" ∉ flags s2) by (intros H; apply Hfl2 in H; tauto).
    destruct (fetchGibs_announces_bradley w2 s2 bradley heli Hb Hh Hi Hn) as (H & _).
    unfold ev. rewrite <- Hid. exact H.
Qed.

Lemma debris_sighting_is_announced_again_after_expiry_witness :
  let bradley := {| ok := true; response := Some "servergibs_bradley[1]"; error := None |} in
  let heli := {| ok := true; response := Some "none"; error := None |} in
  let ev := {| server := "server1"; payload := EventStart "Bradley APC Debris" false |} in
  let r1 := fetchGibs_resume Sample.world1 Sample.server1 bradley heli in
  let w2 := expireFlag r1.1.1 "server1" "BRADLEY" in
  ev ∈ newEvents Sample.world1 r1.1.1 /\
  {| ft_due := (0 + 60000 * 10)%N; ft_identifier := "server1"; ft_flag := "BRADLEY" |}
    ∈ r1.2 /\
  exists s2,
    Servers.get w2 "server1" = Some s2 /\
    (forall f, f ∈ flags s2 <-> f ∈ flags r1.1.2 /\ f <> "BRADLEY") /\
    ev ∈ newEvents w2 (fetchGibs_resume w2 s2 bradley heli).1.1.
Proof.
  apply (debris_sighting_is_announced_again_after_expiry Sample.world1 Sample.server1);
    [reflexivity | reflexivity | reflexivity |].
  apply (bool_decide_unpack _). vm_compute. exact I.
Defined.

(** ** A command answered from the log *)

Lemma commands_command_settle_success w ident cmd p status statusText r :
  responseOk status = true ->
  CommandHandler.get (commands w) ident cmd = Some r ->
  commands (command_settle w ident cmd p (FetchResponse status statusText) (JsonData true))
  = CommandHandler.store (commands w) (set_timeout r (Some (nextTimer w))).
Proof.
  intros Hok Hg. unfold command_settle, command_onFetch.
  rewrite Hok. simpl. rewrite Hg. reflexivity.
Qed.

(** X19.  The round trip of a command that is answered from the log.  A
    command whose text is not empty is dispatched for a running server
    while no command of the same text is in flight for it, and the request
    is acknowledged next, before anything else happens; then two log lines
    of non-blank content are handled in a row: the start marker of the
    command and a line that is not a marker, whose timestamp no record of
    the session carried when the command was dispatched.  The promise,
    pending until then, is resolved with that line, the entry has left the
    registry, and no later timeout changes the result, however much time
    passes. *)
Theorem command_is_answered_from_the_log
    (playerKillData : list KillEntry) (RE : RegularExpressions)
    (w : World) (s : RustServer) (cmd : string)
    (status : N) (statusText : string)
    (d1 d2 : string) (m1 mc m2 : list string) (cur : option string) (d : N) :
  wellFormed w ->
  refused w (identifier s) = None ->
  CommandHandler.get (commands w) (identifier s) cmd = None ->
  CommandHandler.getQueued (commands w) (identifier s) (group m2 1) = None ->
  responseOk status = true ->
  JS.truthy cmd = true ->
  Log RE d1 = Some m1 ->
  JS.truthy (JS.trim (group m1 2)) = true ->
  CommandExecuting RE (JS.trim (group m1 2)) = Some mc ->
  group mc 1 = cmd ->
  Log RE d2 = Some m2 ->
  JS.truthy (JS.trim (group m2 2)) = true ->
  CommandExecuting RE (JS.trim (group m2 2)) = None ->
  let p := nextPromise w in
  let w1 := command_settle (command_start w (identifier s) cmd).1 (identifier s) cmd p
              (FetchResponse status statusText) (JsonData true) in
  let w2 := (fold_left (handleLine playerKillData RE s) [d1; d2] (w1, cur)).1 in
  let answer := {| ok := true; response := Some (JS.trim (group m2 2)); error := None |} in
  outcome w1 p = None /\
  outcome w2 p = Some answer /\
  outcome (advance w2 d) p = Some answer /\
  CommandHandler.get (commands w2) (identifier s) cmd = None.
Proof.
  intros Hwf Href Hfree Hq Hok Hcmd Hm1 Ht1 Hc1 Hmc Hm2 Ht2 Hc2 p w1 w2 answer.
  set (ident := identifier s) in *.
  set (record := {| cr_identifier := ident; cr_command := cmd; cr_timestamp := None;
                    cr_timeout := None; cr_resolve := p |}).
  set (w0 := (command_start w ident cmd).1) in *.
  assert (Hw0 : w0 = set_commands (set_nextPromise w (S p)) (commands w ++ [record])%list).
  { unfold w0. rewrite (command_start_accepted w ident cmd Href). cbn [fst].
    unfold CommandHandler.add. cbn [cr_identifier cr_command]. by rewrite Hfree. }
  assert (Hg0 : CommandHandler.get (commands w0) ident cmd = Some record).
  { rewrite Hw0. cbn [commands set_commands]. unfold CommandHandler.get.
    rewrite find_app_None by exact Hfree. cbn [List.find].
    by rewrite (proj2 (hasKey_true ident cmd record)). }
  set (c := set_timeout record (Some (nextTimer w0))).
  destruct (command_settle_success w0 ident cmd p status statusText record Hok Hg0)
    as (_ & Hs1 & _ & Hg1).
  fold w1 c in Hs1, Hg1.
  assert (Hp1 : outcome w1 p = None).
  { unfold outcome. rewrite Hs1, Hw0. cbn [settled set_commands set_nextPromise].
    apply (wellFormed_pending w Hwf). }
  assert (Hq1 : CommandHandler.getQueued (commands w1) ident (group m2 1) = None).
  { unfold w1. rewrite (commands_command_settle_success _ _ _ _ _ _ record Hok Hg0).
    unfold CommandHandler.getQueued in *. apply find_store_None.
    - rewrite Hw0. cbn [commands set_commands].
      rewrite find_app_None by exact Hq. cbn [List.find cr_timestamp record].
      by rewrite andb_false_r.
    - cbn [cr_timestamp c set_timeout record]. by rewrite andb_false_r. }
  rewrite <- Hmc in Hg1, Hcmd.
  assert (Hans : answeredWith w1 w2 c (JS.trim (group m2 2))).
  { unfold w2.
    rewrite (marker_then_line playerKillData RE s w1 cur d1 d2 m1 mc m2 c
               Hm1 Ht1 Hc1 Hcmd Hg1 eq_refl Hm2 Ht2 Hc2 Hq1).
    cbn [fst]. by apply answeredWith_stamped. }
  destruct Hans as (Ha & _ & Hgone). cbn [cr_resolve cr_identifier cr_command c set_timeout record] in *.
  rewrite Hp1 in Ha. cbn [default] in Ha.
  split; [exact Hp1|]. split; [exact Ha|]. split.
  - rewrite outcome_advance. by rewrite Ha.
  - exact Hgone.
Qed.

Lemma command_is_answered_from_the_log_witness :
  let w1 := command_settle (command_start Sample.world1 "server1" "Users").1
              "server1" "Users" 0 (FetchResponse 200 "OK") (JsonData true) in
  let w2 := (fold_left (handleLine Sample.killTable Sample.patterns Sample.server1)
               [Sample.executing "12:00:01" "Users"; Sample.line "12:00:01" "2 users"]
               (w1, None)).1 in
  let answer := {| ok := true; response := Some "2 users"; error := None |} in
  outcome w1 0 = None /\
  outcome w2 0 = Some answer /\
  outcome (advance w2 5000) 0 = Some answer /\
  CommandHandler.get (commands w2) "server1" "Users" = None.
Proof.
  refine (command_is_answered_from_the_log Sample.killTable Sample.patterns
            Sample.world1 Sample.server1 "Users" 200 "OK"
            (Sample.executing "12:00:01" "Users") (Sample.line "12:00:01" "2 users")
            [Sample.executing "12:00:01" "Users"; "12:00:01";
             "Executing console system command 'Users'"]
            ["Executing console system command 'Users'"; "Users"]
            [Sample.line "12:00:01" "2 users"; "12:00:01"; "2 users"]
            None 5000 _ _ _ _ _ _ _ _ _ _ _ _ _);
    try (vm_compute; reflexivity).
  apply wellFormed_empty; reflexivity.
Defined.

(** ** The server map *)

Import Servers.

Lemma keyed_delete w k :
  keyed w -> keyed (set_servers w (delete k (servers w))).
Proof.
  intros Hk k' s. cbn [servers set_servers]. intros H.
  apply lookup_delete_Some in H. destruct H as [_ H]. by apply Hk.
Qed.

Lemma removeMany_step w ident :
  keyed w ->
  match Servers.get w ident with
  | Some s => Servers.remove w s
  | None => w
  end = set_servers w (delete ident (servers w)).
Proof.
  intros Hk. unfold Servers.get, Servers.remove.
  destruct (servers w !! ident) as [s|] eqn:Hs.
  - by rewrite (Hk _ _ Hs).
  - rewrite delete_id by done. by destruct w.
Qed.

(** X20.  In a manager whose servers are stored under their own
    identifiers, [removeMany] removes exactly the servers listed: a listed
    identifier is no longer found, whether or not it was known and however
    often it is listed; every other identifier is found as before; and the
    servers that remain are still stored under their own identifiers. *)
Theorem removeMany_removes_the_listed
    (w : World) (identifiers : list string) (k : string) :
  keyed w ->
  keyed (removeMany w identifiers) /\
  Servers.get (removeMany w identifiers) k
  = if bool_decide (k ∈ identifiers) then None else Servers.get w k.
Proof.
  revert w. induction identifiers as [|i ids IH]; intros w Hk.
  - split; [done|]. by rewrite bool_decide_eq_false_2 by apply not_elem_of_nil.
  - unfold removeMany. cbn [fold_left]. rewrite removeMany_step by done.
    fold (removeMany (set_servers w (delete i (servers w))) ids).
    destruct (IH _ (keyed_delete w i Hk)) as [Hk' Hg]. split; [exact Hk'|].
    rewrite Hg. unfold Servers.get. cbn [servers set_servers].
    destruct (decide (k = i)) as [->|Hne].
    + rewrite (bool_decide_eq_true_2 (i ∈ i :: ids)) by (by left).
      rewrite lookup_delete_eq. by case_bool_decide.
    + rewrite lookup_delete_ne by done.
      case_bool_decide as H1; case_bool_decide as H2; try done.
      * exfalso. apply H2. by right.
      * apply elem_of_cons in H2. destruct H2; [done|]. done.
Qed.

Lemma removeMany_removes_the_listed_witness :
  Servers.get (removeMany Sample.world1 ["ghost"; "server1"; "server1"]) "server1" = None.
Proof.
  refine (proj2 (removeMany_removes_the_listed Sample.world1
                   ["ghost"; "server1"; "server1"] "server1" _)).
  intros k s H.
  change (servers Sample.world1)
    with ({[ "server1" := Sample.server1 ]} : gmap string RustServer) in H.
  apply lookup_singleton_Some in H. destruct H as [<- <-]. reflexivity.
Defined.

Lemma omap_map_Some {A} (l : list A) : omap (fun x => x) (List.map Some l) = l.
Proof. induction l as [|x l IH]; [done|]. cbn. by rewrite IH. Qed.

Lemma resolveServerId_second fetchId sid ids :
  resolveServerId fetchId sid = Some ids ->
  truthyNumber (mjoin (ids !! 1)) = true ->
  exists b, omap (fun x => x) ids !! 1 = Some b /\ b <> 0%N /\
            mjoin (ids !! 1) = Some b.
Proof.
  unfold resolveServerId.
  destruct (match sid with Listed l => truthyNumber (l !! 1) | Bare _ => false end) eqn:Hp.
  - destruct sid as [n|l]; [discriminate|]. intros [= <-] _.
    rewrite omap_map_Some, list_lookup_fmap.
    destruct (l !! 1) as [b|] eqn:Hb; [|discriminate].
    exists b. split; [done|]. cbn in Hp. split; [by destruct (N.eqb_spec b 0) | done].
  - set (first := match sid with Listed l => l !! 0 | Bare n => Some n end).
    destruct (badLength first) eqn:Hbad; [discriminate|].
    destruct first as [a|]; [|discriminate].
    change (default 0%N (Some a)) with a.
    destruct (truthyNumber (fetchId a)) eqn:Hres; intros [= <-];
      [|intros H; discriminate H].
    intros _.
    destruct (fetchId a) as [b|]; [|cbn in Hres; discriminate Hres].
    exists b. split; [done|]. cbn in Hres. split; [by destruct (N.eqb_spec b 0) | done].
Qed.

(** X21.  [add] either refuses and leaves the manager as it is, or stores a
    fresh server under the identifier given: without flags, players or
    frequencies, whatever was stored under that identifier before; with a
    second server id that is not zero; and with the status fetched for that
    id, which is neither empty nor "SUSPENDED".  The other servers are
    untouched. *)
Theorem add_refuses_or_registers
    (w : World) (opts : ServerOptions)
    (fetchId : N -> option N) (fetchStatus : N -> option string) :
  let r := Servers.add w opts fetchId fetchStatus in
  (r.2 = false -> r.1 = w) /\
  (r.2 = true ->
   exists s b,
     Servers.get r.1 (opt_identifier opts) = Some s /\
     identifier s = opt_identifier opts /\
     flags s = [] /\ players s = [] /\ frequencies s = [] /\
     JS.truthy (status s) = true /\ status s <> "SUSPENDED" /\
     serverId s !! 1 = Some b /\ b <> 0%N /\
     fetchStatus b = Some (status s) /\
     forall k, k <> opt_identifier opts -> Servers.get r.1 k = Servers.get w k).
Proof.
  unfold Servers.add.
  destruct (resolveServerId fetchId (opt_serverId opts)) as [ids|] eqn:Hids;
    [|by split].
  destruct (truthyNumber (mjoin (ids !! 1))) eqn:Hsec; cbn [negb]; [|by split].
  destruct (resolveServerId_second _ _ _ Hids Hsec) as (b & Hb & Hb0 & Hj).
  rewrite Hj. change (default 0%N (Some b)) with b.
  destruct (fetchStatus b) as [st|] eqn:Hst; [|by split].
  destruct (JS.truthy st) eqn:Ht; cbn [negb]; [|by split].
  destruct (String.eqb_spec st "SUSPENDED") as [->|Hne]; [by split|].
  cbn [fst snd]. split; [discriminate|]. intros _.
  eexists _, b. unfold Servers.get. cbn [servers set_servers].
  split; [apply lookup_insert_eq|].
  cbn [identifier flags players frequencies status serverId].
  repeat (split; [done|]).
  intros k Hk. by rewrite lookup_insert_ne.
Qed.

(** * Commands in flight *)

(** ** What a move can do to the registry, the timers and the promises *)

Lemma nextPromise_resolve w p v : nextPromise (resolve w p v) = nextPromise w.
Proof. unfold resolve. by destruct (settled w !! p). Qed.

Lemma now_resolve w p v : now (resolve w p v) = now w.
Proof. unfold resolve. by destruct (settled w !! p). Qed.

Lemma commands_resolve w p v : commands (resolve w p v) = commands w.
Proof. unfold resolve. by destruct (settled w !! p). Qed.

Lemma timers_resolve w p v : timers (resolve w p v) = timers w.
Proof. unfold resolve. by destruct (settled w !! p). Qed.

Lemma outcome_resolve_stays w p q v x :
  outcome w p = Some x -> outcome (resolve w q v) p = Some x.
Proof.
  intros H. destruct (decide (p = q)) as [<-|Hne].
  - by rewrite outcome_resolve, H.
  - by rewrite outcome_resolve_ne.
Qed.

Lemma fields_fold_runTimer l w :
  nextPromise (fold_left runTimer l w) = nextPromise w /\
  now (fold_left runTimer l w) = now w /\
  forall x, x ∈ commands (fold_left runTimer l w) -> x ∈ commands w.
Proof.
  revert w. induction l as [|t l IH]; intros w; cbn [fold_left]; [done|].
  destruct (IH (runTimer w t)) as (H1 & H2 & H3).
  unfold runTimer, runCallback in *. destruct (callback t) as [i c q].
  rewrite nextPromise_resolve in H1. rewrite now_resolve in H2.
  split; [exact H1|]. split; [exact H2|].
  intros x Hx. apply H3 in Hx. rewrite commands_resolve in Hx.
  by apply elem_of_removeInFlight in Hx as [Hx _].
Qed.

Lemma fields_advance w d :
  nextPromise (advance w d) = nextPromise w /\
  now (advance w d) = (now w + d)%N /\
  forall x, x ∈ commands (advance w d) -> x ∈ commands w.
Proof.
  unfold advance. cbn [nextPromise now commands set_now].
  destruct (fields_fold_runTimer
              (sortByDue (List.filter (isDue (now w + d)) (timers w)))
              (set_timers w (List.filter (fun x => negb (isDue (now w + d) x)) (timers w))))
    as (H1 & H2 & H3).
  split; [exact H1|]. split; [reflexivity|]. exact H3.
Qed.


Lemma sameCall_refl x : sameCall x x.
Proof. by repeat split. Qed.

Lemma sameCall_stampOf y x : stampOf y x -> sameCall y x.
Proof. intros (H1 & H2 & H3 & _). by repeat split. Qed.

Lemma onFetch_facts w ident cmd q o :
  let w' := (command_onFetch w ident cmd q o).1 in
  timers w' = timers w /\ nextPromise w' = nextPromise w /\ now w' = now w /\
  (forall x, x ∈ commands w' -> x ∈ commands w) /\
  (forall p, p <> q -> outcome w' p = outcome w p) /\
  (forall p v, outcome w p = Some v -> outcome w' p = Some v).
Proof.
  cbv zeta. unfold command_onFetch.
  assert (Hfail : forall v,
            let w' := resolve (removeInFlight w ident cmd) q v in
            timers w' = timers w /\ nextPromise w' = nextPromise w /\ now w' = now w /\
            (forall x, x ∈ commands w' -> x ∈ commands w) /\
            (forall p, p <> q -> outcome w' p = outcome w p) /\
            (forall p v, outcome w p = Some v -> outcome w' p = Some v)).
  { intros v. cbv zeta.
    rewrite timers_resolve, nextPromise_resolve, now_resolve, commands_resolve.
    repeat split.
    - intros x Hx. by apply elem_of_removeInFlight in Hx as [Hx _].
    - intros p Hp. by rewrite outcome_resolve_ne.
    - intros p x Hx. by apply outcome_resolve_stays. }
  destruct o as [message | status statusText]; cbn [fst]; [apply Hfail|].
  destruct (negb (responseOk status)); cbn [fst]; [apply Hfail|].
  by repeat split.
Qed.

Lemma onJson_facts w ident cmd q j :
  let w' := command_onJson w ident cmd q j in
  nextPromise w' = nextPromise w /\ now w' = now w /\
  (forall t, t ∈ timers w' -> t ∈ timers w \/ promiseOf (callback t) = q) /\
  (forall t, t ∈ timers w -> t ∈ timers w') /\
  (forall x, x ∈ commands w' -> exists y, y ∈ commands w /\ sameCall y x) /\
  (forall p, p <> q -> outcome w' p = outcome w p) /\
  (forall p v, outcome w p = Some v -> outcome w' p = Some v).
Proof.
  cbv zeta.
  assert (Hfail : forall v,
            let w' := resolve (removeInFlight w ident cmd) q v in
            nextPromise w' = nextPromise w /\ now w' = now w /\
            timers w' = timers w /\
            (forall x, x ∈ commands w' -> x ∈ commands w) /\
            (forall p, p <> q -> outcome w' p = outcome w p) /\
            (forall p v, outcome w p = Some v -> outcome w' p = Some v)).
  { intros v. cbv zeta.
    rewrite timers_resolve, nextPromise_resolve, now_resolve, commands_resolve.
    repeat split.
    - intros x Hx. by apply elem_of_removeInFlight in Hx as [Hx _].
    - intros p Hp. by rewrite outcome_resolve_ne.
    - intros p x Hx. by apply outcome_resolve_stays. }
  unfold command_onJson. destruct j as [message | sent].
  - destruct (Hfail (failure message)) as (H1 & H2 & H3 & H4 & H5 & H6).
    split; [done|]. split; [done|]. rewrite H3.
    split; [by left|]. split; [done|]. split; [|done].
    intros x Hx. exists x. split; [by apply H4 | apply sameCall_refl].
  - set (w1 := if negb sent then resolve (removeInFlight w ident cmd) q (failure "AioRpcError")
               else w).
    assert (H1 : nextPromise w1 = nextPromise w /\ now w1 = now w /\
                 timers w1 = timers w /\
                 (forall x, x ∈ commands w1 -> x ∈ commands w) /\
                 (forall p, p <> q -> outcome w1 p = outcome w p) /\
                 (forall p v, outcome w p = Some v -> outcome w1 p = Some v)).
    { unfold w1. destruct (negb sent); [apply Hfail | by repeat split]. }
    destruct H1 as (Hn & Hk & Ht & Hc & Ho & Hs).
    destruct (CommandHandler.get (commands w1) ident cmd) as [c|] eqn:Hg.
    + destruct (get_Some _ _ _ _ Hg) as (_ & _ & Hin).
      cbn [setTimeout commands timers nextPromise now set_commands set_nextTimer
             set_timers outcome settled].
      rewrite Ht. split; [done|]. split; [done|]. split; [|split; [|split]].
      * intros t Hin'. apply elem_of_app in Hin'. destruct Hin' as [Hin'|Hin']; [by left|].
        apply list_elem_of_singleton in Hin'. subst t. by right.
      * intros t Hin'. apply elem_of_app. by left.
      * intros x Hx. apply elem_of_store in Hx. destruct Hx as [Hx | ->].
        -- exists x. split; [by apply Hc | apply sameCall_refl].
        -- exists c. split; [by apply Hc | by repeat split].
      * split; [exact Ho | exact Hs].
    + rewrite Ht. split; [done|]. split; [done|].
      split; [by left|]. split; [done|]. split; [|done].
      intros x Hx. exists x. split; [by apply Hc | apply sameCall_refl].
Qed.

Lemma command_start_facts w ident cmd :
  let w' := (command_start w ident cmd).1 in
  timers w' = timers w /\ settled w' = settled w /\ now w' = now w /\
  nextPromise w <= nextPromise w' /\
  (forall x, x ∈ commands w' -> x ∈ commands w \/ cr_resolve x = nextPromise w).
Proof.
  cbv zeta. unfold command_start. destruct (refused w ident); cbn [fst].
  - repeat split; [lia | by left].
  - cbn [timers settled now nextPromise commands set_commands set_nextPromise].
    repeat split; [lia|]. intros x Hx. apply elem_of_add in Hx.
    destruct Hx as [Hx | ->]; [by left | by right].
Qed.

Section BatchMoves.

Variable playerKillData : list KillEntry.
Variable RE : RegularExpressions.

Lemma fold_handleLine_onlyAnswers s l st :
  onlyAnswers st.1 (fold_left (handleLine playerKillData RE s) l st).1.
Proof.
  revert st. induction l as [|d l IH]; intros st; [apply onlyAnswers_refl|].
  cbn [fold_left].
  eapply onlyAnswers_trans; [apply onlyAnswers_handleLine | apply IH].
Qed.

Lemma handle_facts w message s :
  let w' := (handle playerKillData RE w message s).1 in
  nextPromise w' = nextPromise w /\ now w' = now w /\
  (forall t, t ∈ timers w' -> t ∈ timers w) /\
  (forall x, x ∈ commands w' -> exists y, y ∈ commands w /\ sameCall y x) /\
  (forall p v, outcome w p = Some v -> outcome w' p = Some v).
Proof.
  cbv zeta. unfold handle. destruct (negb _); cbn [fst].
  - repeat split; try done.
    intros x Hx. exists x. split; [done | apply sameCall_refl].
  - destruct (fold_handleLine_onlyAnswers s (messageArray message) (w, None))
      as (Hc & Ht & Hs & _ & _ & _ & Hp & Hk).
    cbn [fst] in *. split; [done|]. split; [done|]. split; [done|]. split; [|done].
    intros x Hx. destruct (Hc x Hx) as (y & Hy & Hst).
    exists y. split; [done | by apply sameCall_stampOf].
Qed.

Lemma move_tracks replies batches w w' :
  move playerKillData RE replies batches w w' ->
  nextPromise w <= nextPromise w' /\ (now w <= now w')%N /\
  (forall x, x ∈ commands w' ->
     (exists y, y ∈ commands w /\ sameCall y x) \/ nextPromise w <= cr_resolve x) /\
  (forall p v, outcome w p = Some v -> outcome w' p = Some v).
Proof.
  intros [w0 d | w0 ident cmd | w0 ident cmd q o Hq | w0 ident cmd q j Hq
          | w0 message s Hb | w0 w1 Hc Ht Hnt Hs Hn Hk].
  - destruct (fields_advance w0 d) as (H1 & H2 & H3).
    split; [lia|]. split; [lia|]. split.
    + intros x Hx. left. exists x. split; [by apply H3 | apply sameCall_refl].
    + intros p v Hv. by rewrite outcome_advance, Hv.
  - destruct (command_start_facts w0 ident cmd) as (H1 & H2 & H3 & H4 & H5).
    split; [done|]. split; [lia|]. split.
    + intros x Hx. destruct (H5 x Hx) as [Hin | Hr].
      * left. exists x. split; [done | apply sameCall_refl].
      * right. lia.
    + intros p v Hv. unfold outcome in *. by rewrite H2.
  - destruct (onFetch_facts w0 ident cmd q o) as (H1 & H2 & H3 & H4 & H5 & H6).
    split; [lia|]. split; [lia|]. split; [|done].
    intros x Hx. left. exists x. split; [by apply H4 | apply sameCall_refl].
  - destruct (onJson_facts w0 ident cmd q j) as (H1 & H2 & H3 & H4 & H5 & H6 & H7).
    split; [lia|]. split; [lia|]. split; [|done].
    intros x Hx. left. by apply H5.
  - destruct (handle_facts w0 message s) as (H1 & H2 & H3 & H4 & H5).
    split; [lia|]. split; [lia|]. split; [|done].
    intros x Hx. left. by apply H4.
  - split; [lia|]. split; [lia|]. split.
    + intros x Hx. left. exists x. rewrite <- Hc. split; [done | apply sameCall_refl].
    + intros p v Hv. unfold outcome in *. by rewrite Hs.
Qed.

End BatchMoves.


Section InFlight.

Variable playerKillData : list KillEntry.
Variable RE : RegularExpressions.

(** The timers a move of another call leaves were there before, or belong
    to another promise. *)
Lemma move_timers p batches w w' :
  move playerKillData RE (others p) batches w w' ->
  forall t, t ∈ timers w' -> t ∈ timers w \/ promiseOf (callback t) <> p.
Proof.
  intros [w0 d | w0 ident cmd | w0 ident cmd q o Hq | w0 ident cmd q j Hq
          | w0 message s Hb | w0 w1 Hc Ht Hnt Hs Hn Hk] t Hin.
  - rewrite timers_advance in Hin. apply list_elem_of_In, filter_In in Hin.
    left. apply list_elem_of_In. tauto.
  - destruct (command_start_facts w0 ident cmd) as (H1 & _). rewrite H1 in Hin. by left.
  - destruct (onFetch_facts w0 ident cmd q o) as (H1 & _). rewrite H1 in Hin. by left.
  - destruct (onJson_facts w0 ident cmd q j) as (_ & _ & H3 & _).
    destruct (H3 t Hin) as [H | H]; [by left | right]. unfold others in Hq. congruence.
  - destruct (handle_facts playerKillData RE w0 message s) as (_ & _ & H3 & _).
    left. by apply H3.
  - rewrite Ht in Hin. by left.
Qed.

(** The records of the promise [p] stay under the key of its call, and no
    new record takes a promise that was handed out. *)
Lemma keyedAt_move ident cmd p replies batches w w' :
  move playerKillData RE replies batches w w' ->
  keyedAt ident cmd p w -> keyedAt ident cmd p w'.
Proof.
  intros Hm [Hp Hk]. destruct (move_tracks playerKillData RE _ _ _ _ Hm) as (Hn & _ & Hc & _).
  split; [lia|]. intros x Hx Hr. destruct (Hc x Hx) as [(y & Hy & H1 & H2 & H3) | Hfresh].
  - apply hasKey_true. rewrite H1, H2. apply hasKey_true. apply Hk; [done | congruence].
  - lia.
Qed.

Lemma absentAt_move p replies batches w w' :
  move playerKillData RE replies batches w w' -> absentAt p w -> absentAt p w'.
Proof.
  intros Hm [Hp Hk]. destruct (move_tracks playerKillData RE _ _ _ _ Hm) as (Hn & _ & Hc & _).
  split; [lia|]. intros x Hx Hr. destruct (Hc x Hx) as [(y & Hy & H1 & H2 & H3) | Hfresh].
  - apply (Hk y Hy). congruence.
  - lia.
Qed.

Lemma absentAt_moves p replies batches w w' :
  moves playerKillData RE replies batches w w' -> absentAt p w -> absentAt p w'.
Proof. induction 1; [done|]. intros Hinv. eauto using absentAt_move. Qed.

Lemma keyedAt_moves ident cmd p replies batches w w' :
  moves playerKillData RE replies batches w w' ->
  keyedAt ident cmd p w -> keyedAt ident cmd p w'.
Proof. induction 1; [done|]. intros Hinv. eauto using keyedAt_move. Qed.

Lemma outcome_moves p v replies batches w w' :
  moves playerKillData RE replies batches w w' ->
  outcome w p = Some v -> outcome w' p = Some v.
Proof.
  induction 1 as [|w0 w1 w2 Hm _ IH]; [done|]. intros H. apply IH.
  by apply (move_tracks playerKillData RE _ _ _ _ Hm).
Qed.

Lemma now_moves replies batches w w' :
  moves playerKillData RE replies batches w w' -> (now w <= now w')%N.
Proof.
  induction 1 as [|w0 w1 w2 Hm _ IH]; [lia|].
  destruct (move_tracks playerKillData RE _ _ _ _ Hm) as (_ & H & _). lia.
Qed.

Lemma timers_moves p batches w w' :
  moves playerKillData RE (others p) batches w w' ->
  (forall t, t ∈ timers w -> promiseOf (callback t) <> p) ->
  forall t, t ∈ timers w' -> promiseOf (callback t) <> p.
Proof.
  induction 1 as [|w0 w1 w2 Hm _ IH]; [done|]. intros H. apply IH.
  intros t Hin. destruct (move_timers _ _ _ _ Hm t Hin) as [Hold | Hne]; auto.
Qed.

(** The state a dispatch leaves: the promise is new and pending, no timer
    belongs to it, and its record, if one was made, is under its key. *)
Lemma dispatched w ident cmd :
  wellFormed w -> refused w ident = None ->
  let p := nextPromise w in
  let w0 := (command_start w ident cmd).1 in
  (command_start w ident cmd).2 = Awaiting p /\
  outcome w0 p = None /\
  keyedAt ident cmd p w0 /\
  (forall t, t ∈ timers w0 -> promiseOf (callback t) <> p).
Proof.
  intros Hwf Href p w0. unfold w0.
  rewrite (command_start_accepted w ident cmd Href). cbn [fst snd].
  destruct Hwf as (Htm & Hst & Hreg).
  split; [reflexivity|]. split; [exact (wellFormed_pending w (conj Htm (conj Hst Hreg)))|].
  split; [split|].
  - cbn [nextPromise set_commands set_nextPromise]. unfold p. lia.
  - cbn [commands set_commands]. intros x Hx Hr. apply elem_of_add in Hx.
    destruct Hx as [Hx | ->]; [|by apply hasKey_true].
    apply Hreg in Hx. unfold p in Hr. lia.
  - cbn [timers set_commands set_nextPromise]. intros t Hin. apply Htm in Hin.
    unfold p. lia.
Qed.

End InFlight.


Section Timeout.

Variable playerKillData : list KillEntry.
Variable RE : RegularExpressions.

Lemma awaitsTimeout_time ident cmd p own w d :
  callback own = CommandTimeout ident cmd p ->
  keyedAt ident cmd p w ->
  awaitsTimeout p own w -> awaitsTimeout p own (advance w d).
Proof.
  intros Hcb [Hp Hkey] [Huniq Hstate].
  destruct (fields_advance w d) as (Hn & Hk & Hc).
  assert (Hprom : promiseOf (callback own) = p) by (by rewrite Hcb).
  split.
  { intros t Hin. rewrite timers_advance in Hin.
    apply list_elem_of_In, filter_In in Hin. apply Huniq, list_elem_of_In. tauto. }
  destruct Hstate as [(Ho & Hown & Hdue) | (Ho & Hdue & Habs)].
  - destruct (isDue (now w + d) own) eqn:Hfire.
    + right. unfold isDue in Hfire. apply N.leb_le in Hfire.
      assert (Hin : In own (sortByDue (List.filter (isDue (now w + d)) (timers w)))).
      { apply In_sortByDue, filter_In. split; [by apply list_elem_of_In|].
        unfold isDue. by apply N.leb_le. }
      split; [|split].
      * rewrite outcome_advance, Ho.
        replace (existsb _ _) with true; [done|]. symmetry.
        apply existsb_exists. exists own. split; [done|]. by apply Nat.eqb_eq.
      * lia.
      * intros x Hx Hr.
        assert (Hg : CommandHandler.get (commands (advance w d)) ident cmd = None).
        { unfold advance. cbn [commands set_now].
          by apply (get_fold_runTimer _ _ ident cmd p own). }
        unfold CommandHandler.get in Hg.
        pose proof (find_none _ _ Hg x (proj1 (list_elem_of_In _ _) Hx)) as Hfalse.
        rewrite (Hkey x (Hc x Hx) Hr) in Hfalse. discriminate.
    + left. unfold isDue in Hfire. apply N.leb_gt in Hfire. split; [|split].
      * rewrite outcome_advance, Ho.
        replace (existsb _ _) with false; [done|]. symmetry.
        apply not_true_is_false. intros Hex. apply existsb_exists in Hex.
        destruct Hex as (t & Hin & Ht). apply Nat.eqb_eq in Ht.
        apply In_sortByDue, filter_In in Hin. destruct Hin as [Hin Hd].
        rewrite (Huniq t (proj2 (list_elem_of_In _ _) Hin) Ht) in Hd.
        unfold isDue in Hd. apply N.leb_le in Hd. lia.
      * rewrite timers_advance. apply list_elem_of_In, filter_In.
        split; [by apply list_elem_of_In|]. unfold isDue.
        apply negb_true_iff, N.leb_gt. lia.
      * lia.
  - right. split; [|split].
    + by rewrite outcome_advance, Ho.
    + lia.
    + intros x Hx. apply Habs, Hc, Hx.
Qed.

Lemma awaitsTimeout_move ident cmd p own w w' :
  callback own = CommandTimeout ident cmd p ->
  move playerKillData RE (others p) (calmFor p) w w' ->
  keyedAt ident cmd p w ->
  awaitsTimeout p own w -> awaitsTimeout p own w'.
Proof.
  intros Hcb Hm Hkey Hq.
  pose proof (move_tracks playerKillData RE _ _ _ _ Hm) as (Hn & Hk & Hc & Hs).
  pose proof (move_timers playerKillData RE _ _ _ _ Hm) as Ht.
  destruct Hm as [w0 d | w0 ident' cmd' | w0 ident' cmd' q o Hne | w0 ident' cmd' q j Hne
                  | w0 message s Hb | w0 w1 Hc' Ht' Hnt Hs' Hn' Hk'];
    [by eapply awaitsTimeout_time | | | | |].
  all: destruct Hkey as [Hp Hkey]; destruct Hq as [Huniq Hstate].
  all: match goal with |- awaitsTimeout _ _ ?w' => 
         assert (Huniq' : forall t, t ∈ timers w' -> promiseOf (callback t) = p -> t = own)
           by (intros t Hin Hpr; destruct (Ht t Hin) as [Hold | Hnew];
               [by apply Huniq | done]);
         assert (Habs' : (forall x, x ∈ commands w0 -> cr_resolve x <> p) ->
                         forall x, x ∈ commands w' -> cr_resolve x <> p)
           by (intros Habs x Hx Hr; destruct (Hc x Hx) as [(y & Hy & _ & _ & H3) | Hf];
               [apply (Habs y Hy); congruence | lia])
       end.
  - destruct (command_start_facts w0 ident' cmd') as (H1 & H2 & H3 & _).
    split; [done|]. unfold outcome in *. rewrite H1, H2, H3.
    destruct Hstate as [(Ho & Hown & Hdue) | (Ho & Hdue & Habs)];
      [by left | right; auto].
  - destruct (onFetch_facts w0 ident' cmd' q o) as (H1 & _ & H3 & _ & H5 & _).
    split; [done|]. rewrite H1, H3, (H5 p) by (unfold others in Hne; congruence).
    destruct Hstate as [(Ho & Hown & Hdue) | (Ho & Hdue & Habs)];
      [by left | right; auto].
  - destruct (onJson_facts w0 ident' cmd' q j) as (_ & H2 & _ & H4 & _ & H6 & _).
    split; [done|]. rewrite H2, (H6 p) by (unfold others in Hne; congruence).
    destruct Hstate as [(Ho & Hown & Hdue) | (Ho & Hdue & Habs)];
      [left; auto | right; auto].
  - destruct (handle_facts playerKillData RE w0 message s) as (_ & H2 & _).
    destruct Hb as [Hcalm1 Hcalm2].
    split; [done|]. rewrite H2, Hcalm1.
    destruct Hstate as [(Ho & Hown & Hdue) | (Ho & Hdue & Habs)]; [left | right; auto].
    split; [done|]. split; [|done]. apply Hcalm2; [done | by rewrite Hcb].
  - split; [done|]. unfold outcome in *. rewrite Hs', Ht', Hk'.
    destruct Hstate as [(Ho & Hown & Hdue) | (Ho & Hdue & Habs)];
      [by left | right; auto].
Qed.

Lemma awaitsTimeout_moves ident cmd p own w w' :
  callback own = CommandTimeout ident cmd p ->
  moves playerKillData RE (others p) (calmFor p) w w' ->
  keyedAt ident cmd p w ->
  awaitsTimeout p own w -> awaitsTimeout p own w'.
Proof.
  intros Hcb. induction 1 as [|w0 w1 w2 Hm _ IH]; [done|]. intros Hkey Hq.
  apply IH; [by eapply keyedAt_move | by eapply awaitsTimeout_move].
Qed.

End Timeout.


(** ** The timeout of a command *)

Lemma settle_acknowledged w ident cmd p status statusText r :
  responseOk status = true ->
  CommandHandler.get (commands w) ident cmd = Some r ->
  command_settle w ident cmd p (FetchResponse status statusText) (JsonData true)
  = set_commands
      (setTimeout w (CommandTimeout ident cmd p) 3000).1
      (CommandHandler.store (commands w) (set_timeout r (Some (nextTimer w)))).
Proof.
  intros Hok Hg. unfold command_settle, command_onFetch. rewrite Hok.
  cbn [negb command_onJson]. by rewrite Hg.
Qed.

(** C2 (as amended).  A response-awaiting dispatch is accepted.  Before
    its acknowledgement is processed the manager makes moves that are not
    steps of this call: time passes, console batches are classified, other
    commands are dispatched and their replies processed.  When the
    acknowledgement is processed the registry holds an entry for the
    session and the text and the promise is pending.  Afterwards such moves
    go on, with no batch that resolves the promise or clears its timeout.
    At any state reached, the promise is pending while less than 3000 ms
    have passed since the acknowledgement was processed; once 3000 ms have
    passed it holds [{ ok: true, response: undefined }], a success and not
    a failure, and no record of the registry resolves it.  When nothing but
    time passes, the registry has no entry for the session and the text
    from then on. *)
Theorem command_times_out
    (playerKillData : list KillEntry) (RE : RegularExpressions)
    (w : World) (ident cmd : string) (status : N) (statusText : string)
    (w1 w3 : World) :
  wellFormed w ->
  refused w ident = None ->
  responseOk status = true ->
  let p := nextPromise w in
  let w0 := (command_start w ident cmd).1 in
  let w2 := command_settle w1 ident cmd p (FetchResponse status statusText)
              (JsonData true) in
  moves playerKillData RE (others p) anyBatch w0 w1 ->
  is_Some (CommandHandler.get (commands w1) ident cmd) ->
  outcome w1 p = None ->
  moves playerKillData RE (others p) (calmFor p) w2 w3 ->
  (command_start w ident cmd).2 = Awaiting p /\
  outcome w2 p = None /\
  ((now w3 < now w1 + 3000)%N -> outcome w3 p = None) /\
  ((now w1 + 3000 <= now w3)%N ->
   outcome w3 p = Some emptySuccess /\
   ok emptySuccess = true /\ response emptySuccess = None /\
   forall x, x ∈ commands w3 -> cr_resolve x <> p) /\
  (forall d, (3000 <= d)%N ->
     CommandHandler.get (commands (advance w2 d)) ident cmd = None).
Proof.
  intros Hwf Href Hok p w0 w2 Hpre [r Hr] Hpend Hpost.
  destruct (dispatched w ident cmd Hwf Href) as (Hawait & _ & Hkey0 & Htm0).
  fold p w0 in Hawait, Hkey0, Htm0.
  pose proof (keyedAt_moves playerKillData RE _ _ _ _ _ _ _ Hpre Hkey0) as Hkey1.
  pose proof (timers_moves playerKillData RE _ _ _ _ Hpre Htm0) as Htm1.
  set (own := {| tid := nextTimer w1; due := (now w1 + 3000)%N;
                 callback := CommandTimeout ident cmd p |}).
  destruct (command_settle_success w1 ident cmd p status statusText r Hok Hr)
    as (Ht2 & Hs2 & Hn2 & Hg2).
  fold w2 own in Ht2, Hs2, Hn2, Hg2.
  assert (Hp2 : outcome w2 p = None) by (unfold outcome in *; by rewrite Hs2).
  assert (Hkey2 : keyedAt ident cmd p w2).
  { destruct Hkey1 as [Hlt Hk]. unfold w2.
    rewrite (settle_acknowledged w1 ident cmd p status statusText r Hok Hr).
    split; [exact Hlt|]. cbn [commands set_commands]. intros x Hx Hres.
    apply elem_of_store in Hx. destruct Hx as [Hx | ->]; [by apply Hk|].
    destruct (get_Some _ _ _ _ Hr) as (Hi & Hc & _). by apply hasKey_true. }
  assert (Hq2 : awaitsTimeout p own w2).
  { split.
    - intros t Hin Hpr. rewrite Ht2 in Hin. apply elem_of_app in Hin.
      destruct Hin as [Hin | Hin]; [by apply Htm1 in Hin|].
      by apply list_elem_of_singleton in Hin.
    - left. split; [exact Hp2|]. split.
      + rewrite Ht2. apply elem_of_app. right. by apply list_elem_of_singleton.
      + rewrite Hn2. cbn [due own]. lia. }
  destruct (awaitsTimeout_moves playerKillData RE ident cmd p own w2 w3 eq_refl
              Hpost Hkey2 Hq2) as [_ Hstate].
  cbn [due own] in Hstate.
  split; [exact Hawait|]. split; [exact Hp2|]. split; [|split].
  - intros Hnow. destruct Hstate as [(Ho & _) | (_ & Hdue & _)]; [exact Ho | lia].
  - intros Hnow. destruct Hstate as [(_ & _ & Hdue) | (Ho & _ & Habs)]; [lia|].
    by repeat split.
  - intros d Hd.
    destruct (acknowledged_command_times_out w1 ident cmd p status statusText r d
                Hok Hr Hpend Htm1) as (_ & _ & _ & H4).
    by destruct (H4 Hd).
Qed.

(** The theorem at work: "Users" is dispatched; 50 ms later "status" is
    dispatched as well; then the request of "Users" is acknowledged.  A
    batch that answers nothing arrives 2999 ms later and the promise is
    still pending;
    one more millisecond and it holds the empty success. *)
Lemma command_times_out_witness :
  let w0 := (command_start Sample.world1 "server1" "Users").1 in
  let w1 := (command_start (advance w0 50) "server1" "status").1 in
  let w2 := command_settle w1 "server1" "Users" 0 (FetchResponse 200 "OK")
              (JsonData true) in
  let w3 := (handle Sample.killTable Sample.patterns (advance w2 2999)
               (Sample.batch [Sample.line "12:00:01" "hello"]) Sample.server1).1 in
  outcome w3 0 = None /\ outcome (advance w3 1) 0 = Some emptySuccess.
Proof.
  intros w0 w1 w2 w3.
  assert (Hwf : wellFormed Sample.world1) by (apply wellFormed_empty; reflexivity).
  assert (Hpre : moves Sample.killTable Sample.patterns (others 0) anyBatch w0 w1).
  { eapply rtc_l; [exact (move_time _ _ _ _ w0 50)|].
    apply rtc_once. exact (move_dispatch _ _ _ _ (advance w0 50) "server1" "status"). }
  assert (Hw3 : moves Sample.killTable Sample.patterns (others 0) (calmFor 0) w2 w3).
  { eapply rtc_l; [exact (move_time _ _ _ _ w2 2999)|].
    apply rtc_once. apply move_batch. split; [vm_compute; reflexivity|].
    intros t Hin _. exact Hin. }
  assert (Hw4 : moves Sample.killTable Sample.patterns (others 0) (calmFor 0)
                  w2 (advance w3 1)).
  { eapply rtc_r; [exact Hw3|]. exact (move_time _ _ _ _ w3 1). }
  split.
  - refine (proj1 (proj2 (proj2
      (command_times_out Sample.killTable Sample.patterns Sample.world1
         "server1" "Users" 200 "OK" w1 w3 Hwf eq_refl eq_refl Hpre _ eq_refl Hw3))) _).
    + by eexists.
    + vm_compute. reflexivity.
  - refine (proj1 (proj1 (proj2 (proj2 (proj2
      (command_times_out Sample.killTable Sample.patterns Sample.world1
         "server1" "Users" 200 "OK" w1 (advance w3 1) Hwf eq_refl eq_refl Hpre _
         eq_refl Hw4)))) _)).
    + by eexists.
    + apply N.leb_le. vm_compute. reflexivity.
Defined.

(** C2 as stated fails when two dispatches of the same text overlap.  The
    second "Users" is accepted 2990 ms after the first was acknowledged and
    shares its entry; 10 ms later the timeout of the first removes the
    entry; the acknowledgement of the second, 20 ms after its dispatch,
    finds no entry and arms no timer.  Its request succeeded and no log
    line answered it, and yet its promise stays pending for ever. *)
Lemma command_times_out_counterexample :
  let w := advance Sample.inflight1 2990 in
  let w1 := advance (command_start w "server1" "Users").1 20 in
  let w2 := command_settle w1 "server1" "Users" 1 (FetchResponse 200 "OK")
              (JsonData true) in
  (command_start w "server1" "Users").2 = Awaiting 1 /\
  responseOk 200 = true /\
  emitted w2 = emitted Sample.world1 /\
  forall d, outcome (advance w2 d) 1 = None.
Proof.
  cbv zeta. split; [vm_compute; reflexivity|]. split; [reflexivity|].
  split; [vm_compute; reflexivity|].
  intros d. exact (proj2 (colliding_dispatch_stays_pending d)).
Qed.


(** ** A request that fails *)

Lemma failingMove_fails w ident cmd p o j reason :
  failureReason o j = Some reason ->
  failingMove w ident cmd p o j
  = resolve (removeInFlight w ident cmd) p (failure reason).
Proof.
  unfold failureReason, failingMove, command_onFetch.
  destruct o as [message | status statusText].
  - by intros [= <-].
  - destruct (negb (responseOk status)); [by intros [= <-]|].
    unfold command_onJson. destruct j as [message | [|]].
    + by intros [= <-].
    + discriminate.
    + intros [= <-]. cbn [negb].
      by rewrite commands_resolve, get_removeInFlight.
Qed.

(** What the failing step leaves, and what stays of it whatever the
    manager does next. *)
Lemma request_failed
    (playerKillData : list KillEntry) (RE : RegularExpressions)
    (w : World) (ident cmd : string) (o : FetchOutcome) (j : JsonOutcome)
    (reason : string) (w1 w3 : World) :
  wellFormed w ->
  refused w ident = None ->
  failureReason o j = Some reason ->
  let p := nextPromise w in
  let w0 := (command_start w ident cmd).1 in
  let w2 := failingMove w1 ident cmd p o j in
  moves playerKillData RE (others p) anyBatch w0 w1 ->
  moves playerKillData RE anyReply anyBatch w2 w3 ->
  timers w2 = timers w1 /\
  now w2 = now w1 /\
  CommandHandler.get (commands w2) ident cmd = None /\
  absentAt p w2 /\ absentAt p w3 /\
  outcome w2 p = Some (default (failure reason) (outcome w1 p)) /\
  outcome w3 p = outcome w2 p.
Proof.
  intros Hwf Href Hfail p w0 w2 Hpre Hpost.
  destruct (dispatched w ident cmd Hwf Href) as (_ & _ & Hkey0 & _).
  fold p w0 in Hkey0.
  destruct (keyedAt_moves playerKillData RE _ _ _ _ _ _ _ Hpre Hkey0) as [Hlt Hkey1].
  assert (Hw2 : w2 = resolve (removeInFlight w1 ident cmd) p (failure reason))
    by (by apply failingMove_fails).
  destruct (fail_step w1 ident cmd p (failure reason)) as (Ho & Hg & Ht & Hc).
  rewrite <- Hw2 in Ho, Hg, Ht, Hc.
  assert (Habs2 : absentAt p w2).
  { split.
    - rewrite Hw2, nextPromise_resolve. exact Hlt.
    - intros x Hx Hr. destruct (Hc x Hx) as [Hin Hk].
      rewrite (Hkey1 x Hin Hr) in Hk. discriminate. }
  split; [exact Ht|]. split; [by rewrite Hw2, now_resolve|]. split; [exact Hg|].
  split; [exact Habs2|].
  split; [exact (absentAt_moves playerKillData RE _ _ _ _ _ Hpost Habs2)|].
  split; [exact Ho|]. rewrite Ho. by eapply outcome_moves.
Qed.

(** C3 (as amended).  A response-awaiting dispatch is accepted.  Before
    its request is found to have failed the manager makes moves that are
    not steps of this call: time passes, console batches are classified,
    other commands are dispatched and their replies processed.  Then the
    request is found to have failed: by an exception, by a status outside
    200-299, by a body that cannot be read or by a reply whose [ok] is not
    set.  That step attaches no timeout and leaves no entry for the session
    and the text and no record that resolves the promise, and none comes
    back whatever happens next, the rest of the call included.  If no log
    line had answered the command by then, the promise is resolved as not
    [ok] with the reason, the exception's message, "HTTP" with the status
    line, or "AioRpcError", and keeps it for ever; a promise that a log
    line had resolved keeps what it held. *)
Theorem command_request_failure
    (playerKillData : list KillEntry) (RE : RegularExpressions)
    (w : World) (ident cmd : string) (o : FetchOutcome) (j : JsonOutcome)
    (reason : string) (w1 w3 : World) :
  wellFormed w ->
  refused w ident = None ->
  failureReason o j = Some reason ->
  let p := nextPromise w in
  let w0 := (command_start w ident cmd).1 in
  let w2 := failingMove w1 ident cmd p o j in
  moves playerKillData RE (others p) anyBatch w0 w1 ->
  moves playerKillData RE anyReply anyBatch w2 w3 ->
  (command_start w ident cmd).2 = Awaiting p /\
  is_Some (CommandHandler.get (commands w0) ident cmd) /\
  timers w2 = timers w1 /\
  CommandHandler.get (commands w2) ident cmd = None /\
  (forall x, x ∈ commands w2 -> cr_resolve x <> p) /\
  (forall x, x ∈ commands w3 -> cr_resolve x <> p) /\
  (outcome w1 p = None ->
   outcome w2 p = Some (failure reason) /\
   outcome w3 p = Some (failure reason) /\
   timers (command_settle w1 ident cmd p o j) = timers w1) /\
  (forall v, outcome w1 p = Some v -> outcome w2 p = Some v /\ outcome w3 p = Some v) /\
  moves playerKillData RE anyReply anyBatch w2 (command_settle w1 ident cmd p o j).
Proof.
  intros Hwf Href Hfail p w0 w2 Hpre Hpost.
  destruct (dispatched w ident cmd Hwf Href) as (Hawait & _).
  destruct (request_failed playerKillData RE w ident cmd o j reason w1 w3
              Hwf Href Hfail Hpre Hpost)
    as (Ht & _ & Hg & [_ Habs2] & [_ Habs3] & Ho2 & Ho3).
  fold p w0 w2 in Ht, Hg, Habs2, Habs3, Ho2, Ho3.
  split; [exact Hawait|]. split.
  { unfold w0. rewrite (command_start_accepted w ident cmd Href). cbn [fst commands set_commands].
    apply (get_add (commands w)
             {| cr_identifier := ident; cr_command := cmd; cr_timestamp := None;
                cr_timeout := None; cr_resolve := nextPromise w |}). }
  split; [exact Ht|]. split; [exact Hg|]. split; [exact Habs2|].
  split; [exact Habs3|]. split; [|split].
  - intros Hpend. rewrite Hpend in Ho2. cbn [default] in Ho2.
    split; [exact Ho2|]. split; [by rewrite Ho3|].
    by destruct (command_settle_failure w1 ident cmd p o j reason Hfail Hpend)
      as (_ & _ & H & _).
  - intros v Hv. rewrite Hv in Ho2. cbn [default] in Ho2.
    split; [exact Ho2 | by rewrite Ho3].
  - unfold command_settle, w2, failingMove.
    destruct o as [message | status statusText].
    + cbn [command_onFetch]. apply rtc_refl.
    + unfold command_onFetch. destruct (negb (responseOk status)); [|apply rtc_refl].
      cbn [fst]. apply rtc_once. by apply move_parsed.
Qed.

(** The theorem at work: the reply to "Users" arrives 100 ms after the
    dispatch with status 502; the body, read next, is not JSON; five
    seconds later the promise still holds the failure of the status. *)
Lemma command_request_failure_witness :
  let w0 := (command_start Sample.world1 "server1" "Users").1 in
  let w1 := advance w0 100 in
  let w2 := failingMove w1 "server1" "Users" 0
              (FetchResponse 502 "Bad Gateway") (JsonThrew "Unexpected token") in
  let w3 := advance (command_onJson w2 "server1" "Users" 0
                       (JsonThrew "Unexpected token")) 5000 in
  CommandHandler.get (commands w2) "server1" "Users" = None /\
  timers w2 = [] /\
  outcome w2 0 = Some (failure "HTTP 502 Bad Gateway") /\
  outcome w3 0 = Some (failure "HTTP 502 Bad Gateway").
Proof.
  intros w0 w1 w2 w3.
  assert (Hwf : wellFormed Sample.world1) by (apply wellFormed_empty; reflexivity).
  assert (Hpre : moves Sample.killTable Sample.patterns (others 0) anyBatch w0 w1)
    by (apply rtc_once; exact (move_time _ _ _ _ w0 100)).
  assert (Hpost : moves Sample.killTable Sample.patterns anyReply anyBatch w2 w3).
  { eapply rtc_l; [exact (move_parsed _ _ _ _ w2 "server1" "Users" 0
                            (JsonThrew "Unexpected token") I)|].
    apply rtc_once. apply move_time. }
  destruct (command_request_failure Sample.killTable Sample.patterns Sample.world1
              "server1" "Users" (FetchResponse 502 "Bad Gateway")
              (JsonThrew "Unexpected token") "HTTP 502 Bad Gateway" w1 w3
              Hwf eq_refl eq_refl Hpre Hpost)
    as (_ & _ & Ht & Hg & _ & _ & Hpend & _).
  destruct (Hpend eq_refl) as (Ho2 & Ho3 & _).
  split; [exact Hg|]. split; [exact Ht|]. split; [exact Ho2 | exact Ho3].
Defined.

(** C3 as stated fails when the log answers first.  "Users" is dispatched;
    before the reply to its request is processed a batch brings its start
    marker and the line that answers it; then the request turns out to have
    failed with status 502.  The entry is gone and no timer is armed, but
    the call is not resolved as failed: its promise holds the answer. *)
Lemma command_request_failure_counterexample :
  let w0 := (command_start Sample.world1 "server1" "Users").1 in
  let w1 := (handle Sample.killTable Sample.patterns w0
               (Sample.batch [Sample.executing "12:00:01" "Users";
                              Sample.line "12:00:01" "2 users"]) Sample.server1).1 in
  let w2 := command_settle w1 "server1" "Users" 0
              (FetchResponse 502 "Bad Gateway") (JsonThrew "Unexpected token") in
  failureReason (FetchResponse 502 "Bad Gateway") (JsonThrew "Unexpected token")
  = Some "HTTP 502 Bad Gateway" /\
  outcome w2 0 = Some {| ok := true; response := Some "2 users"; error := None |} /\
  outcome w2 0 <> Some (failure "HTTP 502 Bad Gateway").
Proof.
  cbv zeta. split; [reflexivity|].
  assert (H : outcome
            (command_settle
               (handle Sample.killTable Sample.patterns
                  (command_start Sample.world1 "server1" "Users").1
                  (Sample.batch [Sample.executing "12:00:01" "Users";
                                 Sample.line "12:00:01" "2 users"]) Sample.server1).1
               "server1" "Users" 0
               (FetchResponse 502 "Bad Gateway") (JsonThrew "Unexpected token")) 0
            = Some {| ok := true; response := Some "2 users"; error := None |})
    by (vm_compute; reflexivity).
  split; [exact H|]. rewrite H. discriminate.
Qed.

(** * Commands, retries and polls *)

(** X22.  A command whose request meets only transient failures gives up
    with the last one.  When the first three attempts of the request each
    throw or answer 502, 503 or 504, the default retry loop has made three
    calls and slept 3000 ms.  Meanwhile the manager makes moves that are not
    this call's own, time passing (those 3000 ms at least), console batches
    and other dispatches among them; then the third failure is processed.
    From then on the command has no entry in the registry and no record
    resolves its promise, at least 3000 ms have passed since the dispatch,
    and whatever happens next, the rest of the call included, the promise
    keeps what it holds: the failure with the reason of the third attempt
    (the exception's message, or "HTTP" with the status line), whatever the
    body would have been, if no log line had answered the command before;
    the answer of the log otherwise.  The same reason is returned when no
    response is awaited. *)
Theorem command_gives_up_after_transient_attempts
    (playerKillData : list KillEntry) (RE : RegularExpressions)
    (w : World) (ident cmd : string) (fetch : nat -> FetchOutcome) (j : JsonOutcome)
    (w1 w3 : World) :
  wellFormed w ->
  refused w ident = None ->
  (forall i, i <= 2 -> decisive (fetch i) = false) ->
  let run := fetchWithRetryDefault fetch in
  let reason := match fetch 2 with
                | FetchThrew message => message
                | FetchResponse status statusText =>
                    "HTTP " ++ decimal status ++ " " ++ statusText
                end in
  let p := nextPromise w in
  let w0 := (command_start w ident cmd).1 in
  let w2 := failingMove w1 ident cmd p (result run) j in
  moves playerKillData RE (others p) anyBatch w0 w1 ->
  (now w0 + slept run <= now w1)%N ->
  moves playerKillData RE anyReply anyBatch w2 w3 ->
  calls run = 3 /\ slept run = 3000%N /\
  (now w + 3000 <= now w3)%N /\
  CommandHandler.get (commands w2) ident cmd = None /\
  (forall x, x ∈ commands w3 -> cr_resolve x <> p) /\
  (outcome w1 p = None -> outcome w3 p = Some (failure reason)) /\
  (forall v, outcome w1 p = Some v -> outcome w3 p = Some v) /\
  command_bare (result run) = failure reason.
Proof.
  intros Hwf Href Hall run reason p w0 w2 Hpre Hslept Hpost. subst p.
  assert (Hrun : run = {| result := fetch 2; calls := 3; slept := 3000%N |}).
  { unfold run, fetchWithRetryDefault, fetchWithRetry.
    destruct (attemptFrom_stops fetch 1000 2 0 0 2) as (extra & He & Hs);
      [lia | intros i Hi; apply Hall; lia | by right |].
    rewrite He. cbn [Nat.add] in Hs.
    change (N.of_nat 2 * (N.of_nat 2 + 1) / 2)%N with 3%N in Hs.
    change (N.of_nat 0 * (N.of_nat 0 + 1) / 2)%N with 0%N in Hs.
    rewrite N.add_0_r in Hs. by subst extra. }
  assert (Hreason : failureReason (fetch 2) j = Some reason
                    /\ command_bare (fetch 2) = failure reason).
  { specialize (Hall 2 (le_n 2)). unfold decisive in Hall. unfold reason.
    destruct (fetch 2) as [message | status statusText]; [done|].
    apply orb_false_iff in Hall. destruct Hall as [Hok _].
    cbn [failureReason command_bare]. by rewrite Hok. }
  destruct Hreason as [Hreason Hbare].
  unfold w2 in *. rewrite Hrun in *. cbn [result calls slept] in *.
  destruct (request_failed playerKillData RE w ident cmd (fetch 2) j reason w1 w3
              Hwf Href Hreason Hpre Hpost)
    as (_ & Hnow & Hg & _ & [_ Habs3] & Ho2 & Ho3).
  pose proof (now_moves playerKillData RE _ _ _ _ Hpost) as Hlater.
  assert (Hw0 : now w0 = now w).
  { unfold w0. by rewrite (command_start_accepted w ident cmd Href). }
  split; [reflexivity|]. split; [reflexivity|].
  assert (Hle : (now w1 <= now w3)%N) by (rewrite <- Hnow; exact Hlater).
  split; [lia|].
  split; [exact Hg|]. split; [exact Habs3|].
  split; [|split; [|exact Hbare]].
  - intros Hpend. by rewrite Ho3, Ho2, Hpend.
  - intros v Hv. by rewrite Ho3, Ho2, Hv.
Qed.

(** The theorem at work: 502, an exception and 503 on the three attempts
    of "Users"; the third failure is processed 3200 ms after the dispatch,
    the rest of the call follows and ten seconds pass. *)
Lemma command_gives_up_after_transient_attempts_witness :
  let fetch := fun n : nat =>
    match n with
    | 0 => FetchResponse 502 "Bad Gateway"
    | 1 => FetchThrew "socket hang up"
    | _ => FetchResponse 503 "Service Unavailable"
    end in
  let run := fetchWithRetryDefault fetch in
  let w0 := (command_start Sample.world1 "server1" "Users").1 in
  let w1 := advance w0 3200 in
  let w2 := failingMove w1 "server1" "Users" 0 (result run) (JsonData true) in
  let w3 := advance (command_onJson w2 "server1" "Users" 0 (JsonData true)) 10000 in
  calls run = 3 /\ slept run = 3000%N /\
  CommandHandler.get (commands w2) "server1" "Users" = None /\
  outcome w3 0 = Some (failure "HTTP 503 Service Unavailable") /\
  command_bare (result run) = failure "HTTP 503 Service Unavailable".
Proof.
  intros fetch run w0 w1 w2 w3.
  assert (Hwf : wellFormed Sample.world1) by (apply wellFormed_empty; reflexivity).
  assert (Hall : forall i, i <= 2 -> decisive (fetch i) = false).
  { intros [|[|[|i]]] Hi; [reflexivity | reflexivity | reflexivity | lia]. }
  assert (Hpre : moves Sample.killTable Sample.patterns (others 0) anyBatch w0 w1)
    by (apply rtc_once; exact (move_time _ _ _ _ w0 3200)).
  assert (Hslept : (now w0 + slept run <= now w1)%N)
    by (apply N.leb_le; vm_compute; reflexivity).
  assert (Hpost : moves Sample.killTable Sample.patterns anyReply anyBatch w2 w3).
  { eapply rtc_l; [exact (move_parsed _ _ _ _ w2 "server1" "Users" 0 (JsonData true) I)|].
    apply rtc_once. apply move_time. }
  destruct (command_gives_up_after_transient_attempts Sample.killTable Sample.patterns
              Sample.world1 "server1" "Users" fetch (JsonData true) w1 w3
              Hwf eq_refl Hall Hpre Hslept Hpost)
    as (Hc & Hs & _ & Hg & _ & Hpend & _ & Hbare).
  split; [exact Hc|]. split; [exact Hs|]. split; [exact Hg|].
  split; [exact (Hpend eq_refl) | exact Hbare].
Defined.

(** X23.  The radio poller sends its command only for a known, running
    server.  For an unknown identifier it does nothing.  When the command
    is refused, for want of a token or because the server is not running,
    nothing is registered and no promise is made, and the run that follows
    changes neither the state nor the server.  Otherwise the token is set,
    the server is running and the call gets a fresh promise; if the
    registry holds no "rf.listboardcaster" for the server, a record of that
    command with the fresh promise, without timestamp or timeout, is added
    at its end; if it holds one already, from a run still in flight, the
    registry stays as it is and no record carries the fresh promise. *)
Theorem radio_poll_needs_a_running_server
    (w : World) (ident : string) :
  (servers w !! ident = None ->
   updateBroadcasters_start w ident = (w, None)) /\
  (forall s r,
     servers w !! ident = Some s ->
     identifier s = ident ->
     refused w ident = Some r ->
     updateBroadcasters_start w ident = (w, Some (s, Done r)) /\
     updateBroadcasters_resume w s r = (w, s)) /\
  (forall s,
     servers w !! ident = Some s ->
     identifier s = ident ->
     refused w ident = None ->
     JS.truthy_opt (accessToken w) = true /\ status s = "RUNNING" /\
     (updateBroadcasters_start w ident).2 = Some (s, Awaiting (nextPromise w)) /\
     nextPromise (updateBroadcasters_start w ident).1 = S (nextPromise w) /\
     settled (updateBroadcasters_start w ident).1 = settled w /\
     (CommandHandler.get (commands w) ident "rf.listboardcaster" = None ->
      commands (updateBroadcasters_start w ident).1
      = (commands w ++
           [{| cr_identifier := ident; cr_command := "rf.listboardcaster";
               cr_timestamp := None; cr_timeout := None;
               cr_resolve := nextPromise w |}])%list) /\
     (is_Some (CommandHandler.get (commands w) ident "rf.listboardcaster") ->
      commands (updateBroadcasters_start w ident).1 = commands w)).
Proof.
  split; [|split].
  - intros Hs. unfold updateBroadcasters_start. by rewrite Hs.
  - intros s r Hs Hi Hr. unfold updateBroadcasters_start, command_start.
    rewrite Hs, Hi, Hr. split; [reflexivity|].
    unfold updateBroadcasters_resume.
    assert (Hresp : response r = None).
    { unfold refused in Hr. rewrite Hs in Hr.
      destruct (negb (JS.truthy_opt (accessToken w))); [by injection Hr as <-|].
      destruct (negb (String.eqb (status s) "RUNNING")); [by injection Hr as <-|].
      discriminate. }
    by rewrite Hresp.
  - intros s Hs Hi Hr. unfold updateBroadcasters_start. rewrite Hs, Hi.
    rewrite (command_start_accepted w ident _ Hr). cbn [fst snd].
    unfold refused in Hr. rewrite Hs in Hr.
    destruct (JS.truthy_opt (accessToken w)); [|discriminate].
    destruct (String.eqb_spec (status s) "RUNNING") as [Hrun|]; [|discriminate].
    split; [reflexivity|]. split; [exact Hrun|]. split; [reflexivity|].
    split; [reflexivity|]. split; [reflexivity|].
    cbn [commands set_commands]. unfold CommandHandler.add.
    cbn [cr_identifier cr_command].
    split; [by intros -> | by intros [c ->]].
Qed.

(** X24.  Without a second server id, [add] refuses a first id that is
    missing, zero, or below 10^21 (where [toString] prints plain digits)
    and not seven digits long: it returns [false] and leaves the manager as
    it is, whatever the lookups would answer. *)
Theorem add_refuses_a_first_id_of_wrong_length
    (w : World) (opts : ServerOptions) (first : option N)
    (fetchId : N -> option N) (fetchStatus : N -> option string) :
  match opt_serverId opts with
  | Bare n => first = Some n
  | Listed l => first = l !! 0 /\ truthyNumber (l !! 1) = false
  end ->
  match first with
  | Some n => n = 0%N \/ ((n < 10 ^ 21)%N /\ String.length (decimal n) <> 7)
  | None => True
  end ->
  Servers.add w opts fetchId fetchStatus = (w, false).
Proof.
  intros Hsid Hbad. unfold Servers.add, resolveServerId.
  assert (Hb : badLength first = true).
  { unfold badLength. destruct first as [n|]; [|done].
    destruct Hbad as [-> | [_ Hlen]]; [done|].
    apply Nat.eqb_neq in Hlen. rewrite Hlen. by rewrite andb_false_r. }
  destruct (opt_serverId opts) as [n|l].
  - subst first. by rewrite Hb.
  - destruct Hsid as [-> Hsec]. by rewrite Hsec, Hb.
Qed.

Lemma add_refuses_a_first_id_of_wrong_length_witness :
  Servers.add Sample.world1
    {| opt_identifier := "server2"; opt_serverId := Listed [123456%N; 0%N];
       opt_region := "EU"; opt_silent := None |}
    (fun _ => Some 7654321%N) (fun _ => Some "RUNNING")
  = (Sample.world1, false).
Proof.
  apply (add_refuses_a_first_id_of_wrong_length Sample.world1 _ (Some 123456%N)).
  - split; reflexivity.
  - right. split; [reflexivity|]. vm_compute. discriminate.
Defined.

(** X25.  With a second server id given and not zero, [add] takes the ids
    as they are: the first id is not checked and no id is looked up, so the
    result is the same whatever the lookup of ids would answer, and the
    server is registered exactly when the status fetched for the second id
    is neither missing, nor empty, nor "SUSPENDED". *)
Theorem add_trusts_a_given_second_id
    (w : World) (opts : ServerOptions) (l : list N) (b : N)
    (fetchId fetchId' : N -> option N) (fetchStatus : N -> option string) :
  opt_serverId opts = Listed l ->
  l !! 1 = Some b ->
  b <> 0%N ->
  Servers.add w opts fetchId fetchStatus = Servers.add w opts fetchId' fetchStatus /\
  ((Servers.add w opts fetchId fetchStatus).2 = true <->
   exists st, fetchStatus b = Some st /\ JS.truthy st = true /\ st <> "SUSPENDED") /\
  ((Servers.add w opts fetchId fetchStatus).2 = true ->
   exists s, Servers.get (Servers.add w opts fetchId fetchStatus).1 (opt_identifier opts)
             = Some s /\ serverId s = l).
Proof.
  intros Hsid Hl Hb.
  assert (Hres : forall f, resolveServerId f (opt_serverId opts) = Some (List.map Some l)).
  { intros f. unfold resolveServerId. rewrite Hsid, Hl. cbn [truthyNumber].
    by destruct (N.eqb_spec b 0). }
  unfold Servers.add. rewrite !Hres, list_lookup_fmap, Hl.
  cbn [fmap option_fmap option_map mjoin option_join truthyNumber].
  change (mjoin (Some (Some b))) with (Some b).
  cbn [truthyNumber]. destruct (N.eqb_spec b 0) as [|_]; [done|]. cbn [negb].
  change (default 0%N (Some b)) with b.
  split; [reflexivity|].
  destruct (fetchStatus b) as [st|]; [|split; [split; [done | by intros (st & H & _)] | done]].
  destruct (JS.truthy st) eqn:Ht; cbn [negb].
  - destruct (String.eqb_spec st "SUSPENDED") as [->|Hne]; cbn [snd].
    + split; [split; [done|] | done]. by intros (st & [= <-] & _ & H).
    + split; [split; [by exists st | done]|]. intros _. eexists.
      unfold Servers.get. cbn [fst servers set_servers].
      split; [apply lookup_insert_eq|]. cbn [serverId]. apply omap_map_Some.
  - split; [split; [done|] | done]. intros (st' & [= <-] & H & _). congruence.
Qed.

Lemma add_trusts_a_given_second_id_witness :
  let opts := {| opt_identifier := "server2"; opt_serverId := Listed [12%N; 34%N];
                 opt_region := "EU"; opt_silent := None |} in
  (Servers.add Sample.world1 opts (fun _ => None) (fun _ => Some "RUNNING")).2 = true.
Proof.
  refine (proj2 (proj1 (proj2 (add_trusts_a_given_second_id Sample.world1
            {| opt_identifier := "server2"; opt_serverId := Listed [12%N; 34%N];
               opt_region := "EU"; opt_silent := None |}
            [12%N; 34%N] 34%N (fun _ => None) (fun _ => None) (fun _ => Some "RUNNING")
            eq_refl eq_refl _))) _).
  - discriminate.
  - exists "RUNNING". split; [reflexivity|]. split; [reflexivity | discriminate].
Defined.
